(** * Monad token-health scoring: holder concentration and unique-EOA activity

    A shallow embedding of
      - [src/blockchain/contract_reader.py]  (class [ContractReader]),
      - [src/scoring/holder_analysis.py]     (class [HolderAnalyzer]),
      - [src/scoring/unique_eoa.py]          (class [UniqueEOAAnalyzer]),
    and the properties of the batched log scan and of the two scoring
    tables.

    Conventions of the embedding.
      - Python [int] is [Z] (unbounded).
      - Python [float] in [holder_analysis.py], in the readable amounts
        of [contract_reader.py] and in [eoa_percentage] is read as an
        exact rational [Q]: that code only compares, adds, subtracts,
        multiplies and divides, and its constants 0.75 and 0.375 are
        dyadic.  Rounding of binary64 arithmetic is not part of this
        reading.  Module [Binary64] has the two threshold functions of
        [holder_analysis.py] on IEEE binary64 values as well: which branch
        every float takes, and the values at the boundary points.
      - Where [unique_eoa.py] rounds a float to two decimals
        ([_calculate_score], [get_eoa_activity_stats]), the rounding of
        binary64 arithmetic shows in the result.  There a float is the
        rational that it holds and every operation returns the binary64
        value nearest to the exact result, ties to even ([Py.nearest]);
        [round(x, 2)] rounds the value held.  The exponent range is not
        bounded: no count is large enough to overflow.
      - Python [str] is [string]; [set] is stdpp's [gset]; a [dict] whose
        iteration order is observable is an association list.
      - A method that talks to the RPC endpoint or to the cache is a
        computation in the state-and-exception monad [Py W]: it takes the
        state of the outside world and returns either a raised exception
        (its message) or a value, with the new state of the world. *)

From Stdlib Require Import QArith Qround Qabs Qpower Lqa ZArith String Ascii List Lia.
From Stdlib Require Import Sorting.Sorted Sorting.Permutation.
From Corelib Require PrimFloat SpecFloat FloatOps FloatAxioms.
From stdpp Require Import gmap strings list sets sorting.

Local Open Scope Z_scope.
Local Open Scope string_scope.
Local Open Scope list_scope.

(** ** Python values and control *)

Module Py.

(** An exception is represented by its message, [str(e)]. *)
Definition exn : Type := string.

(** [Py W A]: a computation over the world state [W] that returns an [A]
    or raises. *)
Definition Py (W A : Type) : Type := W -> (exn + A) * W.

Definition ret {W A} (a : A) : Py W A := fun w => (inr a, w).

Definition raise {W A} (e : exn) : Py W A := fun w => (inl e, w).

Definition bind {W A B} (m : Py W A) (k : A -> Py W B) : Py W B :=
  fun w =>
    match m w with
    | (inr a, w') => k a w'
    | (inl e, w') => (inl e, w')
    end.

(** [try: body / except Exception as e: handler e] *)
Definition try_except {W A} (body : Py W A) (handler : exn -> Py W A) : Py W A :=
  fun w =>
    match body w with
    | (inr a, w') => (inr a, w')
    | (inl e, w') => handler e w'
    end.

(** A pure computation that may raise. *)
Definition lift {W A} (r : exn + A) : Py W A := fun w => (r, w).

(** [for x in xs: acc = body acc x] *)
Fixpoint for_each {W A S} (xs : list A) (body : S -> A -> Py W S) (acc : S) : Py W S :=
  match xs with
  | [] => ret acc
  | x :: xs' => bind (body acc x) (for_each xs' body)
  end.

(** *** Numbers *)

(** [a / b] on two ints, read exactly: [ZeroDivisionError] on [b = 0]. *)
Definition truediv (a b : Z) : exn + Q :=
  if (b =? 0)%Z then inl "division by zero" else inr (inject_Z a / inject_Z b)%Q.

(** Nearest integer, ties to the even one. *)
Definition round_half_even (x : Q) : Z :=
  let f := Qfloor x in
  match (x - inject_Z f ?= 1 # 2)%Q with
  | Lt => f
  | Gt => f + 1
  | Eq => if Z.even f then f else f + 1
  end.

(** *** binary64

    A finite float is the rational that it holds.  An operation on
    floats returns the binary64 value nearest to the exact result, ties
    to the even significand: [nearest].  The significand has 53 bits; the
    exponent is not bounded (no overflow beyond 1.8e308, no gradual
    underflow below 2.2e-308). *)

(** [floor (log2 x)] for [x > 0]: the exponent of [x]. *)
Definition ilog2 (x : Q) : Z :=
  let k := (Z.log2 (Qnum x) - Z.log2 (Zpos (Qden x)))%Z in
  if Qle_bool (2 ^ k) x then k else (k - 1)%Z.

(** The binary64 value nearest to [x > 0]: the significand [x / ulp],
    between [2 ^ 52] and [2 ^ 53], is rounded to an integer. *)
Definition nearest_pos (x : Q) : Q :=
  let ulp := (2 ^ (ilog2 x - 52))%Q in
  Qred (inject_Z (round_half_even (x / ulp)) * ulp).

Definition nearest (x : Q) : Q :=
  match (x ?= 0)%Q with
  | Eq => 0%Q
  | Gt => nearest_pos x
  | Lt => (- nearest_pos (- x))%Q
  end.

(** [x + y], [x - y], [x * y] and [x / y] on floats ([y] is a non-zero
    literal wherever the sources divide floats). *)
Definition float_add (x y : Q) : Q := nearest (x + y).
Definition float_sub (x y : Q) : Q := nearest (x - y).
Definition float_mul (x y : Q) : Q := nearest (x * y).
Definition float_div (x y : Q) : Q := nearest (x / y).

(** [a / b] on two ints, as the float that Python returns: the binary64
    value nearest to the quotient; [ZeroDivisionError] on [b = 0]. *)
Definition float_truediv (a b : Z) : exn + Q :=
  if (b =? 0)%Z then inl "division by zero"
  else inr (nearest (inject_Z a / inject_Z b)).

(** [round(x, ndigits)] on a float, for [ndigits >= 0]: the value that
    the float holds is rounded to the nearest multiple of
    [10 ** -ndigits], ties to even, and the result is the float nearest
    to that decimal. *)
Definition round (x : Q) (ndigits : N) : Q :=
  let scale := inject_Z (10 ^ Z.of_N ndigits) in
  nearest (inject_Z (round_half_even (x * scale)) / scale).

(** *** Strings *)

(** [c.lower()] on one ASCII character. *)
Definition lower_ascii (c : ascii) : ascii :=
  let n := nat_of_ascii c in
  if ((65 <=? n) && (n <=? 90))%nat then ascii_of_nat (n + 32) else c.

(** [s.lower()] (ASCII letters; other bytes are left as they are). *)
Fixpoint lower (s : string) : string :=
  match s with
  | EmptyString => EmptyString
  | String c s' => String (lower_ascii c) (lower s')
  end.

(** [needle in hay] *)
Definition contains (needle hay : string) : bool :=
  match String.index 0 needle hay with
  | Some _ => true
  | None => false
  end.

End Py.

Import Py.

Declare Scope py_scope.
Delimit Scope py_scope with py.
Notation "'let*' x := m 'in' k" := (bind m (fun x => k))
(at level 10, x binder, k at level 200) : py_scope.
Notation "m ;; k" := (bind m (fun _ => k))
(at level 100, k at level 200, right associativity) : py_scope.

(** Comparisons of Python numbers, as booleans. *)
Declare Scope pynum_scope.
Delimit Scope pynum_scope with pynum.
Notation "a <=? b" := (Qle_bool a b) (at level 70) : pynum_scope.
Notation "a >=? b" := (Qle_bool b a) (at level 70) : pynum_scope.

(** Arithmetic on floats. *)
Declare Scope float64_scope.
Delimit Scope float64_scope with f64.

Arguments float_add (x y)%_f64.
Arguments float_sub (x y)%_f64.
Arguments float_mul (x y)%_f64.
Arguments float_div (x y)%_f64.

Notation "x + y" := (float_add x y) : float64_scope.
Notation "x - y" := (float_sub x y) : float64_scope.
Notation "x * y" := (float_mul x y) : float64_scope.
Notation "x / y" := (float_div x y) : float64_scope.

(** ** The outside world: RPC endpoint, web3 helpers, cache *)

Definition address : Type := string.

(** A decoded Transfer event, the dict built by
    [ContractReader.get_transfer_events], lines 203-209. *)
Record TransferEvent : Type := {
  block_number : Z;
  transaction_hash : string;
  from : address;
  to : address;
  value : Z
}.

(** A raw log of [eth_getLogs] is only ever handed to
    [contract.events.Transfer().process_log]; it is represented by what
    that call makes of it: the decoded fields, or the exception raised. *)
Definition RawLog : Type := exn + TransferEvent.

(** [blockchain/web3_client.py] and the web3 package are not among the
    sources: the calls the three classes make to them are the fields of
    this interface, each one free to answer or to raise, and to change the
    world. *)
Record Web3Client (W : Type) : Type := {
  get_latest_block : Py W Z;
  get_block_number : Py W Z;
  is_contract : address -> Py W bool;
  (** [Web3.to_checksum_address]: local, raises on a malformed address *)
  to_checksum_address : string -> exn + address;
  (** [w3.eth.get_logs] for the Transfer topic of a contract and a range *)
  eth_get_logs : address -> Z -> Z -> Py W (list RawLog);
  (** [contract.functions.<f>(...).call()] on the contract at an address *)
  call_name : address -> Py W string;
  call_symbol : address -> Py W string;
  call_decimals : address -> Py W Z;
  call_totalSupply : address -> Py W Z;
  call_balanceOf : address -> address -> Py W Z
}.

Arguments get_latest_block {W}.
Arguments get_block_number {W}.
Arguments is_contract {W}.
Arguments to_checksum_address {W}.
Arguments eth_get_logs {W}.
Arguments call_name {W}.
Arguments call_symbol {W}.
Arguments call_decimals {W}.
Arguments call_totalSupply {W}.
Arguments call_balanceOf {W}.

(** [utils/simple_db.py] is not among the sources either: a cache is its
    two operations, [get(key)] answering a stored value or [None] (absent
    or stale), and [set(key, value)]. *)
Record SimpleDB (W V : Type) : Type := {
  db_get : string -> Py W (option V);
  db_set : string -> V -> Py W unit
}.

Arguments db_get {W V}.
Arguments db_set {W V}.

(** ** contract_reader.py *)

Module ContractReader.

Local Open Scope py_scope.

Record t (W : Type) : Type := {
  client : Web3Client W;
  contract_address : address
}.

Arguments client {W}.
Arguments contract_address {W}.

Section Methods.
Context {W : Type}.

(** [ContractReader.__init__], lines 65-80. *)
Definition __init__ (client : Web3Client W) (contract_address : string) : Py W (t W) :=
  let* checksum := lift (to_checksum_address client contract_address) in
  ret {| client := client; contract_address := checksum |}.

(** [get_name], lines 82-87. *)
Definition get_name (self : t W) : Py W string :=
  try_except (call_name (client self) (contract_address self))
             (fun _ => ret "Unknown").

(** [get_symbol], lines 89-94. *)
Definition get_symbol (self : t W) : Py W string :=
  try_except (call_symbol (client self) (contract_address self))
             (fun _ => ret "UNKNOWN").

(** [get_decimals], lines 96-101. *)
Definition get_decimals (self : t W) : Py W Z :=
  try_except (call_decimals (client self) (contract_address self))
             (fun _ => ret 18).

(** [get_total_supply], lines 103-108. *)
Definition get_total_supply (self : t W) : Py W Z :=
  try_except (call_totalSupply (client self) (contract_address self))
             (fun _ => ret 0).

(** [get_balance], lines 116-130: the checksum conversion comes before the
    [try]. *)
Definition get_balance (self : t W) (address : string) : Py W Z :=
  let* checksum_address := lift (to_checksum_address (client self) address) in
  try_except (call_balanceOf (client self) (contract_address self) checksum_address)
             (fun _ => ret 0).

(** The loop of lines 197-212: a log that does not decode is skipped. *)
Fixpoint format_events (logs : list RawLog) : list TransferEvent :=
  match logs with
  | [] => []
  | inr event_data :: logs' => event_data :: format_events logs'
  | inl _decode_error :: logs' => format_events logs'
  end.

(** [get_transfer_events], lines 146-218, called as the two analyzers call
    it: without [from_address] and [to_address] (with both [None], lines
    169-179 only build a dict that is not read again). *)
Definition get_transfer_events (self : t W) (from_block : Z) (to_block : option Z)
  : Py W (list TransferEvent) :=
  let* to_block :=
    match to_block with
    | None => get_block_number (client self)
    | Some b => ret b
    end in
  try_except
    (let* logs := eth_get_logs (client self) (contract_address self) from_block to_block in
     ret (format_events logs))
    (fun _e => ret []).

(** [total / (10 ** decimals)], lines 114 and 144.  [decimals] is the
    [uint8] of the ABI, so [10 ** decimals] is a positive int and the
    division cannot fail. *)
Definition scaled (raw decimals : Z) : Q :=
  (inject_Z raw / inject_Z (10 ^ decimals))%Q.

(** [get_total_supply_human], lines 110-114. *)
Definition get_total_supply_human (self : t W) : Py W Q :=
  let* total_supply := get_total_supply self in
  let* decimals := get_decimals self in
  ret (scaled total_supply decimals).

(** [get_balance_human], lines 132-144. *)
Definition get_balance_human (self : t W) (address : string) : Py W Q :=
  let* balance := get_balance self address in
  let* decimals := get_decimals self in
  ret (scaled balance decimals).

(** [if x:] on an optional string: [None] and the empty string are
    false. *)
Definition given (x : option string) : option string :=
  match x with
  | Some EmptyString => None
  | _ => x
  end.

(** [get_transfer_events] with its two address filters, lines 146-218:
    the filters are checksummed into [filter_params] (lines 169-179),
    ahead of the [try]; the request of lines 186-194 is built from the
    block numbers, the contract address and the topic. *)
Definition get_transfer_events_with_filters (self : t W) (from_block : Z)
    (to_block : option Z) (from_address to_address : option string)
  : Py W (list TransferEvent) :=
  let* to_block :=
    match to_block with
    | None => get_block_number (client self)
    | Some b => ret b
    end in
  let* _filter_from :=
    match given from_address with
    | Some a => let* c := lift (to_checksum_address (client self) a) in ret (Some c)
    | None => ret None
    end in
  let* _filter_to :=
    match given to_address with
    | Some a => let* c := lift (to_checksum_address (client self) a) in ret (Some c)
    | None => ret None
    end in
  try_except
    (let* logs := eth_get_logs (client self) (contract_address self) from_block to_block in
     ret (format_events logs))
    (fun _e => ret []).

End Methods.

(** The dict of [get_token_info], lines 227-234. *)
Record TokenInfo : Type := {
  info_address : address;
  info_name : string;
  info_symbol : string;
  info_decimals : Z;
  info_total_supply : Z;
  info_total_supply_human : Q
}.

(** [get_token_info], lines 220-234: the entries of the dict are
    evaluated in the order they are written. *)
Definition get_token_info {W} (self : t W) : Py W TokenInfo :=
  let* name := get_name self in
  let* symbol := get_symbol self in
  let* decimals := get_decimals self in
  let* total_supply := get_total_supply self in
  let* total_supply_human := get_total_supply_human self in
  ret {| info_address := contract_address self;
         info_name := name;
         info_symbol := symbol;
         info_decimals := decimals;
         info_total_supply := total_supply;
         info_total_supply_human := total_supply_human |}.

End ContractReader.

(** ** holder_analysis.py *)

Module HolderAnalyzer.

Local Open Scope py_scope.

(** The holder dict [{address: balance}], in insertion order. *)
Definition Holders : Type := list (address * Z).

Record t (W : Type) : Type := {
  client : Web3Client W;
  use_cache : bool;
  db : SimpleDB W Holders
}.

Arguments client {W}.
Arguments use_cache {W}.
Arguments db {W}.

(** The result dict of [analyze_holder_concentration]; [error] is the key
    that only the empty result carries. *)
Record Report : Type := {
  total_holders : Z;
  total_supply : Z;
  top10_holders : list (address * Z * Q);
  top10_percentage : Q;
  score : Q;
  risk_level : string;
  error : option string
}.

Definition ZERO_ADDRESS : address := "0x0000000000000000000000000000000000000000".

Definition BATCH_SIZE : Z := 1000.

(** [if event["from"] != ZERO: all_addresses.add(event["from"])] and the
    same for [event["to"]], lines 71-74 (and 91-94). *)
Definition add_event (all_addresses : gset address) (event : TransferEvent) : gset address :=
  let all_addresses :=
    if negb (String.eqb (from event) ZERO_ADDRESS)
    then all_addresses ∪ {[ from event ]} else all_addresses in
  if negb (String.eqb (to event) ZERO_ADDRESS)
  then all_addresses ∪ {[ to event ]} else all_addresses.

(** [for event in events: ...], lines 69-74. *)
Definition add_events (all_addresses : gset address) (events : list TransferEvent)
  : gset address :=
  foldl add_event all_addresses events.

(** [holders[addr] = balance] *)
Fixpoint dict_set (holders : Holders) (addr : address) (balance : Z) : Holders :=
  match holders with
  | [] => [(addr, balance)]
  | (a, b) :: rest =>
      if String.eqb a addr then (a, balance) :: rest
      else (a, b) :: dict_set rest addr balance
  end.

(** [sum(...)] over ints *)
Definition sum (xs : list Z) : Z := foldr Z.add 0 xs.

(** [holders.values()] *)
Definition values (holders : Holders) : list Z := map snd holders.

(** [sorted(items, key=lambda x: x[1], reverse=True)]: descending in the
    balance, and stable (items with equal balances keep their order). *)
Fixpoint insert_desc (x : address * Z) (items : list (address * Z)) : list (address * Z) :=
  match items with
  | [] => [x]
  | y :: rest =>
      if (snd x <? snd y)%Z then y :: insert_desc x rest else x :: y :: rest
  end.

Definition sorted_desc (items : list (address * Z)) : list (address * Z) :=
  foldr insert_desc [] items.

Section Methods.
Context {W : Type}.

(** One turn of the [while] loop of [get_all_holders], lines 64-102, on
    the cursor [current] and the set [all_addresses]; [query a b] is the
    call [reader.get_transfer_events(a, b)]. *)
Definition scan_batch (query : Z -> Z -> Py W (list TransferEvent)) (to_block : Z)
    (state : Z * gset address) : Py W (Z * gset address) :=
  let '(current, all_addresses) := state in
  let batch_end := Z.min (current + BATCH_SIZE) to_block in
  try_except
    (let* events := query current batch_end in
     ret (batch_end + 1, add_events all_addresses events))
    (fun e =>
       if contains "block range too large" (lower e) then
         let smaller_batch := (batch_end - current) / 2 in
         if (smaller_batch <? 100)%Z then
           ret (batch_end + 1, all_addresses)
         else
           let batch_end := current + smaller_batch in
           try_except
             (let* events := query current batch_end in
              ret (batch_end + 1, add_events all_addresses events))
             (fun _retry_e => ret (batch_end + 1, all_addresses))
       else
         ret (batch_end + 1, all_addresses)).

(** [while current <= to_block: ...], line 63, run for at most [fuel]
    turns: [None] when the fuel runs out before the loop ends. *)
Fixpoint scan_loop (fuel : nat) (query : Z -> Z -> Py W (list TransferEvent))
    (to_block : Z) (state : Z * gset address) : Py W (option (Z * gset address)) :=
  if (fst state <=? to_block)%Z then
    match fuel with
    | O => ret None
    | S fuel' =>
        let* state' := scan_batch query to_block state in
        scan_loop fuel' query to_block state'
    end
  else ret (Some state).

(** The balance pass, lines 107-118. *)
Definition collect_balances (reader : ContractReader.t W) (all_addresses : gset address)
  : Py W Holders :=
  for_each (elements all_addresses)
    (fun holders addr =>
       try_except
         (let* balance := ContractReader.get_balance reader addr in
          if (balance >? 0)%Z then ret (dict_set holders addr balance)
          else ret holders)
         (fun _e => ret holders))
    [].

(** [HolderAnalyzer.get_all_holders], lines 29-126.  The scan is given
    [to_block + 1 - from_block] turns, one per block of the range. *)
Definition get_all_holders (self : t W) (token_address : string)
    (from_block : Z) (to_block : option Z) : Py W Holders :=
  let cache_key := ("holders_" ++ lower token_address)%string in
  let* cached :=
    if use_cache self then db_get (db self) cache_key else ret None in
  match cached with
  | Some (entry :: entries) => ret (entry :: entries)
  | _ =>
      let* reader := ContractReader.__init__ (client self) token_address in
      let* to_block :=
        match to_block with
        | None => get_latest_block (client self)
        | Some b => ret b
        end in
      let* scanned :=
        scan_loop (Z.to_nat (to_block + 1 - from_block))
          (fun a b => ContractReader.get_transfer_events reader a (Some b))
          to_block (from_block, ∅) in
      match scanned with
      | None => raise "scan loop out of fuel"
      | Some (_, all_addresses) =>
          let* holders := collect_balances reader all_addresses in
          (if use_cache self then db_set (db self) cache_key holders else ret tt) ;;
          ret holders
      end
  end.

End Methods.

Local Open Scope Q_scope.
Local Open Scope pynum_scope.

(** [HolderAnalyzer._calculate_score], lines 196-215. *)
Definition _calculate_score (top10_percentage : Q) : Q :=
  if top10_percentage <=? 20 then 30.0
  else if top10_percentage <=? 40 then
    30.0 - (top10_percentage - 20) * 0.75
  else
    if top10_percentage >=? 80 then 0.0
    else 15.0 - (top10_percentage - 40) * 0.375.

(** [HolderAnalyzer._determine_risk_level], lines 217-231. *)
Definition _determine_risk_level (top10_percentage : Q) : string :=
  if top10_percentage <=? 20 then "low_risk"
  else if top10_percentage <=? 40 then "medium_risk"
  else if top10_percentage <=? 60 then "high_risk"
  else "extreme_risk".

(** [HolderAnalyzer.analyze_holder_concentration], lines 128-194. *)
Definition analyze_holder_concentration {W} (self : t W) (token_address : string)
    (from_block : Z) (to_block : option Z) : Py W Report :=
  let* holders := get_all_holders self token_address from_block to_block in
  if (length holders =? 0)%nat then
    ret {| total_holders := 0;
           total_supply := 0;
           top10_holders := [];
           top10_percentage := 0.0;
           score := 0.0;
           risk_level := "unknown";
           error := Some "No holders found" |}
  else
    let total_supply := sum (values holders) in
    let sorted_holders := sorted_desc holders in
    let top10 := firstn 10 sorted_holders in
    let top10_sum := sum (map snd top10) in
    let* top10_percentage :=
      if (total_supply >? 0)%Z then
        let* share := lift (truediv top10_sum total_supply) in ret (share * 100)
      else ret 0 in
    let* top10_formatted :=
      for_each top10
        (fun formatted '(addr, balance) =>
           let* share := lift (truediv balance total_supply) in
           ret (formatted ++ [(addr, balance, share * 100)]))
        [] in
    let score := _calculate_score top10_percentage in
    let risk_level := _determine_risk_level top10_percentage in
    ret {| total_holders := Z.of_nat (length holders);
           total_supply := total_supply;
           top10_holders := top10_formatted;
           top10_percentage := top10_percentage;
           score := score;
           risk_level := risk_level;
           error := None |}.

End HolderAnalyzer.

(** ** unique_eoa.py *)

Module UniqueEOAAnalyzer.

Local Open Scope py_scope.

Record t (W : Type) : Type := {
  client : Web3Client W;
  (** [SimpleDB() if use_cache else None] *)
  cache : option (SimpleDB W bool)
}.

Arguments client {W}.
Arguments cache {W}.

(** The result dict of [analyze_transfer_events].  [message] is carried
    by the empty result only; [eoa_percentage], [time_window_hours] and
    [events_count] by the other one (its [blocks_analyzed] text is left
    out). *)
Record Analysis : Type := {
  unique_eoa_count : Z;
  unique_eoa_list : list address;
  total_addresses : Z;
  contract_addresses : Z;
  eoa_percentage : option Q;
  score : Q;
  risk_level : string;
  message : option string;
  time_window_hours : option Z;
  events_count : option Z
}.

(** The three sets of lines 113-115: all, EOA and contract addresses. *)
Record Sets : Type := {
  all_addresses : gset address;
  eoa_addresses : gset address;
  contract_addresses_set : gset address
}.

Local Open Scope Q_scope.
Local Open Scope pynum_scope.

(** The three branches of [_calculate_score] before the final
    [round(score, 2)], lines 179-191, on the normalized count: float
    arithmetic in the last two, the int 40 in the first. *)
Definition score_table (normalized_count : Q) : Q * string :=
  if normalized_count >=? 300 then (40, "low_risk")
  else if normalized_count >=? 50 then
    ((20 + (normalized_count - 50) / 250 * 20)%f64, "medium_risk")
  else
    (((normalized_count / 50) * 20)%f64, "high_risk").

(** [UniqueEOAAnalyzer._calculate_score], lines 160-193. *)
Definition _calculate_score (unique_eoa_count time_window_hours : Z)
  : exn + (Q * string) :=
  match float_truediv unique_eoa_count time_window_hours with
  | inl e => inl e
  | inr normalized_count =>
      let '(score, risk_level) := score_table normalized_count in
      inr (round score 2, risk_level)
  end.

(** The result dict of [get_eoa_activity_stats]; the two percentages are
    absent from the empty result. *)
Record Stats : Type := {
  total_eoa : Z;
  avg_tx_per_eoa : Q;
  high_frequency_eoa : Z;
  single_tx_eoa : Z;
  high_freq_percentage : option Q;
  single_tx_percentage : option Q
}.

Local Close Scope Q_scope.

Section Methods.
Context {W : Type}.

(** [UniqueEOAAnalyzer.is_eoa], lines 37-67. *)
Definition is_eoa (self : t W) (address : string) : Py W bool :=
  let cache_key := ("is_eoa_" ++ lower address)%string in
  let* cached :=
    match cache self with
    | Some db => db_get db cache_key
    | None => ret None
    end in
  match cached with
  | Some answer => ret answer
  | None =>
      let* is_contract := is_contract (client self) address in
      let result := negb is_contract in
      match cache self with
      | Some db => db_set db cache_key result
      | None => ret tt
      end ;;
      ret result
  end.

(** The body of the [for] loop, lines 124-141. *)
Definition classify_event (self : t W) (sets : Sets) (event : TransferEvent) : Py W Sets :=
  let from_addr := from event in
  let to_addr := to event in
  let all := all_addresses sets ∪ {[ from_addr ]} ∪ {[ to_addr ]} in
  let* from_is_eoa := is_eoa self from_addr in
  let eoa := if from_is_eoa then eoa_addresses sets ∪ {[ from_addr ]}
             else eoa_addresses sets in
  let contracts := if from_is_eoa then contract_addresses_set sets
                   else contract_addresses_set sets ∪ {[ from_addr ]} in
  let* to_is_eoa := is_eoa self to_addr in
  let eoa := if to_is_eoa then eoa ∪ {[ to_addr ]} else eoa in
  let contracts := if to_is_eoa then contracts else contracts ∪ {[ to_addr ]} in
  ret {| all_addresses := all;
         eoa_addresses := eoa;
         contract_addresses_set := contracts |}.

(** Lines 113-141: the three sets after the loop over the events. *)
Definition classify_events (self : t W) (events : list TransferEvent) : Py W Sets :=
  for_each events (classify_event self)
    {| all_addresses := ∅; eoa_addresses := ∅; contract_addresses_set := ∅ |}.

(** [len(s)] *)
Definition len (s : gset address) : Z := Z.of_nat (size s).

(** [UniqueEOAAnalyzer.analyze_transfer_events], lines 69-158. *)
Definition analyze_transfer_events (self : t W) (token_address : string)
    (from_block : Z) (to_block : option Z) (time_window_hours : Z) : Py W Analysis :=
  let* reader := ContractReader.__init__ (client self) token_address in
  let* events := ContractReader.get_transfer_events reader from_block to_block in
  if (length events =? 0)%nat then
    ret {| unique_eoa_count := 0;
           unique_eoa_list := [];
           total_addresses := 0;
           contract_addresses := 0;
           eoa_percentage := None;
           score := 0;
           risk_level := "high_risk";
           message := Some "No transfer events found";
           time_window_hours := None;
           events_count := None |}
  else
    let* sets := classify_events self events in
    let unique_eoa_count := len (eoa_addresses sets) in
    let* '(score, risk_level) := lift (_calculate_score unique_eoa_count time_window_hours) in
    let* eoa_percentage :=
      if (size (all_addresses sets) =? 0)%nat then ret 0%Q
      else
        let* share := lift (truediv unique_eoa_count (len (all_addresses sets))) in
        ret (share * 100)%Q in
    ret {| unique_eoa_count := unique_eoa_count;
           unique_eoa_list := elements (eoa_addresses sets);
           total_addresses := len (all_addresses sets);
           contract_addresses := len (contract_addresses_set sets);
           eoa_percentage := Some eoa_percentage;
           score := score;
           risk_level := risk_level;
           message := None;
           time_window_hours := Some time_window_hours;
           events_count := Some (Z.of_nat (length events)) |}.

(** [eoa_tx_count[addr] += 1] on the [defaultdict(int)] of line 211. *)
Definition bump (eoa_tx_count : gmap address Z) (addr : address) : gmap address Z :=
  <[ addr := default 0 (eoa_tx_count !! addr) + 1 ]> eoa_tx_count.

(** The body of the [for] loop of [get_eoa_activity_stats], lines
    214-220. *)
Definition count_event (self : t W) (eoa_tx_count : gmap address Z)
    (event : TransferEvent) : Py W (gmap address Z) :=
  let from_addr := from event in
  let to_addr := to event in
  let* from_is_eoa := is_eoa self from_addr in
  let eoa_tx_count := if from_is_eoa then bump eoa_tx_count from_addr else eoa_tx_count in
  let* to_is_eoa := is_eoa self to_addr in
  let eoa_tx_count := if to_is_eoa then bump eoa_tx_count to_addr else eoa_tx_count in
  ret eoa_tx_count.

(** [eoa_tx_count.values()] *)
Definition tx_counts (eoa_tx_count : gmap address Z) : list Z :=
  map snd (map_to_list eoa_tx_count).

(** [sum(1 for count in values if test(count))] *)
Definition count_where (test : Z -> bool) (values : list Z) : Z :=
  Z.of_nat (length (List.filter test values)).

(** [UniqueEOAAnalyzer.get_eoa_activity_stats], lines 195-243. *)
Definition get_eoa_activity_stats (self : t W) (token_address : string)
    (from_block : Z) (to_block : option Z) : Py W Stats :=
  let* reader := ContractReader.__init__ (client self) token_address in
  let* events := ContractReader.get_transfer_events reader from_block to_block in
  let* eoa_tx_count := for_each events (count_event self) ∅ in
  if (size eoa_tx_count =? 0)%nat then
    ret {| total_eoa := 0;
           avg_tx_per_eoa := 0;
           high_frequency_eoa := 0;
           single_tx_eoa := 0;
           high_freq_percentage := None;
           single_tx_percentage := None |}
  else
    let total_eoa := Z.of_nat (size eoa_tx_count) in
    let* avg_tx :=
      lift (float_truediv (foldr Z.add 0 (tx_counts eoa_tx_count)) total_eoa) in
    let high_freq := count_where (fun count => count >? 10)%Z (tx_counts eoa_tx_count) in
    let single_tx := count_where (fun count => count =? 1)%Z (tx_counts eoa_tx_count) in
    let* high_share := lift (float_truediv high_freq total_eoa) in
    let* single_share := lift (float_truediv single_tx total_eoa) in
    ret {| total_eoa := total_eoa;
           avg_tx_per_eoa := round avg_tx 2;
           high_frequency_eoa := high_freq;
           single_tx_eoa := single_tx;
           high_freq_percentage := Some (round (high_share * 100%Q)%f64 2);
           single_tx_percentage := Some (round (single_share * 100%Q)%f64 2) |}.

End Methods.
End UniqueEOAAnalyzer.

(** ** The two threshold functions on IEEE binary64

    The same two functions of [holder_analysis.py] on the floats of the
    Python run time, to replay them at the boundary points. *)

Module Binary64.

Import PrimFloat.
Local Open Scope float_scope.

(** [HolderAnalyzer._calculate_score], lines 196-215. *)
Definition _calculate_score (top10_percentage : float) : float :=
  if top10_percentage <=? 20 then 30.0
  else if top10_percentage <=? 40 then
    30.0 - (top10_percentage - 20) * 0.75
  else
    if 80 <=? top10_percentage then 0.0
    else 15.0 - (top10_percentage - 40) * 0.375.

(** [HolderAnalyzer._determine_risk_level], lines 217-231. *)
Definition _determine_risk_level (top10_percentage : float) : string :=
  if top10_percentage <=? 20 then "low_risk"
  else if top10_percentage <=? 40 then "medium_risk"
  else if top10_percentage <=? 60 then "high_risk"
  else "extreme_risk".

(** The table of [UniqueEOAAnalyzer._calculate_score] before its
    [round(score, 2)], lines 179-191, on the float [normalized_count]. *)
Definition activity_score_table (normalized_count : float) : float :=
  if 300 <=? normalized_count then 40
  else if 50 <=? normalized_count then
    20 + (normalized_count - 50) / 250 * 20
  else
    (normalized_count / 50) * 20.

(** The rational that a finite float holds. *)
Definition value (x : float) : option Q :=
  match FloatOps.Prim2SF x with
  | SpecFloat.S754_zero _ => Some 0%Q
  | SpecFloat.S754_finite negative m e =>
      Some (Qred ((if negative then -1 else 1) * inject_Z (Zpos m) * 2 ^ e))%Q
  | _ => None
  end.

End Binary64.

(** ** A small chain to run the analyzers on *)

Module Fixtures.

Local Open Scope py_scope.

(** The world: the block ranges asked to [eth_getLogs] so far (oldest
    first) and the content of the holder cache. *)
Record World : Type := {
  queries : list (Z * Z);
  store : list (string * HolderAnalyzer.Holders)
}.

Definition genesis : World := {| queries := []; store := [] |}.

Definition token : address := "0x00000000000000000000000000000000000000f0".
Definition alice : address := "0x00000000000000000000000000000000000000a1".
Definition bob : address := "0x00000000000000000000000000000000000000b2".
Definition pool : address := "0x00000000000000000000000000000000000000c3".

Definition transfer (block : Z) (sender recipient : address) (amount : Z) : TransferEvent :=
  {| block_number := block; transaction_hash := "0x00";
     from := sender; to := recipient; value := amount |}.

(** The logs of the token, by block: a mint to alice, two transfers, a
    burn, and one log that does not decode. *)
Definition chain : list (Z * RawLog) :=
  [ (10, inr (transfer 10 HolderAnalyzer.ZERO_ADDRESS alice 100));
    (20, inr (transfer 20 alice bob 30));
    (30, inr (transfer 30 bob pool 30));
    (40, inr (transfer 40 alice HolderAnalyzer.ZERO_ADDRESS 5));
    (50, inl "could not decode log") ].

Definition logs_between (a b : Z) : list RawLog :=
  map snd (filter (fun entry => (a <=? fst entry)%Z && (fst entry <=? b)%Z) chain).

(** Balances now: alice 65, bob 0, the pool 30. *)
Definition balance_of (holder : address) : Z :=
  if String.eqb holder alice then 65
  else if String.eqb holder pool then 30
  else 0.

Definition record_query (a b : Z) (w : World) : World :=
  {| queries := queries w ++ [(a, b)]; store := store w |}.

(** A provider that serves at most [limit] blocks per request, and a token
    without metadata: [name()], [symbol()], [decimals()] and
    [totalSupply()] revert. *)
Definition provider (limit : Z) : Web3Client World :=
  {| get_latest_block := ret 1000;
     get_block_number := ret 1000;
     is_contract := fun addr => ret (String.eqb addr pool);
     to_checksum_address := fun addr =>
       if (String.length addr =? 42)%nat then inr addr else inl "invalid address";
     eth_get_logs := fun _ a b w =>
       if (limit <? b - a)%Z
       then (inl "Block range too large", record_query a b w)
       else (inr (logs_between a b), record_query a b w);
     call_name := fun _ => raise "execution reverted";
     call_symbol := fun _ => raise "execution reverted";
     call_decimals := fun _ => raise "execution reverted";
     call_totalSupply := fun _ => raise "execution reverted";
     call_balanceOf := fun _ holder =>
       if String.eqb holder bob then raise "execution reverted"
       else ret (balance_of holder) |}.

Fixpoint lookup_key {V} (key : string) (entries : list (string * V)) : option V :=
  match entries with
  | [] => None
  | (k, v) :: rest => if String.eqb k key then Some v else lookup_key key rest
  end.

Definition holder_cache : SimpleDB World HolderAnalyzer.Holders :=
  {| db_get := fun key w => (inr (lookup_key key (store w)), w);
     db_set := fun key holders w =>
       (inr tt, {| queries := queries w; store := (key, holders) :: store w |}) |}.

Definition holder_analyzer (limit : Z) : HolderAnalyzer.t World :=
  {| HolderAnalyzer.client := provider limit;
     HolderAnalyzer.use_cache := true;
     HolderAnalyzer.db := holder_cache |}.

Definition eoa_analyzer (limit : Z) : UniqueEOAAnalyzer.t World :=
  {| UniqueEOAAnalyzer.client := provider limit;
     UniqueEOAAnalyzer.cache := None |}.

Definition reader (limit : Z) : ContractReader.t World :=
  {| ContractReader.client := provider limit;
     ContractReader.contract_address := token |}.

(** A query that lets the provider's exception through. *)
Definition raw_query (limit : Z) (a b : Z) : Py World (list TransferEvent) :=
  let* logs := eth_get_logs (provider limit) token a b in
  ret (ContractReader.format_events logs).

(** A query that always raises the capacity error. *)
Definition saturated_query (a b : Z) : Py World (list TransferEvent) :=
  fun w => (inl "Block range too large", record_query a b w).

(** The decoded events of blocks 0 to 1000. *)
Definition decoded : list TransferEvent :=
  ContractReader.format_events (logs_between 0 1000).

(** Twelve holders with the balances 1 to 12. *)
Definition twelve : HolderAnalyzer.Holders :=
  [ ("h01", 1); ("h02", 12); ("h03", 3); ("h04", 10); ("h05", 5); ("h06", 8);
    ("h07", 7); ("h08", 6); ("h09", 9); ("h10", 4); ("h11", 11); ("h12", 2) ].

(** A world whose cache holds the twelve holders for the token. *)
Definition cached_twelve : World :=
  {| queries := [];
     store := [("holders_0x00000000000000000000000000000000000000f0", twelve)] |}.

(** The classifier of the chain: everything but the pool is an EOA. *)
Definition not_the_pool (addr : address) : bool := negb (String.eqb addr pool).

End Fixtures.

(** ** The same chain with a described token and a remembering analyzer *)

Module Deployment.

Import Fixtures.
Local Open Scope py_scope.

(** The provider of the chain over a token that answers [name()],
    [decimals()] and [totalSupply()]; [symbol()] still reverts. *)
Definition described (limit : Z) : Web3Client World :=
  let web3 := provider limit in
  {| get_latest_block := get_latest_block web3;
     get_block_number := get_block_number web3;
     is_contract := is_contract web3;
     to_checksum_address := to_checksum_address web3;
     eth_get_logs := eth_get_logs web3;
     call_name := fun _ => ret "Test Token";
     call_symbol := call_symbol web3;
     call_decimals := fun _ => ret 6;
     call_totalSupply := fun _ => ret 95000000;
     call_balanceOf := call_balanceOf web3 |}.

Definition described_reader (limit : Z) : ContractReader.t World :=
  {| ContractReader.client := described limit;
     ContractReader.contract_address := token |}.

(** What [get_balance] of the chain's reader answers for an address: the
    error of [to_checksum_address] for a malformed one, 0 for bob (whose
    read reverts), the balance otherwise. *)
Definition balance_read (holder : address) : exn + Z :=
  if (String.length holder =? 42)%nat then
    if String.eqb holder bob then inr 0 else inr (balance_of holder)
  else inl "invalid address".






(** The world after the scan of blocks 0 to 1000 by the holder
    analyzer: one request made, the two holders cached. *)
Definition scanned : World :=
  {| queries := [(0, 1000)];
     store := [("holders_0x00000000000000000000000000000000000000f0",
                [(pool, 30); (alice, 65)])] |}.


(** The holder analyzer of the chain without its cache. *)
Definition uncached_analyzer (limit : Z) : HolderAnalyzer.t World :=
  {| HolderAnalyzer.client := provider limit;
     HolderAnalyzer.use_cache := false;
     HolderAnalyzer.db := holder_cache |}.

(** What the provider answers to the log request for [a .. b]. *)
Definition log_answer (limit a b : Z) : exn + list RawLog :=
  if (limit <? b - a)%Z then inl "Block range too large" else inr (logs_between a b).


End Deployment.

(** ** Vocabulary of the properties *)

(** Where the cursor stands after one turn of the scan: one block past
    the end of the range queried last, which is the batch
    [current .. batch_end] or, after a capacity error, its first half. *)
Definition advanced (to_block current current' : Z) : Prop :=
  let batch_end := Z.min (current + HolderAnalyzer.BATCH_SIZE) to_block in
  exists attempted_end,
    current <= attempted_end <= to_block /\
    current' = attempted_end + 1 /\
    (attempted_end = batch_end \/
     attempted_end = current + (batch_end - current) / 2).

(** What the holder set promises: no zero address among the keys, only
    positive balances. *)
Definition holders_ok (holders : HolderAnalyzer.Holders) : Prop :=
  forall addr balance,
    (addr, balance) ∈ holders ->
    addr <> HolderAnalyzer.ZERO_ADDRESS /\ 0 < balance.

(** A computation that returns in every state of the world. *)
Definition returns {W A} (m : Py W A) : Prop :=
  forall w, exists a w', m w = (inr a, w').

(** Two calls in a row. *)
Definition twice {W A} (m : Py W A) : Py W (A * A) :=
  (let* first := m in let* second := m in ret (first, second))%py.

(** Balances in descending order. *)
Definition descending (items : list (address * Z)) : Prop :=
  StronglySorted (fun x y => snd y <= snd x) items.

(** The analyzer [self] over a chain whose token answers [declared] to
    [totalSupply()]. *)
Definition declaring {W} (self : HolderAnalyzer.t W) (declared : address -> Py W Z)
  : HolderAnalyzer.t W :=
  let web3 := HolderAnalyzer.client self in
  {| HolderAnalyzer.client :=
       {| get_latest_block := get_latest_block web3;
          get_block_number := get_block_number web3;
          is_contract := is_contract web3;
          to_checksum_address := to_checksum_address web3;
          eth_get_logs := eth_get_logs web3;
          call_name := call_name web3;
          call_symbol := call_symbol web3;
          call_decimals := call_decimals web3;
          call_totalSupply := declared;
          call_balanceOf := call_balanceOf web3 |};
     HolderAnalyzer.use_cache := HolderAnalyzer.use_cache self;
     HolderAnalyzer.db := HolderAnalyzer.db self |}.

(** Every address that sends or receives in one of the events. *)
Definition participants (events : list TransferEvent) : gset address :=
  foldr (fun event seen => {[ from event ]} ∪ {[ to event ]} ∪ seen) ∅ events.

(** [is_eoa] answers [f address], whatever the state of the world. *)
Definition classifies_by {W} (self : UniqueEOAAnalyzer.t W) (f : address -> bool) : Prop :=
  forall addr w, exists w', UniqueEOAAnalyzer.is_eoa self addr w = (inr (f addr), w').

(** The EOA set and the contract set split the set of all addresses
    along [f]. *)
Definition split_by (f : address -> bool) (sets : UniqueEOAAnalyzer.Sets) : Prop :=
  (forall a, a ∈ UniqueEOAAnalyzer.eoa_addresses sets
             <-> a ∈ UniqueEOAAnalyzer.all_addresses sets /\ f a = true) /\
  (forall a, a ∈ UniqueEOAAnalyzer.contract_addresses_set sets
             <-> a ∈ UniqueEOAAnalyzer.all_addresses sets /\ f a = false).

(** A raw log that decodes. *)
Definition decodes (log : RawLog) : bool :=
  match log with
  | inr _ => true
  | inl _ => false
  end.

(** A call that gives the answer [r] in every state of the world, and
    leaves the world as it is. *)
Definition answers {W A} (call : Py W A) (r : exn + A) : Prop :=
  forall w, call w = (r, w).

(** The value of an answer, or [default] for a raised exception. *)
Definition or_default {A} (r : exn + A) (default : A) : A :=
  match r with
  | inr a => a
  | inl _ => default
  end.

(** An address filter that [get_transfer_events] gets past: absent, empty,
    or a text that [to_checksum_address] accepts. *)
Definition well_formed_filter {W} (web3 : Web3Client W) (filter : option string) : Prop :=
  match ContractReader.given filter with
  | Some a => exists checksum, to_checksum_address web3 a = inr checksum
  | None => True
  end.

(** The block ranges that a scan of [current .. to_block] asks when no
    request is retried: [current .. current + BATCH_SIZE], then the next
    block on, up to [to_block]. *)
Fixpoint batches (fuel : nat) (current to_block : Z) : list (Z * Z) :=
  match fuel with
  | O => []
  | S fuel' =>
      if (current <=? to_block)%Z then
        let batch_end := Z.min (current + HolderAnalyzer.BATCH_SIZE) to_block in
        (current, batch_end) :: batches fuel' (batch_end + 1) to_block
      else []
  end.

(** Ranges that tile [current .. to_block]: each starts one block after
    the one before ends, spans 1001 blocks (the last one: what is left)
    and the last one ends at [to_block]. *)
Fixpoint tiles (current to_block : Z) (ranges : list (Z * Z)) : Prop :=
  match ranges with
  | [] => current = to_block + 1
  | (a, b) :: rest =>
      a = current /\ a <= b <= to_block /\
      (b < to_block -> b - a + 1 = 1001) /\ b - a + 1 <= 1001 /\
      tiles (b + 1) to_block rest
  end.

(** One request for a batch, as the scan makes it over the reader. *)
Definition ask_batch {W} (reader : ContractReader.t W) (addrs : gset address)
    (range : Z * Z) : Py W (gset address) :=
  (let* events :=
     ContractReader.get_transfer_events reader (fst range) (Some (snd range)) in
   ret (HolderAnalyzer.add_events addrs events))%py.


(** What the balance pass keeps of an address, given the answer of its
    balance read: the pair with the balance when it is positive. *)
Definition kept (balance_of : address -> exn + Z) (addr : address) : option (address * Z) :=
  match balance_of addr with
  | inr balance => if (balance >? 0)%Z then Some (addr, balance) else None
  | inl _ => None
  end.

(** One line of [top10_holders], line 178: address, balance and share of
    the observed supply [total]. *)
Definition listed (total : Z) (entry : address * Z) : address * Z * Q :=
  (fst entry, snd entry, (inject_Z (snd entry) / inject_Z total * 100)%Q).

(** Sum of rationals. *)
Definition qsum (xs : list Q) : Q := foldr Qplus 0%Q xs.

(** The number of EOA ends of the events under the classifier [f]: one
    for each sender and each recipient that [f] takes for an EOA. *)
Definition eoa_ends (f : address -> bool) (events : list TransferEvent) : Z :=
  foldr (fun event n =>
           (if f (from event) then 1 else 0) + (if f (to event) then 1 else 0) + n)
        0 events.

(** The participants that [f] takes for an EOA. *)
Definition eoa_participants (f : address -> bool) (events : list TransferEvent)
  : gset address :=
  filter (fun a => f a = true) (participants events).

(** The addresses that send or receive in a decodable log of one of
    the [ranges], when the request for [a .. b] is answered [logs a b]. *)
Definition seen_in (logs : Z -> Z -> exn + list RawLog) (ranges : list (Z * Z))
  : gset address :=
  foldr (fun range seen =>
           participants (match logs (fst range) (snd range) with
                         | inr found => ContractReader.format_events found
                         | inl _ => []
                         end) ∪ seen)
        ∅ ranges.

(** The activity score as the specification tabulates it, on the exact
    normalized count: no float arithmetic, no rounding to decimals. *)
Definition tabulated_activity_score (n : Q) : Q :=
  if Qle_bool 300 n then 40
  else if Qle_bool 50 n then 20 + (n - 50) / 250 * 20
  else n / 50 * 20.

(** * Properties *)

(** ** The string test of the scan *)

Example lower_example : lower "Block Range TOO large: 1000 > 500" = "block range too large: 1000 > 500".
Proof. reflexivity. Qed.

Example contains_examples :
  contains "block range too large" "eth_getlogs: block range too large (max 100)" = true /\
  contains "block range too large" "execution reverted" = false /\
  contains "block range too large" "block range too larg" = false.
Proof. repeat split; reflexivity. Qed.

(** ** Auxiliary facts on rational comparisons and rounding *)

Section NumberFacts.
Local Open Scope Q_scope.

Lemma Qle_bool_false (a b : Q) : Qle_bool a b = false <-> b < a.
Proof.
  split.
  - intros H. apply Qnot_le_lt. intros Hle.
    apply Qle_bool_iff in Hle. congruence.
  - intros H. destruct (Qle_bool a b) eqn:E; [|reflexivity].
    apply Qle_bool_iff in E. apply Qlt_not_le in H. contradiction.
Qed.

Lemma Qle_bool_cases (a b : Q) :
  (Qle_bool a b = true /\ a <= b) \/ (Qle_bool a b = false /\ b < a).
Proof.
  destruct (Qle_bool a b) eqn:E.
  - left. split; [reflexivity|]. now apply Qle_bool_iff.
  - right. split; [reflexivity|]. now apply Qle_bool_false.
Qed.

End NumberFacts.

(** Decides every [Qle_bool] test that occurs in the goal, leaving the
  corresponding order fact in the context. *)
Ltac decide_tests :=
repeat match goal with
  | |- context [Qle_bool ?a ?b] =>
      let E := fresh "E" in let H := fresh "H" in
      destruct (Qle_bool_cases a b) as [[E H]|[E H]]; rewrite E
  end.

Section HolderScore.
Import HolderAnalyzer.
Local Open Scope Q_scope.

Lemma holder_score_table (p : Q) :
  (p <= 20 -> _calculate_score p == 30) /\
  (20 < p <= 40 -> _calculate_score p == 30 - (p - 20) * 0.75) /\
  (40 < p < 80 -> _calculate_score p == 15 - (p - 40) * 0.375) /\
  (80 <= p -> _calculate_score p == 0).
Proof.
  unfold _calculate_score.
  repeat split; intros; decide_tests; lra.
Qed.

Lemma holder_score_range (p : Q) : 0 <= _calculate_score p <= 30.
Proof. unfold _calculate_score. decide_tests; lra. Qed.

Lemma holder_score_antitone (p q : Q) :
  p <= q -> _calculate_score q <= _calculate_score p.
Proof. intros Hpq. unfold _calculate_score. decide_tests; lra. Qed.

(** The score moves by at most 3/4 of the distance between two inputs. *)
Lemma holder_score_lipschitz (p q : Q) :
  Qabs (_calculate_score q - _calculate_score p) <= 0.75 * Qabs (q - p).
Proof.
  unfold _calculate_score.
  decide_tests; apply Qabs_case; intros; apply Qabs_case; intros; lra.
Qed.

End HolderScore.

Section HolderScoreClaims.
Import HolderAnalyzer.
Local Open Scope Q_scope.

(** C1. For every [top10_percentage] value [p] the concentration score is
    the piecewise-linear table: 30 for [p <= 20]; [30 - (p - 20) * 0.75]
    for [20 < p <= 40]; [15 - (p - 40) * 0.375] for [40 < p < 80]; 0 for
    [p >= 80].  It is exactly 30 at 20, exactly 15 at 40 and exactly 0
    from 80 on; it lies in [[0, 30]], it is non-increasing, and it is
    continuous at every point. *)
Theorem holder_score_is_the_piecewise_table (p : Q) :
  ((p <= 20 -> _calculate_score p == 30) /\
   (20 < p <= 40 -> _calculate_score p == 30 - (p - 20) * 0.75) /\
   (40 < p < 80 -> _calculate_score p == 15 - (p - 40) * 0.375) /\
   (80 <= p -> _calculate_score p == 0)) /\
  (_calculate_score 20 == 30 /\ _calculate_score 40 == 15) /\
  0 <= _calculate_score p <= 30 /\
  (forall q, p <= q -> _calculate_score q <= _calculate_score p) /\
  (forall eps, 0 < eps ->
     exists delta, 0 < delta /\
       forall q, Qabs (q - p) < delta ->
                 Qabs (_calculate_score q - _calculate_score p) < eps).
Proof.
  split; [apply holder_score_table|].
  split; [split; reflexivity|].
  split; [apply holder_score_range|].
  split; [intros q; apply holder_score_antitone|].
  intros eps Heps. exists eps. split; [assumption|].
  intros q Hq.
  eapply Qle_lt_trans; [apply holder_score_lipschitz|].
  assert (0 <= Qabs (q - p)) by apply Qabs_nonneg. lra.
Qed.

(** C5. The risk tier is low for [p <= 20], medium for [20 < p <= 40],
    high for [40 < p <= 60] and extreme for [p > 60]; each boundary
    belongs to the tier on its left: 20 is low, 20.0001 medium, 60 high
    and 60.0001 extreme. *)
Theorem risk_tier_thresholds (p : Q) :
  ((p <= 20 -> _determine_risk_level p = "low_risk") /\
   (20 < p <= 40 -> _determine_risk_level p = "medium_risk") /\
   (40 < p <= 60 -> _determine_risk_level p = "high_risk") /\
   (60 < p -> _determine_risk_level p = "extreme_risk")) /\
  _determine_risk_level 20 = "low_risk" /\
  _determine_risk_level 20.0001 = "medium_risk" /\
  _determine_risk_level 60 = "high_risk" /\
  _determine_risk_level 60.0001 = "extreme_risk".
Proof.
  split; [|repeat split; reflexivity].
  unfold _determine_risk_level.
  repeat split; intros; decide_tests; first [reflexivity | lra].
Qed.

End HolderScoreClaims.

(** ** Rounding: to the nearest integer, to binary64, to two decimals *)

Section Rounding.
Local Open Scope Q_scope.

Lemma inject_Z_succ (z : Z) : inject_Z (z + 1) == inject_Z z + 1.
Proof. rewrite inject_Z_plus. reflexivity. Qed.

Lemma pow2_pos (k : Z) : 0 < 2 ^ k.
Proof. apply Qpower_0_lt. reflexivity. Qed.

Lemma pow2_succ (k : Z) : 2 ^ (k + 1) == 2 * 2 ^ k.
Proof. rewrite Qpower_plus by discriminate. rewrite Qpower_1_r. ring. Qed.

Lemma pow2_Z (k : Z) : (0 <= k)%Z -> 2 ^ k == inject_Z (2 ^ k).
Proof. intros Hk. now rewrite Zpower_Qpower. Qed.

Lemma ilog2_spec (x : Q) : 0 < x -> 2 ^ ilog2 x <= x /\ x < 2 ^ (ilog2 x + 1).
Proof.
  intros Hx. unfold ilog2.
  destruct x as [n d]. cbn [Qnum Qden].
  assert (Hn : (0 < n)%Z) by (unfold Qlt in Hx; cbn in Hx; lia).
  set (a := Z.log2 n). set (b := Z.log2 (Zpos d)).
  destruct (Z.log2_spec n Hn) as [Ha1 Ha2]. fold a in Ha1, Ha2.
  destruct (Z.log2_spec (Zpos d) ltac:(lia)) as [Hb1 Hb2]. fold b in Hb1, Hb2.
  assert (Ha0 : (0 <= a)%Z) by apply Z.log2_nonneg.
  assert (Hb0 : (0 <= b)%Z) by apply Z.log2_nonneg.
  rewrite Zle_Qle, <- pow2_Z in Ha1 by lia.
  rewrite Zlt_Qlt, <- Z.add_1_r, <- pow2_Z, pow2_succ in Ha2 by lia.
  rewrite Zle_Qle, <- pow2_Z in Hb1 by lia.
  rewrite Zlt_Qlt, <- Z.add_1_r, <- pow2_Z, pow2_succ in Hb2 by lia.
  pose proof (pow2_pos a) as HA. pose proof (pow2_pos b) as HB.
  assert (Hab : 2 ^ (a - b) * 2 ^ b == 2 ^ a).
  { rewrite <- Qpower_plus by discriminate. now replace (a - b + b)%Z with a by lia. }
  assert (Hx' : (n # d) * inject_Z (Zpos d) == inject_Z n).
  { unfold Qeq, Qmult, inject_Z. cbn. lia. }
  pose proof (pow2_pos (a - b)) as HAB.
  set (A := 2 ^ a) in *. set (B := 2 ^ b) in *. set (C := 2 ^ (a - b)) in *.
  set (N := inject_Z n) in *. set (D := inject_Z (Zpos d)) in *. set (X := n # d) in *.
  destruct (Qle_bool C X) eqn:E.
  - apply Qle_bool_iff in E. split; [exact E|].
    rewrite pow2_succ. fold C. nra.
  - assert (E' : X < C).
    { apply Qnot_le_lt. intros H. apply Qle_bool_iff in H. congruence. }
    split.
    + assert (H2 : 2 ^ (a - b - 1) * 2 == C).
      { unfold C. replace (a - b)%Z with ((a - b - 1) + 1)%Z at 2 by lia.
        rewrite pow2_succ. ring. }
      pose proof (pow2_pos (a - b - 1)) as HC1.
      set (C1 := 2 ^ (a - b - 1)) in *. nra.
    + replace (a - b - 1 + 1)%Z with (a - b)%Z by lia. exact E'.
Qed.

Lemma pow2_le (a b : Z) : (a <= b)%Z -> 2 ^ a <= 2 ^ b.
Proof. intros H. apply Qpower_le_compat_l; [exact H | discriminate]. Qed.

Lemma pow2_lt_inv (a b : Z) : 2 ^ a < 2 ^ b -> (a < b)%Z.
Proof. intros H. apply (Qpower_lt_compat_l_inv 2); [exact H | reflexivity]. Qed.

Lemma ilog2_unique (x : Q) (k : Z) : 2 ^ k <= x -> x < 2 ^ (k + 1) -> ilog2 x = k.
Proof.
  intros Hlo Hhi.
  assert (Hx : 0 < x) by (pose proof (pow2_pos k); lra).
  destruct (ilog2_spec x Hx) as [Elo Ehi].
  assert (H1 : (k < ilog2 x + 1)%Z) by (apply pow2_lt_inv; lra).
  assert (H2 : (ilog2 x < k + 1)%Z) by (apply pow2_lt_inv; lra).
  lia.
Qed.

Lemma ilog2_comp (x y : Q) : 0 < x -> x == y -> ilog2 x = ilog2 y.
Proof.
  intros Hx Hxy. destruct (ilog2_spec x Hx) as [Elo Ehi].
  symmetry. apply ilog2_unique; lra.
Qed.

Lemma ilog2_mono (x y : Q) : 0 < x -> x <= y -> (ilog2 x <= ilog2 y)%Z.
Proof.
  intros Hx Hxy.
  destruct (ilog2_spec x Hx) as [Elo _].
  destruct (ilog2_spec y ltac:(lra)) as [_ Fhi].
  assert (H : (ilog2 x < ilog2 y + 1)%Z) by (apply pow2_lt_inv; lra).
  lia.
Qed.

Lemma floor_bounds (x : Q) :
  inject_Z (Qfloor x) <= x /\ x < inject_Z (Qfloor x) + 1.
Proof.
  split; [apply Qfloor_le|].
  assert (E : inject_Z (Qfloor x) + 1 == inject_Z (Qfloor x + 1))
    by (rewrite inject_Z_plus; reflexivity).
  rewrite E. apply Qlt_floor.
Qed.

Lemma round_half_even_near (x : Q) :
  inject_Z (round_half_even x) - (1 # 2) <= x <= inject_Z (round_half_even x) + (1 # 2).
Proof.
  unfold round_half_even.
  destruct (floor_bounds x) as [Hlo Hhi].
  destruct (Qcompare_spec (x - inject_Z (Qfloor x)) (1 # 2)) as [He|Hl|Hg].
  - destruct (Z.even (Qfloor x)); rewrite ?inject_Z_plus; change (inject_Z 1) with 1; lra.
  - lra.
  - rewrite inject_Z_plus; change (inject_Z 1) with 1; lra.
Qed.

Lemma round_half_even_mono (x y : Q) :
  x <= y -> (round_half_even x <= round_half_even y)%Z.
Proof.
  intros Hxy.
  pose proof (Qfloor_resp_le _ _ Hxy) as Hf.
  destruct (floor_bounds x) as [Hxl Hxh], (floor_bounds y) as [Hyl Hyh].
  assert (Hlo : forall z, (Qfloor z <= round_half_even z <= Qfloor z + 1)%Z).
  { intros z. unfold round_half_even.
    destruct (Qcompare _ _); [destruct (Z.even _)|..]; lia. }
  destruct (Z.eq_dec (Qfloor x) (Qfloor y)) as [Heq|Hne].
  - unfold round_half_even. rewrite <- Heq in *.
    destruct (Qcompare_spec (x - inject_Z (Qfloor x)) (1 # 2)) as [Hx|Hx|Hx];
      destruct (Qcompare_spec (y - inject_Z (Qfloor x)) (1 # 2)) as [Hy|Hy|Hy];
      try destruct (Z.even (Qfloor x)); try lia; exfalso; lra.
  - pose proof (Hlo x). pose proof (Hlo y). lia.
Qed.

Lemma round_half_even_Z (x : Q) (z : Z) : x == inject_Z z -> round_half_even x = z.
Proof.
  intros Hx. unfold round_half_even.
  assert (Hf : Qfloor x = z) by (rewrite Hx; apply Qfloor_Z).
  rewrite Hf.
  destruct (Qcompare_spec (x - inject_Z z) (1 # 2)) as [H|H|H];
    [exfalso; lra | reflexivity | exfalso; lra].
Qed.

Lemma round_half_even_comp (x y : Q) : x == y -> round_half_even x = round_half_even y.
Proof.
  intros Hxy. unfold round_half_even.
  rewrite (Qfloor_comp _ _ Hxy).
  assert (E : (x - inject_Z (Qfloor y) ?= 1 # 2) = (y - inject_Z (Qfloor y) ?= 1 # 2))
    by (now rewrite Hxy).
  now rewrite E.
Qed.

(** The significand of a positive [x]: between 2^52 and 2^53. *)
Lemma significand_bounds (x : Q) :
  0 < x ->
  let ulp := 2 ^ (ilog2 x - 52) in
  inject_Z (2 ^ 52) <= x / ulp /\ x / ulp < inject_Z (2 ^ 53) /\
  inject_Z (2 ^ 52) * ulp == 2 ^ ilog2 x /\
  inject_Z (2 ^ 53) * ulp == 2 ^ (ilog2 x + 1).
Proof.
  intros Hx ulp.
  destruct (ilog2_spec x Hx) as [Elo Ehi].
  pose proof (pow2_pos (ilog2 x - 52)) as Hu. fold ulp in Hu.
  assert (E52 : inject_Z (2 ^ 52) * ulp == 2 ^ ilog2 x).
  { rewrite <- pow2_Z by lia. unfold ulp. rewrite <- Qpower_plus by discriminate.
    now replace (52 + (ilog2 x - 52))%Z with (ilog2 x) by lia. }
  assert (E53 : inject_Z (2 ^ 53) * ulp == 2 ^ (ilog2 x + 1)).
  { rewrite <- pow2_Z by lia. unfold ulp. rewrite <- Qpower_plus by discriminate.
    now replace (53 + (ilog2 x - 52))%Z with (ilog2 x + 1)%Z by lia. }
  split; [|split; [|split; assumption]].
  - apply Qle_shift_div_l; [exact Hu|]. rewrite E52. exact Elo.
  - apply Qlt_shift_div_r; [exact Hu|]. rewrite E53. exact Ehi.
Qed.

Lemma nearest_pos_bracket (x : Q) :
  0 < x -> 2 ^ ilog2 x <= nearest_pos x <= 2 ^ (ilog2 x + 1).
Proof.
  intros Hx. destruct (significand_bounds x Hx) as (Hlo & Hhi & E52 & E53).
  unfold nearest_pos. rewrite Qred_correct.
  pose proof (pow2_pos (ilog2 x - 52)) as Hu.
  set (ulp := 2 ^ (ilog2 x - 52)) in *.
  pose proof (round_half_even_mono _ _ Hlo) as H1.
  pose proof (round_half_even_mono _ _ (Qlt_le_weak _ _ Hhi)) as H2.
  rewrite (round_half_even_Z (inject_Z (2 ^ 52)) (2 ^ 52)) in H1 by reflexivity.
  rewrite (round_half_even_Z (inject_Z (2 ^ 53)) (2 ^ 53)) in H2 by reflexivity.
  rewrite Zle_Qle in H1, H2.
  rewrite <- E52, <- E53.
  split; apply Qmult_le_compat_r; try assumption; lra.
Qed.

Lemma nearest_pos_positive (x : Q) : 0 < x -> 0 < nearest_pos x.
Proof.
  intros Hx. destruct (nearest_pos_bracket x Hx) as [H _].
  pose proof (pow2_pos (ilog2 x)). lra.
Qed.

Lemma nearest_pos_mono (x y : Q) : 0 < x -> x <= y -> nearest_pos x <= nearest_pos y.
Proof.
  intros Hx Hxy.
  assert (Hy : 0 < y) by lra.
  pose proof (ilog2_mono x y Hx Hxy) as HE.
  destruct (Z.eq_dec (ilog2 x) (ilog2 y)) as [Heq|Hne].
  - unfold nearest_pos. rewrite !Qred_correct, Heq.
    pose proof (pow2_pos (ilog2 y - 52)) as Hu.
    set (ulp := 2 ^ (ilog2 y - 52)) in *.
    apply Qmult_le_compat_r; [|lra].
    rewrite <- Zle_Qle. apply round_half_even_mono.
    apply Qmult_le_compat_r; [exact Hxy|].
    apply Qinv_le_0_compat. lra.
  - destruct (nearest_pos_bracket x Hx) as [_ Hhi].
    destruct (nearest_pos_bracket y Hy) as [Hlo _].
    pose proof (pow2_le (ilog2 x + 1) (ilog2 y) ltac:(lia)). lra.
Qed.

Lemma nearest_pos_comp (x y : Q) : 0 < x -> x == y -> nearest_pos x = nearest_pos y.
Proof.
  intros Hx Hxy. unfold nearest_pos.
  rewrite (ilog2_comp x y Hx Hxy).
  apply Qred_complete.
  rewrite (round_half_even_comp (x / 2 ^ (ilog2 y - 52)) (y / 2 ^ (ilog2 y - 52)));
    [reflexivity | now rewrite Hxy].
Qed.

Lemma nearest_pos_error (x : Q) :
  0 < x -> Qabs (nearest_pos x - x) <= 2 ^ (ilog2 x - 53).
Proof.
  intros Hx. unfold nearest_pos. rewrite Qred_correct.
  pose proof (pow2_pos (ilog2 x - 52)) as Hu.
  assert (Hhalf : 2 ^ (ilog2 x - 53) * 2 == 2 ^ (ilog2 x - 52)).
  { replace (ilog2 x - 52)%Z with ((ilog2 x - 53) + 1)%Z by lia.
    rewrite pow2_succ. ring. }
  pose proof (pow2_pos (ilog2 x - 53)) as Hv.
  set (ulp := 2 ^ (ilog2 x - 52)) in *.
  set (half := 2 ^ (ilog2 x - 53)) in *.
  pose proof (round_half_even_near (x / ulp)) as [Hlo Hhi].
  assert (Hm : x / ulp * ulp == x) by (field; lra).
  set (m := x / ulp) in *. set (r := inject_Z (round_half_even m)) in *.
  apply Qabs_case; intros _; nra.
Qed.

Lemma nearest_mono (x y : Q) : x <= y -> nearest x <= nearest y.
Proof.
  intros Hxy. unfold nearest.
  destruct (Qcompare_spec x 0) as [Hx|Hx|Hx], (Qcompare_spec y 0) as [Hy|Hy|Hy];
    try lra.
  - pose proof (nearest_pos_positive y Hy). lra.
  - pose proof (nearest_pos_positive (- x) ltac:(lra)). lra.
  - pose proof (nearest_pos_mono (- y) (- x) ltac:(lra) ltac:(lra)). lra.
  - pose proof (nearest_pos_positive (- x) ltac:(lra)).
    pose proof (nearest_pos_positive y Hy). lra.
  - apply nearest_pos_mono; lra.
Qed.

Lemma nearest_comp (x y : Q) : x == y -> nearest x = nearest y.
Proof.
  intros Hxy. unfold nearest.
  rewrite (Qcompare_comp x y Hxy 0 0 ltac:(reflexivity)).
  destruct (Qcompare_spec y 0) as [Hy|Hy|Hy]; [reflexivity| |].
  - f_equal. apply nearest_pos_comp; lra.
  - apply nearest_pos_comp; lra.
Qed.

(** The distance to the nearest binary64 value, for [|x| <= 2 ^ k]. *)
Lemma nearest_error (x : Q) (k : Z) :
  Qabs x <= 2 ^ k -> Qabs (nearest x - x) <= 2 ^ (k - 53).
Proof.
  intros Hk. pose proof (pow2_pos (k - 53)) as Hpos.
  assert (Hpos_case : forall z, 0 < z -> z <= 2 ^ k ->
                                Qabs (nearest_pos z - z) <= 2 ^ (k - 53)).
  { intros z Hz Hzk. apply Qle_trans with (2 ^ (ilog2 z - 53)).
    - now apply nearest_pos_error.
    - apply pow2_le. destruct (ilog2_spec z Hz) as [Elo _].
      assert (H : (ilog2 z < k + 1)%Z).
      { apply pow2_lt_inv. pose proof (pow2_le k (k + 1) ltac:(lia)).
        rewrite pow2_succ. pose proof (pow2_pos k). lra. }
      lia. }
  unfold nearest.
  destruct (Qcompare_spec x 0) as [Hx|Hx|Hx].
  - rewrite Hx. apply Qabs_case; intros; lra.
  - rewrite Qabs_neg in Hk by lra.
    specialize (Hpos_case (- x) ltac:(lra) Hk).
    revert Hpos_case. apply Qabs_case; intros; apply Qabs_case; intros; lra.
  - rewrite Qabs_pos in Hk by lra. apply Hpos_case; lra.
Qed.

Lemma nearest_upper (x c : Q) : nearest c = c -> x <= c -> nearest x <= c.
Proof. intros Hc Hx. rewrite <- Hc. now apply nearest_mono. Qed.

Lemma nearest_lower (x c : Q) : nearest c = c -> c <= x -> c <= nearest x.
Proof. intros Hc Hx. rewrite <- Hc. now apply nearest_mono. Qed.

(** For [0 <= x <= 2 ^ k], the float is within [2 ^ (k - 53)] of [x]. *)
Lemma nearest_close (x : Q) (k : Z) :
  0 <= x <= 2 ^ k -> x - 2 ^ (k - 53) <= nearest x <= x + 2 ^ (k - 53).
Proof.
  intros [Hlo Hhi].
  pose proof (nearest_error x k) as H. rewrite Qabs_pos in H by exact Hlo.
  specialize (H Hhi). revert H. apply Qabs_case; intros; lra.
Qed.

Lemma round2_unfold (x : Q) :
  round x 2 = nearest (inject_Z (round_half_even (x * inject_Z 100)) / inject_Z 100).
Proof. reflexivity. Qed.

Lemma round2_mono (x y : Q) : x <= y -> round x 2 <= round y 2.
Proof.
  intros Hxy. rewrite !round2_unfold. apply nearest_mono.
  assert (H : (round_half_even (x * inject_Z 100) <= round_half_even (y * inject_Z 100))%Z).
  { apply round_half_even_mono. change (inject_Z 100) with 100. lra. }
  rewrite Zle_Qle in H.
  change (inject_Z 100) with 100 in *.
  apply Qmult_le_compat_r; [assumption | discriminate].
Qed.

Lemma round2_comp (x y : Q) : x == y -> round x 2 = round y 2.
Proof.
  intros Hxy. rewrite !round2_unfold.
  rewrite (round_half_even_comp (x * inject_Z 100) (y * inject_Z 100));
    [reflexivity | now rewrite Hxy].
Qed.

(** A float whose hundredfold is within one half of the integer [z]
    rounds to the float of [z] hundredths. *)
Lemma round2_to (x : Q) (z : Z) :
  inject_Z z - (1 # 2) < x * 100 < inject_Z z + (1 # 2) ->
  round x 2 = nearest (inject_Z z / inject_Z 100).
Proof.
  intros [Hlo Hhi]. rewrite round2_unfold. change (inject_Z 100) with 100.
  assert (Hz : round_half_even (x * 100) = z).
  { pose proof (round_half_even_near (x * 100)) as [Hn1 Hn2].
    set (r := round_half_even (x * 100)) in *.
    assert (H1 : inject_Z r < inject_Z z + 1) by lra.
    assert (H2 : inject_Z z < inject_Z r + 1) by lra.
    rewrite <- inject_Z_succ, <- Zlt_Qlt in H1, H2. lia. }
  now rewrite Hz.
Qed.

(** The result of [round(x, 2)] is within 0.005, and the distance to the
    float of the decimal, of the float [x]. *)
Lemma round2_near (x : Q) :
  0 <= x <= 40 -> Qabs (round x 2 - x) <= 0.005 + (1 # 2 ^ 47).
Proof.
  intros [Hlo Hhi]. rewrite round2_unfold.
  pose proof (round_half_even_near (x * inject_Z 100)) as [Hn1 Hn2].
  pose proof (round_half_even_mono (0 * inject_Z 100) (x * inject_Z 100)) as Hr0.
  pose proof (round_half_even_mono (x * inject_Z 100) (40 * inject_Z 100)) as Hr40.
  change (inject_Z 100) with 100 in *.
  rewrite (round_half_even_Z (0 * 100) 0) in Hr0 by reflexivity.
  rewrite (round_half_even_Z (40 * 100) 4000) in Hr40 by reflexivity.
  specialize (Hr0 ltac:(lra)). specialize (Hr40 ltac:(lra)).
  rewrite Zle_Qle in Hr0, Hr40.
  set (r := inject_Z (round_half_even (x * 100))) in *.
  change (inject_Z 0) with 0 in Hr0. change (inject_Z 4000) with 4000 in Hr40.
  assert (E : r / 100 == r * (1 # 100)) by field.
  pose proof (nearest_close (r / 100) 6) as Hc.
  change (2 ^ 6) with 64 in Hc. change (2 ^ (6 - 53)) with (1 # 2 ^ 47) in Hc.
  specialize (Hc ltac:(lra)).
  apply Qabs_case; intros; lra.
Qed.

End Rounding.

(** ** The activity score *)

Section ActivityScore.
Import UniqueEOAAnalyzer.
Local Open Scope Q_scope.

(** The normalized count [e / h] as a rational, and as the float that
    [_calculate_score] holds. *)
Local Abbreviation normalized e h := (inject_Z e / inject_Z h).
Local Abbreviation computed e h := (nearest (inject_Z e / inject_Z h)).

(** The two float branches of the table. *)
Local Abbreviation high n := ((n / 50) * 20)%f64.
Local Abbreviation medium n := (20 + (n - 50) / 250 * 20)%f64.

Lemma Qdiv_const (x : Q) (d : positive) : x / (Zpos d # 1) == x * (1 # d).
Proof. unfold Qdiv. reflexivity. Qed.

(** A value that is a float of its own. *)
Ltac exact_float := vm_compute; reflexivity.

(** Writes out the powers of two in the error bounds. *)
Ltac literals :=
  repeat match goal with
  | H : context [Pos.pow ?a ?b] |- _ =>
      let v := eval vm_compute in (Pos.pow a b) in change (Pos.pow a b) with v in H
  | |- context [Pos.pow ?a ?b] =>
      let v := eval vm_compute in (Pos.pow a b) in change (Pos.pow a b) with v
  end.

Lemma high_mono (n m : Q) : n <= m -> high n <= high m.
Proof.
  intros Hnm. unfold float_mul, float_div. apply nearest_mono.
  apply Qmult_le_compat_r; [|discriminate]. apply nearest_mono.
  rewrite !(Qdiv_const _ 50). lra.
Qed.

Lemma high_upper (n : Q) : n <= 50 -> high n <= 20.
Proof.
  intros Hn. unfold float_mul, float_div.
  assert (H1 : nearest (n / 50) <= 1).
  { apply nearest_upper; [exact_float|]. rewrite (Qdiv_const _ 50). lra. }
  apply nearest_upper; [exact_float | lra].
Qed.

Lemma high_lower (n : Q) : 0 <= n -> 0 <= high n.
Proof.
  intros Hn. unfold float_mul, float_div.
  assert (H1 : 0 <= nearest (n / 50)).
  { apply nearest_lower; [exact_float|]. rewrite (Qdiv_const _ 50). lra. }
  apply nearest_lower; [exact_float | lra].
Qed.

Lemma high_nonpos (n : Q) : n <= 0 -> high n <= 0.
Proof.
  intros Hn. unfold float_mul, float_div.
  assert (H1 : nearest (n / 50) <= 0).
  { apply nearest_upper; [exact_float|]. rewrite (Qdiv_const _ 50). lra. }
  apply nearest_upper; [exact_float | lra].
Qed.

Lemma medium_mono (n m : Q) : n <= m -> medium n <= medium m.
Proof.
  intros Hnm. unfold float_add, float_mul, float_div, float_sub.
  apply nearest_mono. apply Qplus_le_r. apply nearest_mono.
  apply Qmult_le_compat_r; [|discriminate]. apply nearest_mono.
  rewrite !(Qdiv_const _ 250).
  apply Qmult_le_compat_r; [|discriminate]. apply nearest_mono. lra.
Qed.

Lemma medium_steps (n : Q) :
  50 <= n <= 300 ->
  0 <= nearest (n - 50) <= 250 /\
  0 <= nearest (nearest (n - 50) / 250) <= 1 /\
  0 <= nearest (nearest (nearest (n - 50) / 250) * 20) <= 20.
Proof.
  intros [Hlo Hhi].
  assert (H1 : 0 <= nearest (n - 50) <= 250).
  { split; [apply nearest_lower | apply nearest_upper];
      [exact_float | lra | exact_float | lra]. }
  assert (H2 : 0 <= nearest (nearest (n - 50) / 250) <= 1).
  { split; [apply nearest_lower | apply nearest_upper];
      [exact_float | rewrite (Qdiv_const _ 250); lra
      | exact_float | rewrite (Qdiv_const _ 250); lra]. }
  split; [exact H1|]. split; [exact H2|].
  split; [apply nearest_lower | apply nearest_upper];
      [exact_float | lra | exact_float | lra].
Qed.

Lemma medium_range (n : Q) : 50 <= n <= 300 -> 20 <= medium n <= 40.
Proof.
  intros Hn. destruct (medium_steps n Hn) as (_ & _ & H3).
  unfold float_add, float_mul, float_div, float_sub.
  split; [apply nearest_lower | apply nearest_upper];
      [exact_float | lra | exact_float | lra].
Qed.

Ltac table_cases := unfold score_table; decide_tests; cbn [fst snd].

Lemma score_table_range (n : Q) : 0 <= n -> 0 <= fst (score_table n) <= 40.
Proof.
  intros Hn. table_cases.
  - lra.
  - destruct (medium_range n ltac:(lra)). lra.
  - pose proof (high_lower n Hn). pose proof (high_upper n ltac:(lra)). lra.
Qed.

Lemma score_table_mono (n m : Q) :
  n <= m -> fst (score_table n) <= fst (score_table m).
Proof.
  intros Hnm. unfold score_table.
  destruct (Qle_bool_cases 300 n) as [[E1 H1]|[E1 H1]];
    destruct (Qle_bool_cases 50 n) as [[E2 H2]|[E2 H2]];
    destruct (Qle_bool_cases 300 m) as [[E3 H3]|[E3 H3]];
    destruct (Qle_bool_cases 50 m) as [[E4 H4]|[E4 H4]];
    rewrite ?E1, ?E2, ?E3, ?E4; cbn [fst]; try lra.
  - destruct (medium_range n ltac:(lra)). lra.
  - now apply medium_mono.
  - pose proof (high_upper n ltac:(lra)). lra.
  - pose proof (high_upper n ltac:(lra)). destruct (medium_range m ltac:(lra)). lra.
  - now apply high_mono.
Qed.

Lemma score_table_comp (n m : Q) : n == m -> score_table n = score_table m.
Proof.
  intros Hnm. unfold score_table.
  assert (E300 : Qle_bool 300 n = Qle_bool 300 m).
  { destruct (Qle_bool_cases 300 n) as [[E H]|[E H]],
             (Qle_bool_cases 300 m) as [[E' H']|[E' H']]; try congruence; lra. }
  assert (E50 : Qle_bool 50 n = Qle_bool 50 m).
  { destruct (Qle_bool_cases 50 n) as [[E H]|[E H]],
             (Qle_bool_cases 50 m) as [[E' H']|[E' H']]; try congruence; lra. }
  rewrite E300, E50. unfold float_add, float_sub, float_mul, float_div.
  rewrite (nearest_comp (n - 50) (m - 50)) by (now rewrite Hnm).
  rewrite (nearest_comp (n / 50) (m / 50)) by (now rewrite Hnm).
  reflexivity.
Qed.

Lemma normalized_nonneg (e h : Z) : (0 <= e)%Z -> (0 < h)%Z -> 0 <= normalized e h.
Proof.
  intros He Hh. apply Qle_shift_div_l.
  - change 0 with (inject_Z 0). now rewrite <- Zlt_Qlt.
  - rewrite Qmult_0_l. change 0 with (inject_Z 0). now rewrite <- Zle_Qle.
Qed.

Lemma computed_nonneg (e h : Z) : (0 <= e)%Z -> (0 < h)%Z -> 0 <= computed e h.
Proof.
  intros He Hh. apply nearest_lower; [exact_float|]. now apply normalized_nonneg.
Qed.

Lemma calculate_score_unfold (e h : Z) :
  (h <> 0)%Z ->
  _calculate_score e h =
    inr (round (fst (score_table (computed e h))) 2,
         snd (score_table (computed e h))).
Proof.
  intros Hh. unfold _calculate_score, float_truediv.
  destruct (Z.eqb_spec h 0) as [->|_]; [contradiction|].
  destruct (score_table _); reflexivity.
Qed.

(** A quotient of two ints below the int [t] stays away from it by the
    reciprocal of the divisor. *)
Lemma quotient_below (e h t : Z) :
  (0 < h <= 2 ^ 40)%Z ->
  normalized e h < inject_Z t -> normalized e h <= inject_Z t - (1 # 2 ^ 40).
Proof.
  intros [Hpos Hmax] Hlt.
  assert (HH : 0 < inject_Z h) by (change 0 with (inject_Z 0); now rewrite <- Zlt_Qlt).
  assert (Hmax' : inject_Z h <= inject_Z (2 ^ 40)) by (now rewrite <- Zle_Qle).
  assert (He : (e < t * h)%Z).
  { rewrite Zlt_Qlt, inject_Z_mult.
    assert (Eq : inject_Z e == inject_Z e / inject_Z h * inject_Z h) by (field; lra).
    rewrite Eq. apply Qmult_lt_compat_r; assumption. }
  assert (He' : inject_Z e <= inject_Z t * inject_Z h - 1).
  { assert (Hz : (e <= t * h - 1)%Z) by lia.
    rewrite Zle_Qle in Hz. unfold Z.sub in Hz.
    rewrite inject_Z_plus, inject_Z_mult in Hz.
    change (inject_Z (- (1))) with (- (1)) in Hz. lra. }
  apply Qle_shift_div_r; [exact HH|].
  change (inject_Z (2 ^ 40)) with 1099511627776 in Hmax'.
  change (1 # 2 ^ 40) with (1 # 1099511627776).
  set (E := inject_Z e) in *. set (H := inject_Z h) in *. set (T := inject_Z t) in *.
  nra.
Qed.

(** For windows up to [2 ^ 40] hours the float comparison against 50
    and 300 is the comparison of the exact quotient. *)
Lemma computed_below (e h : Z) :
  (0 < h <= 2 ^ 40)%Z ->
  (normalized e h < 300 -> computed e h < 300) /\
  (normalized e h < 50 -> computed e h < 50).
Proof.
  intros Hh. split; intros Hlt.
  - pose proof (quotient_below e h 300 Hh Hlt) as Hgap.
    apply Qle_lt_trans with (300 - (1 # 2 ^ 40)); [|reflexivity].
    apply nearest_upper; [exact_float | exact Hgap].
  - pose proof (quotient_below e h 50 Hh Hlt) as Hgap.
    apply Qle_lt_trans with (50 - (1 # 2 ^ 40)); [|reflexivity].
    apply nearest_upper; [exact_float | exact Hgap].
Qed.

(** The float branches are close to the exact ones. *)
Lemma high_close (n : Q) :
  0 <= n <= 50 -> Qabs (high n - n / 50 * 20) <= 1 # 2 ^ 46.
Proof.
  intros [Hlo Hhi]. unfold float_mul, float_div.
  pose proof (Qdiv_const n 50) as Hd. set (d := n / 50) in *. clearbody d.
  pose proof (nearest_close d 0) as H1.
  change (2 ^ 0) with 1 in H1. change (2 ^ (0 - 53)) with (1 # 2 ^ 53) in H1.
  literals.
  assert (B1 : 0 <= d <= 1) by lra. specialize (H1 B1).
  assert (N1 : 0 <= nearest d) by (apply nearest_lower; [exact_float | lra]).
  pose proof (nearest_close (nearest d * 20) 5) as H2.
  change (2 ^ 5) with 32 in H2. change (2 ^ (5 - 53)) with (1 # 2 ^ 48) in H2.
  literals.
  assert (B2 : 0 <= nearest d * 20 <= 32) by lra. specialize (H2 B2).
  apply Qabs_case; intros; lra.
Qed.

Lemma medium_close (n : Q) :
  50 <= n <= 300 ->
  Qabs (medium n - (20 + (n - 50) / 250 * 20)) <= 1 # 2 ^ 44.
Proof.
  intros Hn. destruct (medium_steps n Hn) as (S1 & S2 & S3).
  unfold float_add, float_mul, float_div, float_sub in *.
  pose proof (nearest_close (n - 50) 8) as H1.
  change (2 ^ 8) with 256 in H1. change (2 ^ (8 - 53)) with (1 # 2 ^ 45) in H1.
  literals.
  assert (B1 : 0 <= n - 50 <= 256) by lra. specialize (H1 B1).
  pose proof (Qdiv_const (n - 50) 250) as Hd0. set (d0 := (n - 50) / 250) in *.
  clearbody d0.
  set (x1 := nearest (n - 50)) in *.
  pose proof (Qdiv_const x1 250) as Hd. set (d := x1 / 250) in *. clearbody d.
  pose proof (nearest_close d 0) as H2.
  change (2 ^ 0) with 1 in H2. change (2 ^ (0 - 53)) with (1 # 2 ^ 53) in H2.
  literals.
  assert (B2 : 0 <= d <= 1) by lra. specialize (H2 B2).
  set (x2 := nearest d) in *.
  pose proof (nearest_close (x2 * 20) 5) as H3.
  change (2 ^ 5) with 32 in H3. change (2 ^ (5 - 53)) with (1 # 2 ^ 48) in H3.
  literals.
  assert (B3 : 0 <= x2 * 20 <= 32) by lra. specialize (H3 B3).
  set (x3 := nearest (x2 * 20)) in *.
  pose proof (nearest_close (20 + x3) 6) as H4.
  change (2 ^ 6) with 64 in H4. change (2 ^ (6 - 53)) with (1 # 2 ^ 47) in H4.
  literals.
  assert (B4 : 0 <= 20 + x3 <= 64) by lra. specialize (H4 B4).
  apply Qabs_case; intros; lra.
Qed.

(** The table in floats against the table of the specification, on the
    same normalized count. *)
Lemma table_close (n : Q) :
  0 <= n -> Qabs (fst (score_table n) - tabulated_activity_score n) <= 1 # 2 ^ 44.
Proof.
  intros Hn. unfold score_table, tabulated_activity_score.
  destruct (Qle_bool_cases 300 n) as [[E1 H1]|[E1 H1]]; rewrite E1; cbn [fst].
  - literals. apply Qabs_case; intros; lra.
  - destruct (Qle_bool_cases 50 n) as [[E2 H2]|[E2 H2]]; rewrite E2; cbn [fst].
    + apply medium_close. lra.
    + apply Qle_trans with (1 # 2 ^ 46); [apply high_close; lra | discriminate].
Qed.

(** The table of the specification is monotone and moves by at most 0.4
    times the distance of its arguments. *)
Lemma tabulated_slope (a b : Q) :
  a <= b ->
  0 <= tabulated_activity_score b - tabulated_activity_score a <= (2 # 5) * (b - a).
Proof.
  intros Hab. unfold tabulated_activity_score.
  decide_tests; rewrite ?(Qdiv_const _ 250), ?(Qdiv_const _ 50); lra.
Qed.

(** The float of a non-negative quotient: close to it, or both beyond
    the table. *)
Lemma computed_close (q : Q) :
  0 <= q ->
  Qabs (tabulated_activity_score (nearest q) - tabulated_activity_score q) <= 1 # 2 ^ 45.
Proof.
  intros Hq.
  destruct (Qlt_le_dec q 512) as [Hsmall|Hlarge].
  - pose proof (nearest_close q 9) as Hc.
    change (2 ^ 9) with 512 in Hc. change (2 ^ (9 - 53)) with (1 # 2 ^ 44) in Hc.
    literals.
    assert (B : 0 <= q <= 512) by lra. specialize (Hc B).
    destruct (Qlt_le_dec q (nearest q)) as [Hup|Hdown].
    + pose proof (tabulated_slope q (nearest q) (Qlt_le_weak _ _ Hup)).
      apply Qabs_case; intros; lra.
    + pose proof (tabulated_slope (nearest q) q Hdown).
      apply Qabs_case; intros; lra.
  - assert (Hn : 512 <= nearest q) by (apply nearest_lower; [exact_float | exact Hlarge]).
    unfold tabulated_activity_score.
    destruct (Qle_bool_cases 300 (nearest q)) as [[E1 H1]|[E1 H1]]; [|lra].
    destruct (Qle_bool_cases 300 q) as [[E2 H2]|[E2 H2]]; [|lra].
    rewrite E1, E2. literals. apply Qabs_case; intros; lra.
Qed.

(** C2, as stated, fails: one EOA seen in a three-hour window has
    normalized count 1/3, below 50, and the table value [(n / 50) * 20] is
    2/15; the method returns the float 0.13, which is neither that value
    nor the float that the table formula gives. *)
Lemma activity_score_is_not_the_raw_table :
  normalized 1 3 < 50 /\
  exists s, _calculate_score 1 3 = inr (s, "high_risk") /\
            s = nearest 0.13 /\
            ~ s == normalized 1 3 / 50 * 20 /\
            ~ s == ((nearest (normalized 1 3) / 50) * 20)%f64 /\
            (3 # 1000) < normalized 1 3 / 50 * 20 - s.
Proof.
  split; [reflexivity|].
  exists (nearest 0.13). split; [vm_compute; reflexivity|]. split; [reflexivity|].
  split; [|split]; [intros H; vm_compute in H; discriminate H ..| vm_compute; reflexivity].
Qed.

(** C2, amended. For [e >= 0] unique EOAs and a window of [h > 0] hours
    the method holds the float [n] of [e / h] and returns
    [round(score, 2)], where [score] is the table evaluated in floats on
    [n]: 40 and the low tier when [n >= 300]; [20 + (n - 50) / 250 * 20]
    and the medium tier when [50 <= n < 300]; [(n / 50) * 20] and the
    high tier when [n < 50].  The float [n] is at least 300, or 50,
    whenever [e / h] is, and for [h <= 2 ^ 40] it is below 300, or 50,
    whenever [e / h] is.  The returned score is within 0.005 (and
    [10 ^ -12] for the float arithmetic) of the value that the
    specification tabulates for [e / h]; it is exactly 40 where
    [e / h = 300], 20 where [e / h = 50] and 0 where [e / h = 0]; it lies in
    [[0, 40]] and it is non-decreasing in [e / h]. *)
Theorem activity_score_is_the_rounded_table (e h : Z) :
  (0 <= e)%Z -> (0 < h)%Z ->
  exists n s r,
    float_truediv e h = inr n /\
    _calculate_score e h = inr (s, r) /\
    ((300 <= n -> s == 40 /\ r = "low_risk") /\
     (50 <= n < 300 ->
        s = round (20 + (n - 50) / 250 * 20)%f64 2 /\ r = "medium_risk") /\
     (n < 50 -> s = round ((n / 50) * 20)%f64 2 /\ r = "high_risk")) /\
    ((300 <= normalized e h -> 300 <= n) /\
     (50 <= normalized e h -> 50 <= n) /\
     ((h <= 2 ^ 40)%Z ->
      (normalized e h < 300 -> n < 300) /\ (normalized e h < 50 -> n < 50))) /\
    Qabs (s - tabulated_activity_score (normalized e h)) <= 0.005 + (1 # 10 ^ 12) /\
    ((normalized e h == 300 -> s == 40) /\
     (normalized e h == 50 -> s == 20) /\
     (normalized e h == 0 -> s == 0)) /\
    0 <= s <= 40 /\
    (forall e' h' s' r',
        (0 <= e')%Z -> (0 < h')%Z ->
        normalized e h <= normalized e' h' ->
        _calculate_score e' h' = inr (s', r') -> s <= s').
Proof.
  intros He Hh.
  pose proof (normalized_nonneg e h He Hh) as Hq.
  pose proof (computed_nonneg e h He Hh) as Hn.
  exists (computed e h). rewrite calculate_score_unfold by lia.
  eexists _, _.
  split; [unfold float_truediv; destruct (Z.eqb_spec h 0); [lia | reflexivity]|].
  split; [reflexivity|].
  set (q := normalized e h) in *. set (n := nearest q) in *.
  destruct (score_table_range n Hn) as [Tlo Thi].
  assert (Hrange : 0 <= round (fst (score_table n)) 2 <= 40).
  { split.
    - apply Qle_trans with (round 0 2); [vm_compute; discriminate | now apply round2_mono].
    - apply Qle_trans with (round 40 2); [now apply round2_mono | vm_compute; discriminate]. }
  split; [|split; [|split; [|split; [|split]]]].
  - split; [|split]; intros Hb; unfold score_table; decide_tests; cbn [fst snd];
      try lra; split; reflexivity.
  - split; [|split].
    + intros Hb. apply nearest_lower; [exact_float | exact Hb].
    + intros Hb. apply nearest_lower; [exact_float | exact Hb].
    + intros Hmax. apply computed_below. lia.
  - pose proof (round2_near (fst (score_table n)) (conj Tlo Thi)) as H1.
    pose proof (table_close n Hn) as H2.
    pose proof (computed_close q Hq) as H3. fold n in H3.
    apply Qabs_Qle_condition in H1, H2, H3. apply Qabs_Qle_condition.
    literals. lra.
  - split; [|split]; intros Hp; unfold n;
      [rewrite (nearest_comp q 300 Hp) | rewrite (nearest_comp q 50 Hp)
       | rewrite (nearest_comp q 0 Hp)]; vm_compute; reflexivity.
  - exact Hrange.
  - intros e' h' s' r' He' Hh' Hle Hs'.
    rewrite calculate_score_unfold in Hs' by lia.
    injection Hs' as <- _.
    apply round2_mono, score_table_mono, nearest_mono, Hle.
Qed.

(** The amended C2 at 120 EOAs in two hours: n = 60, score 20.8. *)
Lemma activity_score_is_the_rounded_table_witness :
  (0 <= 120)%Z /\ (0 < 2)%Z /\
  exists s r, _calculate_score 120 2 = inr (s, r) /\ 0 <= s <= 40.
Proof.
  split; [lia|]. split; [lia|].
  destruct (activity_score_is_the_rounded_table 120 2 ltac:(lia) ltac:(lia))
    as (n & s & r & _ & Heq & _ & _ & _ & _ & Hrange & _).
  exists s, r. split; assumption.
Defined.

(** The method at three counts whose table value is a decimal tie: the
    float arithmetic decides the direction. *)
Example scores_at_decimal_ties :
  _calculate_score 1 16 = inr (nearest 0.03, "high_risk") /\
  _calculate_score 3 16 = inr (nearest 0.07, "high_risk") /\
  _calculate_score 1 80 = inr (nearest 0.01, "high_risk").
Proof. vm_compute. repeat split. Qed.

End ActivityScore.

(** ** Running computations *)

Section MonadFacts.
Context {W : Type}.

Lemma bind_run {A B} (m : Py W A) (k : A -> Py W B) (w w1 : W) (a : A) :
  m w = (inr a, w1) -> bind m k w = k a w1.
Proof. intros H. unfold bind. now rewrite H. Qed.

Lemma bind_returns {A B} (m : Py W A) (k : A -> Py W B) (w w' : W) (b : B) :
  bind m k w = (inr b, w') ->
  exists a w1, m w = (inr a, w1) /\ k a w1 = (inr b, w').
Proof.
  unfold bind. destruct (m w) as [[e|a] w1]; intros H; [discriminate|].
  now exists a, w1.
Qed.

(** A [try] whose handler cannot raise does not raise. *)
Lemma try_except_total {A} (body : Py W A) (handler : exn -> Py W A) (w : W) :
  (forall e w1, exists a w2, handler e w1 = (inr a, w2)) ->
  exists a w', try_except body handler w = (inr a, w').
Proof.
  intros Hh. unfold try_except.
  destruct (body w) as [[e|a] w1]; [apply Hh | now exists a, w1].
Qed.

Lemma try_except_returns {A} (body : Py W A) (handler : exn -> Py W A)
    (w w' : W) (a : A) :
  try_except body handler w = (inr a, w') ->
  body w = (inr a, w') \/ exists e w1, body w = (inl e, w1) /\ handler e w1 = (inr a, w').
Proof.
  unfold try_except. destruct (body w) as [[e|a0] w1]; intros H.
  - right. now exists e, w1.
  - left. exact H.
Qed.

Lemma bind_ext {A B} (m : Py W A) (k1 k2 : A -> Py W B) (w : W) :
  (forall a w1, k1 a w1 = k2 a w1) -> bind m k1 w = bind m k2 w.
Proof. intros H. unfold bind. destruct (m w) as [[e|a] w1]; [reflexivity | apply H]. Qed.

(** An invariant of the accumulator of a [for] loop. *)
Lemma for_each_invariant {A S} (I : S -> Prop) (P : A -> Prop)
    (body : S -> A -> Py W S) (xs : list A) :
  (forall acc x w r w', I acc -> P x -> body acc x w = (inr r, w') -> I r) ->
  Forall P xs ->
  forall acc w r w', I acc -> for_each xs body acc w = (inr r, w') -> I r.
Proof.
  intros Hbody HP. induction HP as [|x xs Hx _ IH]; intros acc w r w' Hacc Hrun.
  - cbn in Hrun. injection Hrun as <- _. exact Hacc.
  - cbn in Hrun. apply bind_returns in Hrun as (acc1 & w1 & Hstep & Hrest).
    eapply IH; [|exact Hrest]. eapply Hbody; eauto.
Qed.

(** A [for] loop whose body cannot raise does not raise. *)
Lemma for_each_total {A S} (body : S -> A -> Py W S) (xs : list A) :
  (forall acc x w, exists r w', body acc x w = (inr r, w')) ->
  forall acc w, exists r w', for_each xs body acc w = (inr r, w').
Proof.
  intros Hbody. induction xs as [|x xs IH]; intros acc w.
  - now exists acc, w.
  - cbn. destruct (Hbody acc x w) as (acc1 & w1 & Hstep).
    rewrite (bind_run _ _ _ _ _ Hstep). apply IH.
Qed.

End MonadFacts.

(** ** The scan of [get_all_holders] *)

Section Scan.
Import HolderAnalyzer.
Context {W : Type}.
Implicit Types (query : Z -> Z -> Py W (list TransferEvent)).

Lemma scan_batch_advances query (to_block current : Z) (addrs : gset address) (w : W) :
  current <= to_block ->
  exists current' addrs' w',
    scan_batch query to_block (current, addrs) w = (inr (current', addrs'), w') /\
    advanced to_block current current'.
Proof.
  intros Hle. unfold scan_batch, advanced, try_except, bind, ret, BATCH_SIZE.
  set (batch_end := Z.min (current + 1000) to_block).
  assert (Hb : current <= batch_end <= to_block) by (unfold batch_end; lia).
  assert (Hs : 0 <= (batch_end - current) / 2 <= batch_end - current).
  { split; [apply Z.div_pos; lia | apply Z.div_le_upper_bound; lia]. }
  destruct (query current batch_end w) as [[e|events] w1].
  - destruct (contains _ _).
    + destruct (_ <? 100)%Z.
      * eexists _, _, _. split; [reflexivity|]. exists batch_end. lia.
      * destruct (query current (current + _) w1) as [[e2|events2] w2];
          (eexists _, _, _; split; [reflexivity|]);
          exists (current + (batch_end - current) / 2); lia.
    + eexists _, _, _. split; [reflexivity|]. exists batch_end. lia.
  - eexists _, _, _. split; [reflexivity|]. exists batch_end. lia.
Qed.

Lemma advanced_lt (to_block current current' : Z) :
  advanced to_block current current' -> current < current'.
Proof. intros (e & He & -> & _). lia. Qed.

Lemma scan_loop_terminates query (to_block : Z) (fuel : nat) :
  forall (state : Z * gset address) (w : W),
    to_block + 1 - fst state <= Z.of_nat fuel ->
    exists final addrs w',
      scan_loop fuel query to_block state w = (inr (Some (final, addrs)), w') /\
      to_block < final.
Proof.
  induction fuel as [|fuel IH]; intros [current addrs] w Hfuel; cbn [fst] in Hfuel.
  - cbn. destruct (Z.leb_spec current to_block); [lia|].
    eexists _, _, _. split; [reflexivity | assumption].
  - cbn [scan_loop fst]. destruct (Z.leb_spec current to_block) as [Hle|Hgt].
    + destruct (scan_batch_advances query to_block current addrs w Hle)
        as (current' & addrs' & w1 & Hstep & Hadv).
      rewrite (bind_run _ _ _ _ _ Hstep).
      apply IH. cbn [fst]. apply advanced_lt in Hadv. lia.
    + eexists _, _, _. split; [reflexivity | assumption].
Qed.

(** C4. For [from_block <= to_block] the scanning loop terminates,
    whatever the queries answer.  Every turn of the loop (a successful
    query, a retry after a capacity error, an abandoned range below the
    floor, a failed retry or any other failure) returns and leaves the
    cursor one block past the end of the range it queried last, hence
    strictly further; the loop ends with the cursor beyond [to_block],
    also when every query raises the capacity error. *)
Theorem scan_loop_always_terminates query (from_block to_block : Z) :
  from_block <= to_block ->
  (forall current addrs w,
      current <= to_block ->
      exists current' addrs' w',
        scan_batch query to_block (current, addrs) w = (inr (current', addrs'), w') /\
        advanced to_block current current' /\ current < current') /\
  (forall w,
      exists final addrs w',
        scan_loop (Z.to_nat (to_block + 1 - from_block)) query to_block (from_block, ∅) w
          = (inr (Some (final, addrs)), w') /\
        to_block < final).
Proof.
  intros Hrange. split.
  - intros current addrs w Hle.
    destruct (scan_batch_advances query to_block current addrs w Hle)
      as (current' & addrs' & w' & Hstep & Hadv).
    exists current', addrs', w'. repeat split; [exact Hstep | exact Hadv |].
    now apply advanced_lt in Hadv.
  - intros w. apply scan_loop_terminates. cbn [fst]. lia.
Qed.

End Scan.

(** ** The reader under the scan *)

Section ReaderUnderScan.
Import HolderAnalyzer.
Context {W : Type}.

(** [get_transfer_events] called with both block numbers: one
    [eth_getLogs] request, and the empty list when that request raises. *)
Lemma get_transfer_events_run (reader : ContractReader.t W) (a b : Z) (w : W) :
  ContractReader.get_transfer_events reader a (Some b) w =
    match eth_get_logs (ContractReader.client reader)
                       (ContractReader.contract_address reader) a b w with
    | (inr logs, w1) => (inr (ContractReader.format_events logs), w1)
    | (inl _, w1) => (inr [], w1)
    end.
Proof.
  unfold ContractReader.get_transfer_events, bind, try_except, ret.
  destruct (eth_get_logs _ _ a b w) as [[e|logs] w1]; reflexivity.
Qed.

Lemma get_transfer_events_never_raises (reader : ContractReader.t W) (a b : Z) (w : W) :
  exists events w',
    ContractReader.get_transfer_events reader a (Some b) w = (inr events, w').
Proof.
  rewrite get_transfer_events_run.
  destruct (eth_get_logs _ _ a b w) as [[e|logs] w1]; eauto.
Qed.

(** One turn of the scan over the reader of the sources: a single
    request for the whole batch, and the cursor moves past the batch
    whether the request answered or raised, whatever the message. *)
Lemma scan_batch_over_reader (reader : ContractReader.t W) (to_block current : Z)
    (addrs : gset address) (w : W) :
  let batch_end := Z.min (current + BATCH_SIZE) to_block in
  scan_batch (fun a b => ContractReader.get_transfer_events reader a (Some b))
             to_block (current, addrs) w =
    match eth_get_logs (ContractReader.client reader)
                       (ContractReader.contract_address reader) current batch_end w with
    | (inr logs, w1) =>
        (inr (batch_end + 1, add_events addrs (ContractReader.format_events logs)), w1)
    | (inl _, w1) => (inr (batch_end + 1, addrs), w1)
    end.
Proof.
  intros batch_end. unfold scan_batch, try_except, bind.
  fold batch_end. rewrite get_transfer_events_run.
  destruct (eth_get_logs _ _ current batch_end w) as [[e|logs] w1]; reflexivity.
Qed.

End ReaderUnderScan.

(** ** The holder set *)

Section HolderSet.
Import HolderAnalyzer.
Context {W : Type}.

Lemma add_event_keeps_zero_out (addrs : gset address) (event : TransferEvent) :
  ZERO_ADDRESS ∉ addrs -> ZERO_ADDRESS ∉ add_event addrs event.
Proof.
  intros H. unfold add_event.
  destruct (String.eqb_spec (from event) ZERO_ADDRESS) as [Ef|Ef];
    destruct (String.eqb_spec (to event) ZERO_ADDRESS) as [Et|Et];
    cbn [negb]; rewrite ?elem_of_union, ?elem_of_singleton; intuition congruence.
Qed.

Lemma add_events_keeps_zero_out (events : list TransferEvent) :
  forall addrs : gset address,
    ZERO_ADDRESS ∉ addrs -> ZERO_ADDRESS ∉ add_events addrs events.
Proof.
  unfold add_events.
  induction events as [|event events IH]; intros addrs H; cbn [foldl].
  - exact H.
  - apply IH, add_event_keeps_zero_out, H.
Qed.

Lemma scan_batch_keeps_zero_out (query : Z -> Z -> Py W (list TransferEvent))
    (to_block current current' : Z) (addrs addrs' : gset address) (w w' : W) :
  ZERO_ADDRESS ∉ addrs ->
  scan_batch query to_block (current, addrs) w = (inr (current', addrs'), w') ->
  ZERO_ADDRESS ∉ addrs'.
Proof.
  intros H. unfold scan_batch, try_except, bind, ret.
  destruct (query current _ w) as [[e|events] w1].
  - destruct (contains _ _); [destruct (_ <? 100)%Z|].
    + intros [= _ <- _]. exact H.
    + destruct (query current _ w1) as [[e2|events2] w2]; intros [= _ <- _];
        [exact H | now apply add_events_keeps_zero_out].
    + intros [= _ <- _]. exact H.
  - intros [= _ <- _]. now apply add_events_keeps_zero_out.
Qed.

Lemma scan_loop_keeps_zero_out (query : Z -> Z -> Py W (list TransferEvent))
    (to_block : Z) (fuel : nat) :
  forall (state : Z * gset address) (final : Z) (addrs' : gset address) (w w' : W),
    ZERO_ADDRESS ∉ snd state ->
    scan_loop fuel query to_block state w = (inr (Some (final, addrs')), w') ->
    ZERO_ADDRESS ∉ addrs'.
Proof.
  induction fuel as [|fuel IH]; intros [current addrs] final addrs' w w' H;
    cbn [scan_loop fst snd] in *; destruct (current <=? to_block)%Z.
  - discriminate.
  - intros [= _ <- _]. exact H.
  - intros Hrun. apply bind_returns in Hrun as ([c1 a1] & w1 & Hstep & Hrest).
    eapply IH; [|exact Hrest]. cbn [snd].
    eapply scan_batch_keeps_zero_out; eauto.
  - intros [= _ <- _]. exact H.
Qed.

Lemma dict_set_entries (holders : Holders) (addr : address) (balance : Z) :
  forall a b, (a, b) ∈ dict_set holders addr balance ->
              (a, b) ∈ holders \/ (a = addr /\ b = balance).
Proof.
  induction holders as [|[a0 b0] rest IH]; intros a b; cbn [dict_set].
  - rewrite list_elem_of_singleton. intros [= -> ->]. now right.
  - destruct (String.eqb_spec a0 addr) as [->|Hne]; rewrite !elem_of_cons.
    + intros [[= -> ->]|Hin]; [now right | left; now right].
    + intros [[= -> ->]|Hin]; [left; now left|].
      destruct (IH _ _ Hin) as [?|?]; [left; now right | now right].
Qed.

Lemma collect_balances_ok (reader : ContractReader.t W) (addrs : gset address)
    (holders : Holders) (w w' : W) :
  ZERO_ADDRESS ∉ addrs ->
  collect_balances reader addrs w = (inr holders, w') ->
  holders_ok holders.
Proof.
  intros Hzero. unfold collect_balances.
  apply (for_each_invariant holders_ok (fun a => a <> ZERO_ADDRESS)).
  - intros acc x w0 r w0' Hacc Hx Hrun.
    apply try_except_returns in Hrun as [Hrun|(e & w1 & _ & Hrun)].
    + apply bind_returns in Hrun as (balance & w1 & _ & Hrun).
      destruct (Z.gtb_spec balance 0) as [Hpos|_];
        injection Hrun as <- _; [|exact Hacc].
      intros a b Hin. apply dict_set_entries in Hin as [Hin|[-> ->]];
        [now apply Hacc | split; [exact Hx | lia]].
    + injection Hrun as <- _. exact Hacc.
  - apply Forall_forall. intros a Ha ->.
    apply elem_of_elements in Ha. contradiction.
  - intros a b Hin. apply elem_of_nil in Hin. contradiction.
Qed.

(** C7. The mapping returned by [get_all_holders] has no zero address
    among its keys, also when the zero address is the [from] or the [to]
    of a transfer, and all its balances are strictly positive.  The
    mapping comes from the scan, or verbatim from the cache: a cached
    entry is one that an earlier call stored, so it is taken to have the
    same two properties. *)
Theorem holders_exclude_zero_address_and_zero_balances
    (self : HolderAnalyzer.t W) (token_address : string)
    (from_block : Z) (to_block : option Z) (w w' : W) (holders : Holders) :
  (forall cached w1,
      use_cache self = true ->
      db_get (db self) ("holders_" ++ lower token_address)%string w
        = (inr (Some cached), w1) ->
      holders_ok cached) ->
  get_all_holders self token_address from_block to_block w = (inr holders, w') ->
  holders_ok holders.
Proof.
  intros Hcache Hrun. unfold get_all_holders in Hrun.
  apply bind_returns in Hrun as (cached & w1 & Hget & Hrun).
  assert (Hscan :
    (let* reader := ContractReader.__init__ (client self) token_address in
     let* to_block := match to_block with
                      | Some b => ret b
                      | None => get_latest_block (client self)
                      end in
     let* scanned :=
       scan_loop (Z.to_nat (to_block + 1 - from_block))
         (fun a b => ContractReader.get_transfer_events reader a (Some b))
         to_block (from_block, ∅) in
     match scanned with
     | Some (_, all_addresses) =>
         let* holders := collect_balances reader all_addresses in
         (if use_cache self
          then db_set (db self) ("holders_" ++ lower token_address)%string holders
          else ret tt) ;;
         ret holders
     | None => raise "scan loop out of fuel"
     end)%py w1 = (inr holders, w') -> holders_ok holders).
  { clear Hrun. intros Hrun.
    apply bind_returns in Hrun as (reader & w2 & _ & Hrun).
    apply bind_returns in Hrun as (tb & w3 & _ & Hrun).
    apply bind_returns in Hrun as ([[final addrs]|] & w4 & Hloop & Hrun);
      [|discriminate].
    apply bind_returns in Hrun as (hs & w5 & Hcollect & Hrun).
    apply bind_returns in Hrun as (u & w6 & _ & Hrun).
    injection Hrun as <- _.
    eapply collect_balances_ok; [|exact Hcollect].
    eapply scan_loop_keeps_zero_out; [|exact Hloop]. cbn [snd]. set_solver. }
  destruct cached as [[|entry entries]|]; try (apply Hscan; exact Hrun).
  injection Hrun as <- _.
  destruct (use_cache self) eqn:Huse.
  - eapply Hcache; [reflexivity | exact Hget].
  - discriminate Hget.
Qed.

(** The balance pass returns, whatever the balance reads do. *)
Lemma collect_balances_returns (reader : ContractReader.t W) (addrs : gset address) :
  returns (collect_balances reader addrs).
Proof.
  intros w. unfold collect_balances. apply for_each_total.
  intros acc x w0. apply try_except_total. intros e w1. now exists acc, w1.
Qed.

(** No failure of a log request or of a balance read reaches the caller
    of [get_all_holders]: it returns as soon as the token address is well
    formed and the cache and [get_latest_block] answer. *)
Lemma get_all_holders_survives_rpc_failures
    (self : HolderAnalyzer.t W) (token_address : string) (checksum : address)
    (from_block : Z) (to_block : option Z) :
  to_checksum_address (client self) token_address = inr checksum ->
  (forall key, returns (db_get (db self) key)) ->
  (forall key holders, returns (db_set (db self) key holders)) ->
  returns (get_latest_block (client self)) ->
  returns (get_all_holders self token_address from_block to_block).
Proof.
  intros Hchecksum Hget Hset Hlatest w. unfold get_all_holders.
  assert (Hcached : exists cached w1,
    (if use_cache self
     then db_get (db self) ("holders_" ++ lower token_address)%string
     else ret None) w = (inr cached, w1)).
  { destruct (use_cache self); [apply Hget | now exists None, w]. }
  destruct Hcached as (cached & w1 & Hcached).
  rewrite (bind_run _ _ _ _ _ Hcached).
  assert (Hfresh : exists holders w',
    (let* reader := ContractReader.__init__ (client self) token_address in
     let* to_block := match to_block with
                      | Some b => ret b
                      | None => get_latest_block (client self)
                      end in
     let* scanned :=
       scan_loop (Z.to_nat (to_block + 1 - from_block))
         (fun a b => ContractReader.get_transfer_events reader a (Some b))
         to_block (from_block, ∅) in
     match scanned with
     | Some (_, all_addresses) =>
         let* holders := collect_balances reader all_addresses in
         (if use_cache self
          then db_set (db self) ("holders_" ++ lower token_address)%string holders
          else ret tt) ;;
         ret holders
     | None => raise "scan loop out of fuel"
     end)%py w1 = (inr holders, w')).
  { erewrite bind_run; cycle 1.
    { unfold ContractReader.__init__, bind, lift. rewrite Hchecksum. reflexivity. }
    set (reader := {| ContractReader.client := client self;
                      ContractReader.contract_address := checksum |}).
    assert (Hto : exists b w2,
      match to_block with
      | Some b => ret b
      | None => get_latest_block (client self)
      end w1 = (inr b, w2)).
    { destruct to_block as [b|]; [now exists b, w1 | apply Hlatest]. }
    destruct Hto as (b & w2 & Hto). rewrite (bind_run _ _ _ _ _ Hto).
    destruct (scan_loop_terminates
                (fun a b => ContractReader.get_transfer_events reader a (Some b))
                b (Z.to_nat (b + 1 - from_block)) (from_block, ∅) w2)
      as (final & addrs & w3 & Hscan & _); [cbn [fst]; lia|].
    rewrite (bind_run _ _ _ _ _ Hscan).
    destruct (collect_balances_returns reader addrs w3) as (holders & w4 & Hbal).
    rewrite (bind_run _ _ _ _ _ Hbal).
    assert (Hstore : exists u w5,
      (if use_cache self
       then db_set (db self) ("holders_" ++ lower token_address)%string holders
       else ret tt) w4 = (inr u, w5)).
    { destruct (use_cache self); [apply Hset | now exists tt, w4]. }
    destruct Hstore as (u & w5 & Hstore). rewrite (bind_run _ _ _ _ _ Hstore).
    now exists holders, w5. }
  destruct cached as [[|entry entries]|]; try exact Hfresh.
  now exists (entry :: entries), w1.
Qed.

End HolderSet.

(** ** Defaults of the metadata and balance readers *)

Section ReaderDefaults.
Context {W : Type}.
Local Open Scope py_scope.

Lemma try_except_default {A} (call : Py W A) (default : A) (w w1 : W) (e : exn) :
  call w = (inl e, w1) ->
  try_except call (fun _ => ret default) w = (inr default, w1).
Proof. intros H. unfold try_except. now rewrite H. Qed.

Lemma try_except_default_twice {A} (call : Py W A) (default : A)
    (w w1 w2 : W) (e1 e2 : exn) :
  call w = (inl e1, w1) -> call w1 = (inl e2, w2) ->
  twice (try_except call (fun _ => ret default)) w = (inr (default, default), w2).
Proof.
  intros H1 H2. unfold twice.
  rewrite (bind_run _ _ _ _ _ (try_except_default _ _ _ _ _ H1)).
  rewrite (bind_run _ _ _ _ _ (try_except_default _ _ _ _ _ H2)).
  reflexivity.
Qed.

Lemma get_balance_run (reader : ContractReader.t W) (addr checksum : address) :
  to_checksum_address (ContractReader.client reader) addr = inr checksum ->
  ContractReader.get_balance reader addr =
    try_except (call_balanceOf (ContractReader.client reader)
                  (ContractReader.contract_address reader) checksum)
               (fun _ => ret 0).
Proof.
  intros H. unfold ContractReader.get_balance, bind, lift. now rewrite H.
Qed.

(** C9. When the external call raises, each reader answers its default
    and raises nothing: [get_name] "Unknown", [get_symbol] "UNKNOWN",
    [get_decimals] 18, [get_total_supply] 0 and [get_balance] 0 (for an
    address that [to_checksum_address] accepts, the conversion being done
    before the call); a second call that fails again gives the same
    default. *)
Theorem readers_substitute_defaults (reader : ContractReader.t W) :
  let web3 := ContractReader.client reader in
  let token := ContractReader.contract_address reader in
  (forall w w1 e,
      call_name web3 token w = (inl e, w1) ->
      ContractReader.get_name reader w = (inr "Unknown", w1)) /\
  (forall w w1 e,
      call_symbol web3 token w = (inl e, w1) ->
      ContractReader.get_symbol reader w = (inr "UNKNOWN", w1)) /\
  (forall w w1 e,
      call_decimals web3 token w = (inl e, w1) ->
      ContractReader.get_decimals reader w = (inr 18, w1)) /\
  (forall w w1 e,
      call_totalSupply web3 token w = (inl e, w1) ->
      ContractReader.get_total_supply reader w = (inr 0, w1)) /\
  (forall addr checksum w w1 e,
      to_checksum_address web3 addr = inr checksum ->
      call_balanceOf web3 token checksum w = (inl e, w1) ->
      ContractReader.get_balance reader addr w = (inr 0, w1)) /\
  (forall w w1 w2 e1 e2,
      call_name web3 token w = (inl e1, w1) ->
      call_name web3 token w1 = (inl e2, w2) ->
      twice (ContractReader.get_name reader) w = (inr ("Unknown", "Unknown"), w2)) /\
  (forall w w1 w2 e1 e2,
      call_symbol web3 token w = (inl e1, w1) ->
      call_symbol web3 token w1 = (inl e2, w2) ->
      twice (ContractReader.get_symbol reader) w = (inr ("UNKNOWN", "UNKNOWN"), w2)) /\
  (forall w w1 w2 e1 e2,
      call_decimals web3 token w = (inl e1, w1) ->
      call_decimals web3 token w1 = (inl e2, w2) ->
      twice (ContractReader.get_decimals reader) w = (inr (18, 18), w2)) /\
  (forall w w1 w2 e1 e2,
      call_totalSupply web3 token w = (inl e1, w1) ->
      call_totalSupply web3 token w1 = (inl e2, w2) ->
      twice (ContractReader.get_total_supply reader) w = (inr (0, 0), w2)) /\
  (forall addr checksum w w1 w2 e1 e2,
      to_checksum_address web3 addr = inr checksum ->
      call_balanceOf web3 token checksum w = (inl e1, w1) ->
      call_balanceOf web3 token checksum w1 = (inl e2, w2) ->
      twice (ContractReader.get_balance reader addr) w = (inr (0, 0), w2)).
Proof.
  cbv zeta. repeat split.
  - intros w w1 e H. exact (try_except_default _ _ _ _ _ H).
  - intros w w1 e H. exact (try_except_default _ _ _ _ _ H).
  - intros w w1 e H. exact (try_except_default _ _ _ _ _ H).
  - intros w w1 e H. exact (try_except_default _ _ _ _ _ H).
  - intros addr checksum w w1 e Hc H. rewrite (get_balance_run _ _ _ Hc).
    exact (try_except_default _ _ _ _ _ H).
  - intros w w1 w2 e1 e2 H1 H2. exact (try_except_default_twice _ _ _ _ _ _ _ H1 H2).
  - intros w w1 w2 e1 e2 H1 H2. exact (try_except_default_twice _ _ _ _ _ _ _ H1 H2).
  - intros w w1 w2 e1 e2 H1 H2. exact (try_except_default_twice _ _ _ _ _ _ _ H1 H2).
  - intros w w1 w2 e1 e2 H1 H2. exact (try_except_default_twice _ _ _ _ _ _ _ H1 H2).
  - intros addr checksum w w1 w2 e1 e2 Hc H1 H2. rewrite (get_balance_run _ _ _ Hc).
    exact (try_except_default_twice _ _ _ _ _ _ _ H1 H2).
Qed.

(** The readers return whatever the call does: none of them raises (for
    [get_balance], on an address that the checksum conversion accepts). *)
Lemma readers_never_raise (reader : ContractReader.t W) (w : W) :
  (exists a w', ContractReader.get_name reader w = (inr a, w')) /\
  (exists a w', ContractReader.get_symbol reader w = (inr a, w')) /\
  (exists a w', ContractReader.get_decimals reader w = (inr a, w')) /\
  (exists a w', ContractReader.get_total_supply reader w = (inr a, w')) /\
  (forall addr checksum,
      to_checksum_address (ContractReader.client reader) addr = inr checksum ->
      exists a w', ContractReader.get_balance reader addr w = (inr a, w')).
Proof.
  repeat split; try (apply try_except_total; intros; eexists _, _; reflexivity).
  intros addr checksum Hc. rewrite (get_balance_run _ _ _ Hc).
  apply try_except_total; intros; eexists _, _; reflexivity.
Qed.

End ReaderDefaults.

(** ** The two empty results *)

Section EmptyResults.
Context {W : Type}.

Lemma risk_level_is_a_tier (p : Q) :
  HolderAnalyzer._determine_risk_level p <> "unknown".
Proof.
  unfold HolderAnalyzer._determine_risk_level.
  repeat destruct (Qle_bool _ _); discriminate.
Qed.

Lemma risk_level_among_the_tiers (p : Q) :
  HolderAnalyzer._determine_risk_level p = "low_risk" \/
  HolderAnalyzer._determine_risk_level p = "medium_risk" \/
  HolderAnalyzer._determine_risk_level p = "high_risk" \/
  HolderAnalyzer._determine_risk_level p = "extreme_risk".
Proof.
  unfold HolderAnalyzer._determine_risk_level.
  repeat destruct (Qle_bool _ _); auto.
Qed.

(** C8, amended. With an empty holder mapping,
    [analyze_holder_concentration] returns [total_holders] 0, [score] 0.0
    and [risk_level] "unknown" with the [error] field "No holders found";
    no result for a non-empty mapping has that risk level or an [error]
    field: its risk level is one of the four tiers.  With no transfer
    event, [analyze_transfer_events] returns
    [unique_eoa_count] 0, [score] 0 and [risk_level] "high_risk" with the
    [message] field "No transfer events found". *)
Theorem empty_results
    (holder_analyzer : HolderAnalyzer.t W) (eoa_analyzer : UniqueEOAAnalyzer.t W)
    (token_address : string) (from_block : Z) (to_block : option Z) :
  (forall w w',
      HolderAnalyzer.get_all_holders holder_analyzer token_address from_block to_block w
        = (inr [], w') ->
      HolderAnalyzer.analyze_holder_concentration
        holder_analyzer token_address from_block to_block w
        = (inr {| HolderAnalyzer.total_holders := 0;
                  HolderAnalyzer.total_supply := 0;
                  HolderAnalyzer.top10_holders := [];
                  HolderAnalyzer.top10_percentage := 0.0;
                  HolderAnalyzer.score := 0.0;
                  HolderAnalyzer.risk_level := "unknown";
                  HolderAnalyzer.error := Some "No holders found" |}, w')) /\
  (forall w w1 w' holders report,
      HolderAnalyzer.get_all_holders holder_analyzer token_address from_block to_block w
        = (inr holders, w1) ->
      holders <> [] ->
      HolderAnalyzer.analyze_holder_concentration
        holder_analyzer token_address from_block to_block w = (inr report, w') ->
      HolderAnalyzer.risk_level report <> "unknown" /\
      (HolderAnalyzer.risk_level report = "low_risk" \/
       HolderAnalyzer.risk_level report = "medium_risk" \/
       HolderAnalyzer.risk_level report = "high_risk" \/
       HolderAnalyzer.risk_level report = "extreme_risk") /\
      HolderAnalyzer.error report = None) /\
  (forall time_window_hours w w1 w' reader,
      ContractReader.__init__ (UniqueEOAAnalyzer.client eoa_analyzer) token_address w
        = (inr reader, w1) ->
      ContractReader.get_transfer_events reader from_block to_block w1 = (inr [], w') ->
      UniqueEOAAnalyzer.analyze_transfer_events
        eoa_analyzer token_address from_block to_block time_window_hours w
        = (inr {| UniqueEOAAnalyzer.unique_eoa_count := 0;
                  UniqueEOAAnalyzer.unique_eoa_list := [];
                  UniqueEOAAnalyzer.total_addresses := 0;
                  UniqueEOAAnalyzer.contract_addresses := 0;
                  UniqueEOAAnalyzer.eoa_percentage := None;
                  UniqueEOAAnalyzer.score := 0;
                  UniqueEOAAnalyzer.risk_level := "high_risk";
                  UniqueEOAAnalyzer.message := Some "No transfer events found";
                  UniqueEOAAnalyzer.time_window_hours := None;
                  UniqueEOAAnalyzer.events_count := None |}, w')).
Proof.
  split; [|split].
  - intros w w' Hget. unfold HolderAnalyzer.analyze_holder_concentration.
    rewrite (bind_run _ _ _ _ _ Hget). reflexivity.
  - intros w w1 w' holders report Hget Hne.
    unfold HolderAnalyzer.analyze_holder_concentration.
    rewrite (bind_run _ _ _ _ _ Hget).
    destruct holders as [|entry holders]; [contradiction|]. cbn [length Nat.eqb].
    intros Hrun.
    apply bind_returns in Hrun as (p & w2 & _ & Hrun).
    apply bind_returns in Hrun as (formatted & w3 & _ & Hrun).
    injection Hrun as <- _. cbn.
    split; [apply risk_level_is_a_tier|].
    split; [apply risk_level_among_the_tiers | reflexivity].
  - intros hours w w1 w' reader Hinit Hget.
    unfold UniqueEOAAnalyzer.analyze_transfer_events.
    rewrite (bind_run _ _ _ _ _ Hinit), (bind_run _ _ _ _ _ Hget). reflexivity.
Qed.

End EmptyResults.

(** ** The top-10 share *)

Section Concentration.
Import HolderAnalyzer.
Context {W : Type}.

Lemma insert_desc_perm (x : address * Z) (items : list (address * Z)) :
  insert_desc x items ≡ₚ x :: items.
Proof.
  induction items as [|y rest IH]; cbn [insert_desc]; [reflexivity|].
  destruct (snd x <? snd y)%Z; [|reflexivity].
  rewrite IH. apply Permutation_swap.
Qed.

Lemma sorted_desc_perm (items : list (address * Z)) : sorted_desc items ≡ₚ items.
Proof.
  unfold sorted_desc. induction items as [|x rest IH]; cbn [foldr]; [reflexivity|].
  rewrite insert_desc_perm. now rewrite IH.
Qed.

Lemma insert_desc_descending (x : address * Z) (items : list (address * Z)) :
  descending items -> descending (insert_desc x items).
Proof.
  unfold descending. induction 1 as [|y rest Hrest IH Hy]; cbn [insert_desc].
  - repeat constructor.
  - destruct (Z.ltb_spec (snd x) (snd y)) as [Hlt|Hge].
    + constructor; [exact IH|].
      rewrite insert_desc_perm. constructor; [lia | exact Hy].
    + constructor; [now constructor|].
      constructor; [exact Hge|].
      eapply Forall_impl; [exact Hy|]. cbn. intros z Hz. lia.
Qed.

Lemma sorted_desc_descending (items : list (address * Z)) :
  descending (sorted_desc items).
Proof.
  unfold sorted_desc. induction items as [|x rest IH]; cbn [foldr].
  - constructor.
  - now apply insert_desc_descending.
Qed.

Lemma sum_values_perm (xs ys : list (address * Z)) :
  xs ≡ₚ ys -> sum (values xs) = sum (values ys).
Proof.
  unfold sum, values.
  induction 1 as [|x xs ys _ IH|x y xs|xs ys zs _ IH1 _ IH2]; cbn; lia.
Qed.

Lemma sum_values_nonneg (xs : list (address * Z)) :
  Forall (fun x => 0 <= snd x) xs -> 0 <= sum (values xs).
Proof. unfold sum, values. induction 1; cbn; lia. Qed.

(** Of a descending list, no [k] entries weigh more than the first [k]. *)
Lemma first_k_weigh_most (items : list (address * Z)) :
  descending items -> Forall (fun x => 0 <= snd x) items ->
  forall (k : nat) (chosen : list (address * Z)),
    sublist chosen items -> (length chosen <= k)%nat ->
    sum (values chosen) <= sum (values (firstn k items)).
Proof.
  unfold descending.
  induction 1 as [|x rest Hrest IH Hx]; intros Hpos k chosen Hsub Hlen.
  - apply sublist_nil_r in Hsub as ->. destruct k; cbn; lia.
  - apply Forall_cons in Hpos as [Hx0 Hpos]. specialize (IH Hpos).
    destruct k as [|k].
    { destruct chosen; [cbn; lia | cbn in Hlen; lia]. }
    cbn [firstn]. change (sum (values (x :: firstn k rest)))
      with (snd x + sum (values (firstn k rest))).
    apply sublist_cons_r in Hsub as [Hsub|(chosen' & -> & Hsub)].
    + destruct chosen as [|y chosen'].
      * pose proof (sum_values_nonneg (firstn k rest)) as Hk.
        cbn. specialize (Hk (Forall_take _ _ _ Hpos)). lia.
      * change (sum (values (y :: chosen'))) with (snd y + sum (values chosen')).
        assert (Hy : snd y <= snd x).
        { rewrite Forall_forall in Hx. apply Hx.
          eapply elem_of_sublist; [apply list_elem_of_here | exact Hsub]. }
        apply sublist_cons_l in Hsub as (k1 & k2 & -> & Hsub).
        assert (Hsub' : sublist chosen' (k1 ++ y :: k2)).
        { apply sublist_inserts_l. now apply sublist_cons. }
        specialize (IH k chosen' Hsub'). cbn in Hlen. lia.
    + change (sum (values (x :: chosen'))) with (snd x + sum (values chosen')).
      specialize (IH k chosen' Hsub). cbn in Hlen. lia.
Qed.

Lemma sum_values_pos (holders : Holders) :
  holders <> [] -> (forall a b, (a, b) ∈ holders -> 0 < b) ->
  0 < sum (values holders).
Proof.
  intros Hne Hpos. destruct holders as [|[a b] rest]; [contradiction|].
  change (0 < b + sum (values rest)).
  assert (0 < b) by (apply (Hpos a); apply list_elem_of_here).
  assert (0 <= sum (values rest)).
  { apply sum_values_nonneg, Forall_forall. intros [a' b'] Hin. cbn.
    apply Z.lt_le_incl, (Hpos a'). now apply list_elem_of_further. }
  lia.
Qed.

(** The list comprehension of lines 177-179 over a non-zero supply. *)
Lemma format_top10_run (total : Z) (top10 : list (address * Z)) :
  total <> 0 ->
  forall (formatted : list (address * Z * Q)) (w : W),
    for_each top10
      (fun formatted '(addr, balance) =>
         bind (lift (truediv balance total))
              (fun share => ret (formatted ++ [(addr, balance, (share * 100)%Q)])))
      formatted w
    = (inr (formatted ++
            map (fun '(addr, balance) =>
                   (addr, balance, (inject_Z balance / inject_Z total * 100)%Q)) top10),
       w).
Proof.
  intros Hne. induction top10 as [|[addr balance] rest IH]; intros formatted w.
  - cbn. now rewrite app_nil_r.
  - cbn [for_each map].
    rewrite (bind_run _ _ w w
      (formatted ++ [(addr, balance, (inject_Z balance / inject_Z total * 100)%Q)])).
    + rewrite IH. now rewrite <- app_assoc.
    + unfold bind, lift, truediv.
      destruct (Z.eqb_spec total 0) as [?|_]; [contradiction | reflexivity].
Qed.

(** The declared supply is never read: the whole analysis is the same
    computation whatever the token answers to [totalSupply()]. *)
Lemma get_all_holders_ignores_declared_supply (self : HolderAnalyzer.t W)
    (declared : address -> Py W Z) (token_address : string)
    (from_block : Z) (to_block : option Z) (w : W) :
  get_all_holders (declaring self declared) token_address from_block to_block w
  = get_all_holders self token_address from_block to_block w.
Proof.
  unfold get_all_holders. cbn [declaring use_cache db client].
  apply bind_ext. intros cached w1.
  assert (Hscan : forall k : ContractReader.t W -> Py W Holders,
    (forall checksum,
        k {| ContractReader.client := client (declaring self declared);
             ContractReader.contract_address := checksum |}
        = k {| ContractReader.client := client self;
               ContractReader.contract_address := checksum |}) ->
    bind (ContractReader.__init__ (client (declaring self declared)) token_address) k w1
    = bind (ContractReader.__init__ (client self) token_address) k w1).
  { intros k Hk. unfold ContractReader.__init__, bind, lift, ret.
    cbn [declaring client to_checksum_address].
    destruct (to_checksum_address (client self) token_address) as [e|checksum];
      [reflexivity | now rewrite Hk]. }
  destruct cached as [[|entry entries]|]; [|reflexivity|];
    apply Hscan; intros checksum; reflexivity.
Qed.

Lemma declared_supply_is_not_read (self : HolderAnalyzer.t W)
    (declared : address -> Py W Z) (token_address : string)
    (from_block : Z) (to_block : option Z) (w : W) :
  analyze_holder_concentration (declaring self declared)
    token_address from_block to_block w
  = analyze_holder_concentration self token_address from_block to_block w.
Proof.
  unfold analyze_holder_concentration, bind.
  now rewrite get_all_holders_ignores_declared_supply.
Qed.

(** C6. For a non-empty holder mapping with non-zero (positive) balances,
    [top10_percentage] is the sum of the balances of the first 10 entries
    (all of them when there are fewer) of the holders sorted by descending
    balance, divided by the sum of all the holders' balances, times 100.
    Those entries weigh at least as much as any other 10 holders.  The
    divisor is the observed sum: the contract's [totalSupply()] is not
    read. *)
Theorem top10_share_of_observed_supply (self : HolderAnalyzer.t W)
    (token_address : string) (from_block : Z) (to_block : option Z)
    (w w' : W) (holders : Holders) :
  get_all_holders self token_address from_block to_block w = (inr holders, w') ->
  holders <> [] ->
  (forall addr balance, (addr, balance) ∈ holders -> 0 < balance) ->
  let ranked := sorted_desc holders in
  let top10 := firstn 10 ranked in
  exists report,
    analyze_holder_concentration self token_address from_block to_block w
      = (inr report, w') /\
    (ranked ≡ₚ holders /\ descending ranked) /\
    length top10 = Nat.min 10 (length holders) /\
    (forall chosen,
        chosen ⊆+ holders -> (length chosen <= 10)%nat ->
        sum (values chosen) <= sum (values top10)) /\
    total_supply report = sum (values holders) /\
    top10_percentage report
      = (inject_Z (sum (values top10)) / inject_Z (sum (values holders)) * 100)%Q /\
    (forall declared w0,
        analyze_holder_concentration (declaring self declared)
          token_address from_block to_block w0
        = analyze_holder_concentration self token_address from_block to_block w0).
Proof.
  intros Hget Hne Hpos ranked top10.
  pose proof (sum_values_pos holders Hne Hpos) as Htotal.
  pose proof (sorted_desc_perm holders) as Hperm. fold ranked in Hperm.
  unfold analyze_holder_concentration.
  rewrite (bind_run _ _ _ _ _ Hget).
  destruct (Nat.eqb_spec (length holders) 0) as [Hlen|_].
  { destruct holders; [contradiction | discriminate Hlen]. }
  fold ranked. fold top10.
  destruct (Z.gtb_spec (sum (values holders)) 0) as [_|?]; [|lia].
  erewrite bind_run; cycle 1.
  { unfold bind, lift, truediv, values.
    destruct (Z.eqb_spec (sum (map snd holders)) 0) as [E|_];
      [unfold values in Htotal; lia | reflexivity]. }
  unfold bind at 1. rewrite format_top10_run by lia.
  eexists. split; [reflexivity|]. cbn [total_supply top10_percentage].
  split; [split; [exact Hperm | apply sorted_desc_descending]|].
  split.
  { unfold top10. rewrite length_take. now rewrite (Permutation_length Hperm). }
  split.
  { intros chosen Hsub Hlen.
    rewrite <- Hperm in Hsub.
    apply submseteq_sublist_r in Hsub as (chosen' & Hch & Hsub).
    rewrite (sum_values_perm _ _ Hch).
    apply first_k_weigh_most;
      [apply sorted_desc_descending | | exact Hsub
      | now rewrite <- (Permutation_length Hch)].
    apply Forall_forall. intros [a b] Hin. cbn.
    apply Z.lt_le_incl, (Hpos a). now rewrite <- Hperm. }
  split; [reflexivity|].
  split; [reflexivity|].
  intros declared w0. apply declared_supply_is_not_read.
Qed.

End Concentration.

(** ** EOA and contract sets *)

Section Classification.
Import UniqueEOAAnalyzer.
Context {W : Type}.

Lemma classify_event_step (self : UniqueEOAAnalyzer.t W) (f : address -> bool)
    (sets : Sets) (event : TransferEvent) (w : W) :
  classifies_by self f -> split_by f sets ->
  exists sets' w',
    classify_event self sets event w = (inr sets', w') /\
    split_by f sets' /\
    all_addresses sets' = all_addresses sets ∪ {[ from event ]} ∪ {[ to event ]}.
Proof.
  intros Hf [Heoa Hcon]. unfold classify_event.
  destruct (Hf (from event) w) as (w1 & Hfrom).
  destruct (Hf (to event) w1) as (w2 & Hto).
  rewrite (bind_run _ _ _ _ _ Hfrom), (bind_run _ _ _ _ _ Hto).
  eexists _, _. split; [reflexivity|]. split; [|reflexivity].
  split; intros a; cbn [eoa_addresses contract_addresses_set all_addresses];
    specialize (Heoa a); specialize (Hcon a);
    destruct (f (from event)) eqn:Efrom, (f (to event)) eqn:Eto;
    rewrite ?elem_of_union, ?elem_of_singleton;
    split; intros; destruct_and?; destruct_or?; subst;
    rewrite ?Heoa, ?Hcon in *; try congruence; intuition congruence.
Qed.

Lemma classify_events_from (self : UniqueEOAAnalyzer.t W) (f : address -> bool)
    (events : list TransferEvent) :
  classifies_by self f ->
  forall (sets : Sets) (w : W),
    split_by f sets ->
    exists sets' w',
      for_each events (classify_event self) sets w = (inr sets', w') /\
      split_by f sets' /\
      all_addresses sets' = all_addresses sets ∪ participants events.
Proof.
  intros Hf. induction events as [|event events IH]; intros sets w Hsplit.
  - exists sets, w. cbn. split; [reflexivity|]. split; [exact Hsplit|].
    now rewrite union_empty_r_L.
  - destruct (classify_event_step self f sets event w Hf Hsplit)
      as (sets1 & w1 & Hstep & Hsplit1 & Hall1).
    destruct (IH sets1 w1 Hsplit1) as (sets' & w' & Hrest & Hsplit' & Hall').
    exists sets', w'. cbn [for_each]. rewrite (bind_run _ _ _ _ _ Hstep).
    split; [exact Hrest|]. split; [exact Hsplit'|].
    rewrite Hall', Hall1. cbn [participants foldr].
    now rewrite <- !(assoc_L (∪)).
Qed.

(** Without a cache, [is_eoa] is the negation of [is_contract]. *)
Lemma is_eoa_without_cache (self : UniqueEOAAnalyzer.t W) (g : address -> bool) :
  cache self = None ->
  (forall addr w, exists w', is_contract (client self) addr w = (inr (g addr), w')) ->
  classifies_by self (fun addr => negb (g addr)).
Proof.
  intros Hcache Hg addr w. unfold is_eoa. rewrite Hcache.
  destruct (Hg addr w) as (w' & Hc).
  exists w'. unfold bind at 1. cbn [ret].
  now rewrite (bind_run _ _ _ _ _ Hc).
Qed.

Lemma split_by_partition (f : address -> bool) (sets : Sets) :
  split_by f sets ->
  eoa_addresses sets ## contract_addresses_set sets /\
  eoa_addresses sets ∪ contract_addresses_set sets = all_addresses sets.
Proof.
  intros [Heoa Hcon]. split.
  - intros a Ha Hb. apply Heoa in Ha. apply Hcon in Hb. destruct Ha, Hb. congruence.
  - apply set_eq. intros a. rewrite elem_of_union, Heoa, Hcon.
    destruct (f a); intuition congruence.
Qed.

Lemma participants_nonempty (events : list TransferEvent) :
  events <> [] -> size (participants events) <> 0%nat.
Proof.
  destruct events as [|event events]; [contradiction|]. intros _.
  cbn [participants foldr]. intros Hsize. apply size_empty_iff in Hsize.
  assert (from event ∈ (∅ : gset address)) by (rewrite <- Hsize; set_solver).
  set_solver.
Qed.

(** C10. For a non-empty list of transfer events and a classifier that
    is a function of the address, the EOA set and the contract set
    accumulated by [analyze_transfer_events] are the participants that
    the classifier takes for an EOA and the other participants: they are
    disjoint and their union is the set of all participant addresses.
    The returned counts are the sizes of these sets, so
    [unique_eoa_count + contract_addresses = total_addresses], and the
    divisor of [eoa_percentage], the number of participants, is not zero. *)
Theorem eoa_and_contract_sets_partition_participants
    (self : UniqueEOAAnalyzer.t W) (f : address -> bool)
    (events : list TransferEvent) (w : W) :
  events <> [] ->
  classifies_by self f ->
  exists sets w',
    classify_events self events w = (inr sets, w') /\
    split_by f sets /\
    eoa_addresses sets ## contract_addresses_set sets /\
    eoa_addresses sets ∪ contract_addresses_set sets = all_addresses sets /\
    all_addresses sets = participants events /\
    (size (eoa_addresses sets) + size (contract_addresses_set sets)
       = size (all_addresses sets))%nat /\
    size (all_addresses sets) <> 0%nat /\
    (forall token_address from_block to_block hours reader w0 w1,
        hours <> 0 ->
        ContractReader.__init__ (client self) token_address w0 = (inr reader, w1) ->
        ContractReader.get_transfer_events reader from_block to_block w1
          = (inr events, w) ->
        exists result,
          analyze_transfer_events self token_address from_block to_block hours w0
            = (inr result, w') /\
          unique_eoa_count result = Z.of_nat (size (eoa_addresses sets)) /\
          unique_eoa_list result = elements (eoa_addresses sets) /\
          contract_addresses result = Z.of_nat (size (contract_addresses_set sets)) /\
          total_addresses result = Z.of_nat (size (participants events)) /\
          unique_eoa_count result + contract_addresses result = total_addresses result /\
          total_addresses result <> 0 /\
          eoa_percentage result
            = Some (inject_Z (unique_eoa_count result)
                    / inject_Z (total_addresses result) * 100)%Q).
Proof.
  intros Hne Hf.
  destruct (classify_events_from self f events Hf
              {| all_addresses := ∅; eoa_addresses := ∅; contract_addresses_set := ∅ |} w)
    as (sets & w' & Hrun & Hsplit & Hall).
  { split; intros a; cbn; rewrite elem_of_empty; tauto. }
  cbn [all_addresses] in Hall. rewrite union_empty_l_L in Hall.
  destruct (split_by_partition f sets Hsplit) as [Hdisj Hunion].
  assert (Hsize : (size (eoa_addresses sets) + size (contract_addresses_set sets)
                   = size (all_addresses sets))%nat).
  { rewrite <- Hunion. symmetry. now apply size_union. }
  assert (Hnonzero : size (all_addresses sets) <> 0%nat).
  { rewrite Hall. now apply participants_nonempty. }
  exists sets, w'.
  split; [exact Hrun|]. split; [exact Hsplit|]. split; [exact Hdisj|].
  split; [exact Hunion|]. split; [exact Hall|]. split; [exact Hsize|].
  split; [exact Hnonzero|].
  intros token_address from_block to_block hours reader w0 w1 Hh Hinit Hget.
  unfold analyze_transfer_events.
  rewrite (bind_run _ _ _ _ _ Hinit), (bind_run _ _ _ _ _ Hget).
  destruct (Nat.eqb_spec (length events) 0) as [Hlen|_].
  { destruct events; [contradiction | discriminate Hlen]. }
  rewrite (bind_run _ _ _ _ _ Hrun).
  rewrite calculate_score_unfold by exact Hh.
  unfold lift at 1. unfold bind at 1.
  destruct (Nat.eqb_spec (size (all_addresses sets)) 0) as [?|_]; [contradiction|].
  unfold bind at 1, lift, truediv, len.
  destruct (Z.eqb_spec (Z.of_nat (size (all_addresses sets))) 0) as [?|_]; [lia|].
  eexists. split; [reflexivity|].
  cbn [unique_eoa_count unique_eoa_list contract_addresses total_addresses
       eoa_percentage].
  unfold len.
  split; [reflexivity|]. split; [reflexivity|]. split; [reflexivity|].
  split; [now rewrite Hall|]. split; [lia|]. split; [lia | reflexivity].
Qed.

End Classification.

(** ** Runs on the small chain *)

Section Runs.
Import Fixtures.

(** The scan of blocks 0 to 1000 against a provider that serves them in
    one request: the zero address of the mint and of the burn is no
    holder, bob (whose balance read reverts) and the log that does not
    decode are skipped, and the result is cached. *)
Example holders_of_the_chain :
  HolderAnalyzer.get_all_holders (holder_analyzer 2000) token 0 (Some 1000) genesis
  = (inr [(pool, 30); (alice, 65)],
     {| queries := [(0, 1000)];
        store := [("holders_0x00000000000000000000000000000000000000f0",
                   [(pool, 30); (alice, 65)])] |}).
Proof. vm_compute. reflexivity. Qed.

(** A second call answers from the cache, without a request. *)
Example holders_from_the_cache :
  let after := snd (HolderAnalyzer.get_all_holders
                      (holder_analyzer 2000) token 0 (Some 1000) genesis) in
  HolderAnalyzer.get_all_holders (holder_analyzer 2000) token 0 (Some 1000) after
  = (inr [(pool, 30); (alice, 65)], after).
Proof. vm_compute. reflexivity. Qed.

(** C7 on the chain. *)
Lemma holders_exclude_zero_address_and_zero_balances_witness :
  exists w',
    HolderAnalyzer.get_all_holders (holder_analyzer 2000) token 0 (Some 1000) genesis
      = (inr [(pool, 30); (alice, 65)], w') /\
    holders_ok [(pool, 30); (alice, 65)].
Proof.
  eexists. split; [vm_compute; reflexivity|].
  apply (holders_exclude_zero_address_and_zero_balances
           (holder_analyzer 2000) token 0 (Some 1000) genesis
           {| queries := [(0, 1000)];
              store := [("holders_0x00000000000000000000000000000000000000f0",
                         [(pool, 30); (alice, 65)])] |}).
  - intros cached w1 _ Hhit. vm_compute in Hhit. discriminate Hhit.
  - vm_compute. reflexivity.
Defined.

(** C4 on a range of 2501 blocks where every request raises the capacity
    error. *)
Lemma scan_loop_always_terminates_witness :
  0 <= 2500 /\
  exists final addrs w',
    HolderAnalyzer.scan_loop (Z.to_nat (2500 + 1 - 0)) saturated_query 2500 (0, ∅) genesis
      = (inr (Some (final, addrs)), w') /\
    2500 < final.
Proof.
  split; [lia|].
  exact (proj2 (scan_loop_always_terminates saturated_query 0 2500 ltac:(lia)) genesis).
Defined.

(** The requests of that scan: each batch is asked once, then its first
    half; the last batch is too narrow to halve and is given up. *)
Example saturated_scan :
  HolderAnalyzer.scan_loop 2501 saturated_query 2500 (0, ∅) genesis
  = (inr (Some (2501, ∅)),
     {| queries := [(0, 1000); (0, 500); (501, 1501); (501, 1001);
                    (1002, 2002); (1002, 1502); (1503, 2500); (1503, 2001);
                    (2002, 2500); (2002, 2251); (2252, 2500); (2252, 2376);
                    (2377, 2500)];
        store := [] |}).
Proof. vm_compute. reflexivity. Qed.

(** C3, on the code: a provider that serves at most 500 blocks per
    request answers the batch 0..1000 with "Block range too large".  The
    claim has the scanner halve the batch and ask 0..500 again, which the
    provider serves, with the transfers of alice, bob and the pool.  The
    code asks once: [get_transfer_events] turns the error into an empty
    list, the [except] branch of the scan is not entered, the cursor moves
    past the batch and no holder is found.  The same loop over a query
    that lets the error through does ask 0..500 and 501..1000. *)
Theorem capacity_error_never_reaches_the_scan :
  HolderAnalyzer.get_all_holders (holder_analyzer 500) token 0 (Some 1000) genesis
  = (inr [],
     {| queries := [(0, 1000)];
        store := [("holders_0x00000000000000000000000000000000000000f0", [])] |}) /\
  eth_get_logs (provider 500) token 0 1000 genesis
  = (inl "Block range too large", record_query 0 1000 genesis) /\
  contains "block range too large" (lower "Block range too large") = true /\
  ContractReader.get_transfer_events (reader 500) 0 (Some 500) genesis
  = (inr decoded, record_query 0 500 genesis) /\
  length decoded = 4%nat /\
  HolderAnalyzer.scan_loop 1001 (raw_query 500) 1000 (0, ∅) genesis
  = (inr (Some (1001, {[ alice; bob; pool ]})),
     {| queries := [(0, 1000); (0, 500); (501, 1000)]; store := [] |}).
Proof. repeat split; vm_compute; reflexivity. Qed.

(** The report of that run: no holder, risk level "unknown". *)
Example empty_holder_report :
  HolderAnalyzer.analyze_holder_concentration (holder_analyzer 500) token 0 (Some 1000) genesis
  = (inr {| HolderAnalyzer.total_holders := 0;
            HolderAnalyzer.total_supply := 0;
            HolderAnalyzer.top10_holders := [];
            HolderAnalyzer.top10_percentage := 0.0;
            HolderAnalyzer.score := 0.0;
            HolderAnalyzer.risk_level := "unknown";
            HolderAnalyzer.error := Some "No holders found" |},
     {| queries := [(0, 1000)];
        store := [("holders_0x00000000000000000000000000000000000000f0", [])] |}).
Proof. vm_compute. reflexivity. Qed.

(** With twelve holders of balances 1 to 12 the ten largest hold 75 of
    78. *)
Example top10_of_twelve :
  HolderAnalyzer.sum (HolderAnalyzer.values
    (firstn 10 (HolderAnalyzer.sorted_desc twelve))) = 75 /\
  HolderAnalyzer.sum (HolderAnalyzer.values twelve) = 78.
Proof. split; reflexivity. Qed.

(** C6 on the twelve holders. *)
Lemma top10_share_of_observed_supply_witness :
  HolderAnalyzer.get_all_holders (holder_analyzer 2000) token 0 None cached_twelve
    = (inr twelve, cached_twelve) /\
  twelve <> [] /\
  (forall addr balance, (addr, balance) ∈ twelve -> 0 < balance) /\
  exists report,
    HolderAnalyzer.analyze_holder_concentration
      (holder_analyzer 2000) token 0 None cached_twelve
    = (inr report, cached_twelve) /\
    HolderAnalyzer.total_supply report = 78 /\
    HolderAnalyzer.top10_percentage report = (inject_Z 75 / inject_Z 78 * 100)%Q.
Proof.
  assert (Hrun : HolderAnalyzer.get_all_holders
                   (holder_analyzer 2000) token 0 None cached_twelve
                 = (inr twelve, cached_twelve)) by (vm_compute; reflexivity).
  assert (Hpos : forall addr balance, (addr, balance) ∈ twelve -> 0 < balance).
  { assert (Hall : Forall (fun entry => 0 < snd entry) twelve)
      by (repeat (constructor; [reflexivity|]); constructor).
    intros addr balance Hin.
    exact (proj1 (Forall_forall _ _) Hall (addr, balance) Hin). }
  split; [exact Hrun|]. split; [discriminate|]. split; [exact Hpos|].
  destruct (top10_share_of_observed_supply
              (holder_analyzer 2000) token 0 None cached_twelve cached_twelve twelve
              Hrun ltac:(discriminate) Hpos)
    as (report & Hreport & _ & _ & _ & Htotal & Hshare & _).
  exists report. split; [exact Hreport|]. split; [exact Htotal | exact Hshare].
Defined.

(** C10 on the four decoded events of the chain. *)
Lemma eoa_and_contract_sets_partition_participants_witness :
  decoded <> [] /\
  classifies_by (eoa_analyzer 2000) not_the_pool /\
  exists sets w',
    UniqueEOAAnalyzer.classify_events (eoa_analyzer 2000) decoded genesis
      = (inr sets, w') /\
    (size (UniqueEOAAnalyzer.eoa_addresses sets)
     + size (UniqueEOAAnalyzer.contract_addresses_set sets)
     = size (UniqueEOAAnalyzer.all_addresses sets))%nat.
Proof.
  assert (Hf : classifies_by (eoa_analyzer 2000) not_the_pool).
  { intros addr w. exists w. reflexivity. }
  split; [discriminate|]. split; [exact Hf|].
  destruct (eoa_and_contract_sets_partition_participants
              (eoa_analyzer 2000) not_the_pool decoded genesis
              ltac:(discriminate) Hf)
    as (sets & w' & Hrun & _ & _ & _ & _ & Hsize & _).
  exists sets, w'. split; [exact Hrun | exact Hsize].
Defined.

(** The activity analysis of the chain: three EOAs (the zero address
    counts as one here), one contract, four participants. *)
Example activity_of_the_chain :
  UniqueEOAAnalyzer.analyze_transfer_events (eoa_analyzer 2000) token 0 (Some 1000) 1 genesis
  = (inr {| UniqueEOAAnalyzer.unique_eoa_count := 3;
            UniqueEOAAnalyzer.unique_eoa_list :=
              [alice; bob; HolderAnalyzer.ZERO_ADDRESS];
            UniqueEOAAnalyzer.total_addresses := 4;
            UniqueEOAAnalyzer.contract_addresses := 1;
            UniqueEOAAnalyzer.eoa_percentage := Some (300 # 4)%Q;
            UniqueEOAAnalyzer.score := nearest 1.20%Q;
            UniqueEOAAnalyzer.risk_level := "high_risk";
            UniqueEOAAnalyzer.message := None;
            UniqueEOAAnalyzer.time_window_hours := Some 1;
            UniqueEOAAnalyzer.events_count := Some 4 |},
     record_query 0 1000 genesis).
Proof. vm_compute. reflexivity. Qed.

(** C8, as stated, fails on the risk level of the empty activity result:
    over blocks 5000 to 5100, where the token has no transfer, the
    analysis returns the text "high_risk", not "high". *)
Lemma empty_activity_result_is_not_high :
  exists result w',
    UniqueEOAAnalyzer.analyze_transfer_events
      (eoa_analyzer 2000) token 5000 (Some 5100) 1 genesis = (inr result, w') /\
    UniqueEOAAnalyzer.unique_eoa_count result = 0 /\
    UniqueEOAAnalyzer.score result = 0%Q /\
    UniqueEOAAnalyzer.risk_level result = "high_risk" /\
    UniqueEOAAnalyzer.risk_level result <> "high".
Proof.
  exists {| UniqueEOAAnalyzer.unique_eoa_count := 0;
            UniqueEOAAnalyzer.unique_eoa_list := [];
            UniqueEOAAnalyzer.total_addresses := 0;
            UniqueEOAAnalyzer.contract_addresses := 0;
            UniqueEOAAnalyzer.eoa_percentage := None;
            UniqueEOAAnalyzer.score := 0%Q;
            UniqueEOAAnalyzer.risk_level := "high_risk";
            UniqueEOAAnalyzer.message := Some "No transfer events found";
            UniqueEOAAnalyzer.time_window_hours := None;
            UniqueEOAAnalyzer.events_count := None |},
         (record_query 5000 5100 genesis).
  split; [vm_compute; reflexivity|].
  repeat split; try reflexivity. discriminate.
Qed.

(** The readers on a token whose calls revert. *)
Example defaults_on_a_reverting_token :
  ContractReader.get_name (reader 2000) genesis = (inr "Unknown", genesis) /\
  ContractReader.get_symbol (reader 2000) genesis = (inr "UNKNOWN", genesis) /\
  ContractReader.get_decimals (reader 2000) genesis = (inr 18, genesis) /\
  ContractReader.get_total_supply (reader 2000) genesis = (inr 0, genesis) /\
  ContractReader.get_balance (reader 2000) bob genesis = (inr 0, genesis) /\
  twice (ContractReader.get_balance (reader 2000) bob) genesis = (inr (0, 0), genesis).
Proof. repeat split; reflexivity. Qed.

End Runs.

(** ** The threshold functions on binary64 *)

Section Binary64Order.
Import SpecFloat.

Ltac sf_cases :=
  unfold SFltb, SFleb, SFcompare;
  repeat match goal with
    | |- context [match ?x with S754_zero _ => _ | _ => _ end] => destruct x
    | |- context [if ?s then _ else _] => destruct s
    end;
  repeat match goal with
    | |- context [PosDef.Pos.compare_cont Eq ?a ?b] =>
        change (PosDef.Pos.compare_cont Eq a b) with (Pos.compare a b)
    | |- context [Z.compare ?a ?b] => destruct (Z.compare_spec a b)
    | |- context [Pos.compare ?a ?b] => destruct (Pos.compare_spec a b)
    end;
  cbn; intros; subst; try congruence; try (exfalso; lia).

(** [x < c] excludes [c <= x]. *)
Lemma SFltb_not_ge (x c : spec_float) : SFltb x c = true -> SFleb c x = false.
Proof. sf_cases. Qed.

(** [c' <= c < x] excludes [x <= c']. *)
Lemma SFltb_above (x c c' : spec_float) :
  SFleb c' c = true -> SFltb c x = true -> SFleb x c' = false.
Proof. sf_cases. Qed.

(** [c' < c <= x] excludes [x <= c']. *)
Lemma SFleb_above (x c c' : spec_float) :
  SFltb c' c = true -> SFleb c x = true -> SFleb x c' = false.
Proof. sf_cases. Qed.

End Binary64Order.

Section Binary64Tables.
Import PrimFloat.
Local Open Scope float_scope.

Lemma float_lt_not_ge (p c : float) : (p <? c) = true -> (c <=? p) = false.
Proof.
  rewrite FloatAxioms.ltb_spec, FloatAxioms.leb_spec. apply SFltb_not_ge.
Qed.

Lemma float_lt_above (p c c' : float) :
  (c' <=? c) = true -> (c <? p) = true -> (p <=? c') = false.
Proof.
  rewrite FloatAxioms.ltb_spec, !FloatAxioms.leb_spec. apply SFltb_above.
Qed.

Lemma float_le_above (p c c' : float) :
  (c' <? c) = true -> (c <=? p) = true -> (p <=? c') = false.
Proof.
  rewrite FloatAxioms.ltb_spec, !FloatAxioms.leb_spec. apply SFleb_above.
Qed.

(** The risk tiers for every binary64 value [p] (infinities included; a
    NaN compares with nothing). *)
Lemma binary64_risk_tiers (p : float) :
  ((p <=? 20) = true -> Binary64._determine_risk_level p = "low_risk") /\
  ((20 <? p) = true -> (p <=? 40) = true ->
     Binary64._determine_risk_level p = "medium_risk") /\
  ((40 <? p) = true -> (p <=? 60) = true ->
     Binary64._determine_risk_level p = "high_risk") /\
  ((60 <? p) = true -> Binary64._determine_risk_level p = "extreme_risk").
Proof.
  unfold Binary64._determine_risk_level. repeat split.
  - intros ->. reflexivity.
  - intros H20 ->. now rewrite (float_lt_above p 20 20).
  - intros H40 ->.
    now rewrite (float_lt_above p 40 20), (float_lt_above p 40 40).
  - intros H60.
    now rewrite (float_lt_above p 60 20), (float_lt_above p 60 40),
      (float_lt_above p 60 60).
Qed.

(** The branch of the score taken by every binary64 value [p]; the
    arithmetic of the two sloped branches is the rounded one. *)
Lemma binary64_score_branches (p : float) :
  ((p <=? 20) = true -> Binary64._calculate_score p = 30) /\
  ((20 <? p) = true -> (p <=? 40) = true ->
     Binary64._calculate_score p = 30 - (p - 20) * 0.75) /\
  ((40 <? p) = true -> (p <? 80) = true ->
     Binary64._calculate_score p = 15 - (p - 40) * 0.375) /\
  ((80 <=? p) = true -> Binary64._calculate_score p = 0).
Proof.
  unfold Binary64._calculate_score. repeat split.
  - intros ->. reflexivity.
  - intros H20 ->. now rewrite (float_lt_above p 20 20).
  - intros H40 H80.
    now rewrite (float_lt_above p 40 20), (float_lt_above p 40 40),
      (float_lt_not_ge p 80).
  - intros H80.
    now rewrite (float_le_above p 80 20), (float_le_above p 80 40), H80.
Qed.

Example binary64_score_points :
  Binary64._calculate_score 0 = 30 /\
  Binary64._calculate_score 20 = 30 /\
  Binary64._calculate_score 25 = 26.25 /\
  Binary64._calculate_score 40 = 15 /\
  Binary64._calculate_score 60 = 7.5 /\
  Binary64._calculate_score 80 = 0 /\
  Binary64._calculate_score 100 = 0.
Proof. repeat split; reflexivity. Qed.

Example binary64_risk_points :
  Binary64._determine_risk_level 20 = "low_risk" /\
  Binary64._determine_risk_level 0x1.400068db8bac7p+4 = "medium_risk" /\
  Binary64._determine_risk_level 40 = "medium_risk" /\
  Binary64._determine_risk_level 60 = "high_risk" /\
  Binary64._determine_risk_level 0x1.e000346dc5d64p+5 = "extreme_risk".
Proof. repeat split; reflexivity. Qed.

End Binary64Tables.

(** ** The float model against the machine floats *)

Section MachineFloats.
Import PrimFloat.

(** [nearest] and the table on [nearest] values, replayed on the
    primitive binary64 floats: quotients of two ints, and the activity
    table at counts whose table value is a decimal tie (1/16, 3/16, 1/80)
    or is not (1/3, 60, 299.99). *)
Example float_model_replays_the_machine :
  Binary64.value (1 / 3)%float = Some (nearest (1 # 3)) /\
  Binary64.value (107 / 40)%float = Some (nearest (107 # 40)) /\
  Binary64.value (Binary64.activity_score_table (1 / 16)%float)
    = Some (fst (UniqueEOAAnalyzer.score_table (nearest (1 # 16)))) /\
  Binary64.value (Binary64.activity_score_table (3 / 16)%float)
    = Some (fst (UniqueEOAAnalyzer.score_table (nearest (3 # 16)))) /\
  Binary64.value (Binary64.activity_score_table (1 / 80)%float)
    = Some (fst (UniqueEOAAnalyzer.score_table (nearest (1 # 80)))) /\
  Binary64.value (Binary64.activity_score_table (1 / 3)%float)
    = Some (fst (UniqueEOAAnalyzer.score_table (nearest (1 # 3)))) /\
  Binary64.value (Binary64.activity_score_table (120 / 2)%float)
    = Some (fst (UniqueEOAAnalyzer.score_table (nearest (120 # 2)))) /\
  Binary64.value (Binary64.activity_score_table (29999 / 100)%float)
    = Some (fst (UniqueEOAAnalyzer.score_table (nearest (29999 # 100)))).
Proof. vm_compute. repeat split. Qed.

(** [round(x, 2)] rounds the value that the float holds: 107 / 40 is
    held as a float below 2.675 and rounds to 2.67; 0.125 and 0.375 are
    held exactly and round to the even hundredth. *)
Example round_rounds_the_float :
  (exists avg_tx, float_truediv 107 40 = inr avg_tx /\
                  (avg_tx < 2.675)%Q /\ round avg_tx 2 = nearest 2.67%Q) /\
  round (nearest 0.125%Q) 2 = nearest 0.12%Q /\
  round (nearest 0.375%Q) 2 = nearest 0.38%Q.
Proof.
  split; [eexists; split; [reflexivity|]|]; vm_compute; repeat split.
Qed.

End MachineFloats.

(** * Further properties of the three classes *)

(** ** contract_reader.py *)

Section ReaderMore.
Context {W : Type}.
Local Open Scope py_scope.

Lemma format_events_app (l1 l2 : list RawLog) :
  ContractReader.format_events (l1 ++ l2)
  = ContractReader.format_events l1 ++ ContractReader.format_events l2.
Proof.
  induction l1 as [|[e|event] l1 IH]; cbn; [reflexivity | exact IH | now rewrite IH].
Qed.

Lemma format_events_filter (logs : list RawLog) :
  map inr (ContractReader.format_events logs) = List.filter decodes logs.
Proof.
  induction logs as [|[e|event] logs IH]; cbn; [reflexivity | exact IH | now rewrite IH].
Qed.

Lemma format_events_length (logs : list RawLog) :
  (length (ContractReader.format_events logs) <= length logs)%nat.
Proof. induction logs as [|[e|event] logs IH]; cbn; lia. Qed.

(** X1. When the log request answers, [get_transfer_events] returns the
    logs that decode, in the order of the request and with nothing added:
    a log that does not decode is left out and the logs around it are
    kept. *)
Theorem transfer_events_are_the_decodable_logs
    (reader : ContractReader.t W) (from_block to_block : Z) (w w1 : W)
    (logs : list RawLog) :
  eth_get_logs (ContractReader.client reader) (ContractReader.contract_address reader)
               from_block to_block w = (inr logs, w1) ->
  exists events,
    ContractReader.get_transfer_events reader from_block (Some to_block) w
      = (inr events, w1) /\
    map inr events = List.filter decodes logs /\
    (length events <= length logs)%nat /\
    (Forall (fun log => decodes log = true) logs -> map inr events = logs) /\
    (forall before after e,
        logs = before ++ inl e :: after ->
        events = ContractReader.format_events before
                 ++ ContractReader.format_events after).
Proof.
  intros Hlogs. exists (ContractReader.format_events logs).
  rewrite get_transfer_events_run, Hlogs.
  split; [reflexivity|]. split; [apply format_events_filter|].
  split; [apply format_events_length|]. split.
  - intros Hall. rewrite format_events_filter. clear Hlogs.
    induction Hall as [|log rest Hlog _ IH]; [reflexivity|].
    destruct log as [e|event]; [discriminate Hlog|]. cbn. now rewrite IH.
  - intros before after e ->. now rewrite format_events_app.
Qed.

Lemma filter_step (web3 : Web3Client W) (filter : option string) (w : W)
    {A} (k : option address -> Py W A) (r : Py W A) :
  well_formed_filter web3 filter ->
  (forall x w1, k x w1 = r w1) ->
  bind (match ContractReader.given filter with
        | Some a => let* c := lift (to_checksum_address web3 a) in ret (Some c)
        | None => ret None
        end) k w = r w.
Proof.
  unfold well_formed_filter. intros Hwf Hk.
  destruct (ContractReader.given filter) as [a|].
  - destruct Hwf as (checksum & Hc). unfold bind, lift, ret. rewrite Hc. apply Hk.
  - unfold bind, ret. apply Hk.
Qed.

(** X2. An exception leaves [get_transfer_events] only from what runs
    before its [try]: the call of [get_block_number] for [to_block=None],
    and [to_checksum_address] on a non-empty [from_address] or
    [to_address], in which case no request is made.  With a block number
    and filters that are absent, empty or well formed it never raises,
    and the latest block stands in for [None]. *)
Theorem exceptions_come_from_before_the_try
    (reader : ContractReader.t W) (from_block : Z)
    (from_address to_address : option string) (w : W) :
  (well_formed_filter (ContractReader.client reader) from_address ->
   well_formed_filter (ContractReader.client reader) to_address ->
   forall to_block,
     exists events w',
       ContractReader.get_transfer_events_with_filters
         reader from_block (Some to_block) from_address to_address w
       = (inr events, w')) /\
  (forall to_block a e,
      ContractReader.given from_address = Some a ->
      to_checksum_address (ContractReader.client reader) a = inl e ->
      ContractReader.get_transfer_events_with_filters
        reader from_block (Some to_block) from_address to_address w
      = (inl e, w)) /\
  (forall to_block a e,
      well_formed_filter (ContractReader.client reader) from_address ->
      ContractReader.given to_address = Some a ->
      to_checksum_address (ContractReader.client reader) a = inl e ->
      ContractReader.get_transfer_events_with_filters
        reader from_block (Some to_block) from_address to_address w
      = (inl e, w)) /\
  (forall e w1,
      get_block_number (ContractReader.client reader) w = (inl e, w1) ->
      ContractReader.get_transfer_events_with_filters
        reader from_block None from_address to_address w
      = (inl e, w1)) /\
  (forall latest w1,
      get_block_number (ContractReader.client reader) w = (inr latest, w1) ->
      ContractReader.get_transfer_events_with_filters
        reader from_block None from_address to_address w
      = ContractReader.get_transfer_events_with_filters
          reader from_block (Some latest) from_address to_address w1).
Proof.
  split; [|split; [|split; [|split]]].
  - intros Hfrom Hto to_block.
    unfold ContractReader.get_transfer_events_with_filters.
    rewrite (bind_run (ret to_block) _ w w to_block eq_refl).
    rewrite (filter_step _ from_address w _
               (ContractReader.get_transfer_events reader from_block (Some to_block))
               Hfrom).
    + apply get_transfer_events_never_raises.
    + intros x w1. apply filter_step; [exact Hto|]. intros y w2. reflexivity.
  - intros to_block a e Hgiven Hc.
    unfold ContractReader.get_transfer_events_with_filters.
    rewrite (bind_run (ret to_block) _ w w to_block eq_refl).
    rewrite Hgiven. unfold bind, lift. now rewrite Hc.
  - intros to_block a e Hfrom Hgiven Hc.
    unfold ContractReader.get_transfer_events_with_filters.
    rewrite (bind_run (ret to_block) _ w w to_block eq_refl).
    apply filter_step; [exact Hfrom|]. intros x w1.
    rewrite Hgiven. unfold bind, lift. now rewrite Hc.
  - intros e w1 H.
    unfold ContractReader.get_transfer_events_with_filters, bind. now rewrite H.
  - intros latest w1 H.
    unfold ContractReader.get_transfer_events_with_filters.
    unfold bind at 1. rewrite H. reflexivity.
Qed.

(** X3. The [from_address] and [to_address] arguments of
    [get_transfer_events] do not filter: with filters that are absent,
    empty or well-formed addresses, the call returns what it returns
    without them. *)
Theorem address_filters_do_not_filter
    (reader : ContractReader.t W) (from_block : Z) (to_block : option Z)
    (from_address to_address : option string) (w : W) :
  well_formed_filter (ContractReader.client reader) from_address ->
  well_formed_filter (ContractReader.client reader) to_address ->
  ContractReader.get_transfer_events_with_filters
    reader from_block to_block from_address to_address w
  = ContractReader.get_transfer_events reader from_block to_block w.
Proof.
  intros Hfrom Hto.
  unfold ContractReader.get_transfer_events_with_filters,
    ContractReader.get_transfer_events.
  apply bind_ext. intros b w1.
  apply filter_step; [exact Hfrom|]. intros _ w2.
  apply filter_step; [exact Hto | reflexivity].
Qed.

Lemma returns_bind {A B} (m : Py W A) (k : A -> Py W B) :
  returns m -> (forall a, returns (k a)) -> returns (bind m k).
Proof.
  intros Hm Hk w. destruct (Hm w) as (a & w1 & Ha).
  rewrite (bind_run _ _ _ _ _ Ha). apply Hk.
Qed.

Lemma returns_ret {A} (a : A) : returns (ret a : Py W A).
Proof. intros w. now exists a, w. Qed.

Lemma returns_try_default {A} (call : Py W A) (default : A) :
  returns (try_except call (fun _ => ret default)).
Proof. intros w. apply try_except_total. intros e w1. now exists default, w1. Qed.

Lemma try_default_on_stable {A} (call : Py W A) (r : exn + A) (default : A) (w : W) :
  answers call r ->
  try_except call (fun _ => ret default) w = (inr (or_default r default), w).
Proof. intros H. unfold try_except. rewrite H. now destruct r. Qed.

(** X4. [get_token_info], [get_total_supply_human] and
    [get_balance_human] (on an address that [to_checksum_address]
    accepts) never raise, whatever the calls to the contract do. *)
Theorem readable_token_data_never_raises (reader : ContractReader.t W) :
  returns (ContractReader.get_token_info reader) /\
  returns (ContractReader.get_total_supply_human reader) /\
  (forall addr checksum,
      to_checksum_address (ContractReader.client reader) addr = inr checksum ->
      returns (ContractReader.get_balance_human reader addr)).
Proof.
  assert (Hhuman : returns (ContractReader.get_total_supply_human reader)).
  { apply returns_bind; [apply returns_try_default|]. intros total.
    apply returns_bind; [apply returns_try_default|]. intros decimals.
    apply returns_ret. }
  split; [|split; [exact Hhuman|]].
  - repeat (apply returns_bind; [first [apply returns_try_default | exact Hhuman]|];
            intros ?).
    apply returns_ret.
  - intros addr checksum Hc.
    apply returns_bind.
    + rewrite (get_balance_run _ _ _ Hc). apply returns_try_default.
    + intros balance. apply returns_bind; [apply returns_try_default|].
      intros decimals. apply returns_ret.
Qed.

(** X5. On a chain where each metadata call of the token gives the same
    answer every time, [get_token_info] returns the contract address, each
    answer or its default ("Unknown", "UNKNOWN", 18, 0) where the call
    raises, and a readable supply that is the reported [total_supply]
    divided by 10 to the reported [decimals]. *)
Theorem token_info_on_a_stable_chain (reader : ContractReader.t W)
    (name symbol : exn + string) (decimals total_supply : exn + Z) (w : W) :
  let web3 := ContractReader.client reader in
  let token := ContractReader.contract_address reader in
  answers (call_name web3 token) name ->
  answers (call_symbol web3 token) symbol ->
  answers (call_decimals web3 token) decimals ->
  answers (call_totalSupply web3 token) total_supply ->
  ContractReader.get_token_info reader w
  = (inr {| ContractReader.info_address := token;
            ContractReader.info_name := or_default name "Unknown";
            ContractReader.info_symbol := or_default symbol "UNKNOWN";
            ContractReader.info_decimals := or_default decimals 18;
            ContractReader.info_total_supply := or_default total_supply 0;
            ContractReader.info_total_supply_human :=
              ContractReader.scaled (or_default total_supply 0)
                                    (or_default decimals 18) |}, w).
Proof.
  intros web3 token Hn Hs Hd Ht.
  unfold ContractReader.get_token_info, ContractReader.get_total_supply_human,
    ContractReader.get_name, ContractReader.get_symbol,
    ContractReader.get_decimals, ContractReader.get_total_supply.
  fold web3 token.
  rewrite (bind_run _ _ _ _ _ (try_default_on_stable _ _ _ w Hn)).
  rewrite (bind_run _ _ _ _ _ (try_default_on_stable _ _ _ w Hs)).
  rewrite (bind_run _ _ _ _ _ (try_default_on_stable _ _ _ w Hd)).
  rewrite (bind_run _ _ _ _ _ (try_default_on_stable _ _ _ w Ht)).
  unfold bind at 1.
  rewrite (bind_run _ _ _ _ _ (try_default_on_stable _ _ _ w Ht)).
  rewrite (bind_run _ _ _ _ _ (try_default_on_stable _ _ _ w Hd)).
  reflexivity.
Qed.

End ReaderMore.

(** ** holder_analysis.py: the scan *)

Section ScanMore.
Import HolderAnalyzer.
Context {W : Type}.
Local Open Scope py_scope.

Lemma add_event_spec (addrs : gset address) (event : TransferEvent) :
  add_event addrs event
  = addrs ∪ (({[ from event ]} ∪ {[ to event ]}) ∖ {[ ZERO_ADDRESS ]}).
Proof.
  unfold add_event. apply set_eq. intros x.
  destruct (String.eqb_spec (from event) ZERO_ADDRESS) as [Ef|Ef];
    destruct (String.eqb_spec (to event) ZERO_ADDRESS) as [Et|Et];
    cbn [negb];
    rewrite ?elem_of_union, ?elem_of_difference, ?elem_of_union, ?elem_of_singleton;
    intuition congruence.
Qed.

Lemma add_events_elem (events : list TransferEvent) :
  forall (addrs : gset address) (x : address),
    x ∈ add_events addrs events
    <-> x ∈ addrs \/ (x ∈ participants events /\ x <> ZERO_ADDRESS).
Proof.
  unfold add_events.
  induction events as [|event events IH]; intros addrs x; cbn [foldl participants foldr].
  - rewrite elem_of_empty. tauto.
  - fold (participants events).
    rewrite IH, add_event_spec.
    rewrite ?elem_of_union, ?elem_of_difference, ?elem_of_union, ?elem_of_singleton.
    tauto.
Qed.

(** X6. Scanning a list of events adds to the address set the senders
    and recipients of the events, except the zero address, and nothing
    else; what the set held before stays. *)
Theorem add_events_adds_the_nonzero_participants
    (addrs : gset address) (events : list TransferEvent) :
  add_events addrs events = addrs ∪ (participants events ∖ {[ ZERO_ADDRESS ]}).
Proof.
  apply set_eq. intros x.
  rewrite add_events_elem, elem_of_union, elem_of_difference, elem_of_singleton.
  tauto.
Qed.

Lemma batches_tile (to_block : Z) (fuel : nat) :
  forall current,
    to_block + 1 - current <= Z.of_nat fuel -> current <= to_block + 1 ->
    tiles current to_block (batches fuel current to_block).
Proof.
  induction fuel as [|fuel IH]; intros current Hfuel Hle; cbn [batches tiles].
  - lia.
  - destruct (Z.leb_spec current to_block) as [Hin|Hout]; cbn [tiles]; [|lia].
    unfold BATCH_SIZE. repeat split; try lia.
    apply IH; lia.
Qed.

Lemma scan_loop_by_batches (reader : ContractReader.t W) (to_block : Z) (fuel : nat) :
  forall current addrs w,
    to_block + 1 - current <= Z.of_nat fuel -> current <= to_block + 1 ->
    exists addrs' w',
      for_each (batches fuel current to_block) (ask_batch reader) addrs w
        = (inr addrs', w') /\
      scan_loop fuel
        (fun a b => ContractReader.get_transfer_events reader a (Some b))
        to_block (current, addrs) w
        = (inr (Some (to_block + 1, addrs')), w').
Proof.
  induction fuel as [|fuel IH]; intros current addrs w Hfuel Hle;
    cbn [batches scan_loop fst for_each].
  - destruct (Z.leb_spec current to_block); [lia|].
    exists addrs, w. split; [reflexivity|].
    replace current with (to_block + 1) by lia. reflexivity.
  - destruct (Z.leb_spec current to_block) as [Hin|Hout].
    + cbn [for_each].
      set (batch_end := Z.min (current + BATCH_SIZE) to_block).
      assert (Hstep : exists addrs1 w1,
        ask_batch reader addrs (current, batch_end) w = (inr addrs1, w1) /\
        scan_batch (fun a b => ContractReader.get_transfer_events reader a (Some b))
                   to_block (current, addrs) w = (inr (batch_end + 1, addrs1), w1)).
      { rewrite scan_batch_over_reader. fold batch_end.
        unfold ask_batch, bind. cbn [fst snd]. rewrite get_transfer_events_run.
        destruct (eth_get_logs _ _ current batch_end w) as [[e|logs] w1];
          eexists _, _; split; reflexivity. }
      destruct Hstep as (addrs1 & w1 & Hask & Hscan).
      rewrite (bind_run _ _ _ _ _ Hask), (bind_run _ _ _ _ _ Hscan).
      apply IH; unfold batch_end, BATCH_SIZE; lia.
    + exists addrs, w. split; [reflexivity|].
      replace current with (to_block + 1) by lia. reflexivity.
Qed.

(** X7. Over the reader of [contract_reader.py] the scan of
    [from_block .. to_block] makes one request per batch and no other:
    the batches follow one another without gap or overlap from
    [from_block] to [to_block], each of 1001 blocks ([BATCH_SIZE + 1]) but
    the last, and the scan ends with the cursor at [to_block + 1] and the
    addresses of the batches that answered. *)
Theorem scan_asks_consecutive_batches (reader : ContractReader.t W)
    (from_block to_block : Z) (addrs : gset address) (w : W) :
  from_block <= to_block ->
  let fuel := Z.to_nat (to_block + 1 - from_block) in
  tiles from_block to_block (batches fuel from_block to_block) /\
  exists addrs' w',
    for_each (batches fuel from_block to_block) (ask_batch reader) addrs w
      = (inr addrs', w') /\
    scan_loop fuel (fun a b => ContractReader.get_transfer_events reader a (Some b))
              to_block (from_block, addrs) w
      = (inr (Some (to_block + 1, addrs')), w').
Proof.
  intros Hrange fuel. split.
  - apply batches_tile; unfold fuel; lia.
  - apply scan_loop_by_batches; unfold fuel; lia.
Qed.

End ScanMore.

(** ** holder_analysis.py: the holder mapping and its cache *)

Section HoldersMore.
Import HolderAnalyzer.
Context {W : Type}.
Local Open Scope py_scope.


Lemma dict_set_fresh (holders : Holders) (addr : address) (balance : Z) :
  addr ∉ map fst holders -> dict_set holders addr balance = holders ++ [(addr, balance)].
Proof.
  induction holders as [|[a b] rest IH]; cbn [dict_set map fst app]; intros Hfresh.
  - reflexivity.
  - rewrite not_elem_of_cons in Hfresh. destruct Hfresh as [Hne Hfresh].
    destruct (String.eqb_spec a addr) as [->|_]; [contradiction|].
    now rewrite IH.
Qed.

Lemma kept_key (balance_of : address -> exn + Z) (addr : address) (entry : address * Z) :
  kept balance_of addr = Some entry -> fst entry = addr.
Proof.
  unfold kept. destruct (balance_of addr) as [e|b]; [discriminate|].
  destruct (b >? 0)%Z; [|discriminate]. now intros [= <-].
Qed.

Lemma omap_kept_keys (balance_of : address -> exn + Z) (addrs : list address) (a : address) :
  a ∈ map fst (omap (kept balance_of) addrs) -> a ∈ addrs.
Proof.
  induction addrs as [|x rest IH]; cbn [omap list_omap]; [easy|].
  destruct (kept balance_of x) as [entry|] eqn:E.
  - pose proof (kept_key _ _ _ E) as Hk. cbn. rewrite !elem_of_cons.
    intros [->|Hin]; [left; exact Hk | right; now apply IH].
  - rewrite elem_of_cons. intros Hin. right. now apply IH.
Qed.

Lemma collect_on_stable_reads (reader : ContractReader.t W)
    (balance_of : address -> exn + Z) (w : W) :
  (forall a, answers (ContractReader.get_balance reader a) (balance_of a)) ->
  forall (addrs : list address) (holders : Holders),
    NoDup addrs ->
    (forall a, a ∈ map fst holders -> a ∉ addrs) ->
    for_each addrs
      (fun holders addr =>
         try_except
           (let* balance := ContractReader.get_balance reader addr in
            if (balance >? 0)%Z then ret (dict_set holders addr balance)
            else ret holders)
           (fun _ => ret holders))
      holders w
    = (inr (holders ++ omap (kept balance_of) addrs), w).
Proof.
  intros Hread addrs. induction addrs as [|a rest IH]; intros holders Hnodup Hfresh.
  - cbn. now rewrite app_nil_r.
  - apply NoDup_cons in Hnodup as [Ha Hnodup].
    cbn [for_each omap list_omap].
    assert (Hstep :
      try_except
        (let* balance := ContractReader.get_balance reader a in
         if (balance >? 0)%Z then ret (dict_set holders a balance) else ret holders)
        (fun _ => ret holders) w
      = (inr (holders ++ option_list (kept balance_of a)), w)).
    { unfold try_except, bind, kept. rewrite (Hread a w).
      destruct (balance_of a) as [e|b]; cbn; [now rewrite app_nil_r|].
      destruct (b >? 0)%Z; cbn; [|now rewrite app_nil_r].
      rewrite dict_set_fresh; [reflexivity|].
      intros Hin. apply (Hfresh a Hin). apply list_elem_of_here. }
    rewrite (bind_run _ _ _ _ _ Hstep). rewrite IH.
    + rewrite <- app_assoc. destruct (kept balance_of a); reflexivity.
    + exact Hnodup.
    + intros x Hx. rewrite map_app, elem_of_app in Hx. destruct Hx as [Hx|Hx].
      * specialize (Hfresh x Hx). rewrite not_elem_of_cons in Hfresh. tauto.
      * destruct (kept balance_of a) as [entry|] eqn:E; cbn in Hx.
        -- apply list_elem_of_singleton in Hx. rewrite (kept_key _ _ _ E) in Hx.
           now subst x.
        -- apply elem_of_nil in Hx. contradiction.
Qed.

Lemma omap_kept_nodup (balance_of : address -> exn + Z) (addrs : list address) :
  NoDup addrs -> NoDup (map fst (omap (kept balance_of) addrs)).
Proof.
  intros Hnodup.
  induction Hnodup as [|x rest Hx Hnodup IH]; cbn [omap list_omap]; [constructor|].
  destruct (kept balance_of x) as [entry|] eqn:E; cbn [map]; [|exact IH].
  constructor; [|exact IH].
  rewrite (kept_key _ _ _ E). intros Hin. apply Hx.
  now apply (omap_kept_keys balance_of).
Qed.

Lemma omap_kept_elem (balance_of : address -> exn + Z) (addrs : list address)
    (a : address) (b : Z) :
  (a, b) ∈ omap (kept balance_of) addrs
  <-> a ∈ addrs /\ balance_of a = inr b /\ 0 < b.
Proof.
  rewrite list_elem_of_omap. split.
  - intros (x & Hx & Hk).
    unfold kept in Hk. destruct (balance_of x) as [e|bx] eqn:E; [discriminate|].
    destruct (Z.gtb_spec bx 0); [|discriminate].
    injection Hk as <- <-. repeat split; [exact Hx | exact E | lia].
  - intros (Ha & Hb & Hpos). exists a. split; [exact Ha|].
    unfold kept. rewrite Hb. destruct (Z.gtb_spec b 0); [reflexivity | lia].
Qed.

(** X9. When the balance reads give the same answer every time, the
    balance pass returns exactly the scanned addresses whose read gives a
    positive balance, each once and with that balance; an address whose
    read raises, or gives 0, is left out. *)
Theorem balance_pass_keeps_the_positive_balances (reader : ContractReader.t W)
    (balance_of : address -> exn + Z) (addrs : gset address) (w : W) :
  (forall a, answers (ContractReader.get_balance reader a) (balance_of a)) ->
  exists holders,
    collect_balances reader addrs w = (inr holders, w) /\
    holders = omap (kept balance_of) (elements addrs) /\
    NoDup (map fst holders) /\
    (forall a b, (a, b) ∈ holders <-> a ∈ addrs /\ balance_of a = inr b /\ 0 < b).
Proof.
  intros Hread. exists (omap (kept balance_of) (elements addrs)).
  split; [|split; [reflexivity|split]].
  - unfold collect_balances.
    rewrite (collect_on_stable_reads reader balance_of w Hread (elements addrs) []);
      [reflexivity | apply NoDup_elements |].
    intros a Ha. cbn in Ha. apply elem_of_nil in Ha. contradiction.
  - apply omap_kept_nodup, NoDup_elements.
  - intros a b. now rewrite omap_kept_elem, elem_of_elements.
Qed.

Lemma ask_batches_run (reader : ContractReader.t W) (logs : Z -> Z -> exn + list RawLog) :
  (forall a b w, exists w',
      eth_get_logs (ContractReader.client reader) (ContractReader.contract_address reader)
                   a b w = (logs a b, w')) ->
  forall (ranges : list (Z * Z)) (addrs : gset address) (w : W),
  exists addrs' w',
    for_each ranges (ask_batch reader) addrs w = (inr addrs', w') /\
    forall x, x ∈ addrs' <-> x ∈ addrs \/ (x ∈ seen_in logs ranges /\ x <> ZERO_ADDRESS).
Proof.
  intros Hlogs ranges.
  induction ranges as [|[a b] ranges IH]; intros addrs w; cbn [for_each seen_in foldr].
  - exists addrs, w. split; [reflexivity|]. intros x. rewrite elem_of_empty. tauto.
  - fold (seen_in logs ranges).
    destruct (Hlogs a b w) as (w1 & Hab).
    set (events := match logs a b with
                   | inr found => ContractReader.format_events found
                   | inl _ => []
                   end).
    assert (Hstep : ask_batch reader addrs (a, b) w
                    = (inr (add_events addrs events), w1)).
    { unfold ask_batch, bind. cbn [fst snd].
      rewrite get_transfer_events_run, Hab. unfold events.
      destruct (logs a b); reflexivity. }
    rewrite (bind_run _ _ _ _ _ Hstep).
    destruct (IH (add_events addrs events) w1) as (addrs' & w' & Hrun & Hin).
    exists addrs', w'. split; [exact Hrun|].
    intros x. rewrite Hin, add_events_elem, elem_of_union. cbn [fst snd].
    unfold events. destruct (logs a b) as [e|found].
    + cbn [participants foldr]. rewrite !elem_of_empty. tauto.
    + tauto.
Qed.

Lemma scan_loop_outside (query : Z -> Z -> Py W (list TransferEvent))
    (fuel : nat) (to_block current : Z) (addrs : gset address) (w : W) :
  to_block < current ->
  batches fuel current to_block = [] /\
  scan_loop fuel query to_block (current, addrs) w = (inr (Some (current, addrs)), w).
Proof.
  intros Hout. destruct fuel; cbn [batches scan_loop fst];
    destruct (Z.leb_spec current to_block); try lia; split; reflexivity.
Qed.

(** X20. Without the cache, on a chain whose log requests and balance
    reads give the same answers every time, [get_all_holders] returns
    exactly the addresses other than the zero address that send or
    receive in a decodable log of one of the batches of the range and
    whose balance read gives a positive balance, each once and with that
    balance.  A batch whose request raises contributes nothing. *)
Theorem holders_are_the_funded_participants (self : HolderAnalyzer.t W)
    (token_address : string) (checksum : address) (from_block to_block : Z)
    (logs : Z -> Z -> exn + list RawLog) (balance_of : address -> exn + Z) (w : W) :
  use_cache self = false ->
  to_checksum_address (client self) token_address = inr checksum ->
  (forall a b w, exists w', eth_get_logs (client self) checksum a b w = (logs a b, w')) ->
  (forall a,
      answers (ContractReader.get_balance
                 {| ContractReader.client := client self;
                    ContractReader.contract_address := checksum |} a)
              (balance_of a)) ->
  exists holders w',
    get_all_holders self token_address from_block (Some to_block) w = (inr holders, w') /\
    NoDup (map fst holders) /\
    forall a b,
      (a, b) ∈ holders
      <-> a ∈ seen_in logs (batches (Z.to_nat (to_block + 1 - from_block))
                                    from_block to_block) /\
          a <> ZERO_ADDRESS /\ balance_of a = inr b /\ 0 < b.
Proof.
  intros Hcache Hchecksum Hlogs Hread.
  set (reader := {| ContractReader.client := client self;
                    ContractReader.contract_address := checksum |}) in *.
  set (fuel := Z.to_nat (to_block + 1 - from_block)).
  assert (Hscan : exists cursor addrs w',
    scan_loop fuel (fun a b => ContractReader.get_transfer_events reader a (Some b))
              to_block (from_block, ∅) w = (inr (Some (cursor, addrs)), w') /\
    forall x, x ∈ addrs
              <-> x ∈ seen_in logs (batches fuel from_block to_block)
                  /\ x <> ZERO_ADDRESS).
  { destruct (Z.le_gt_cases from_block to_block) as [Hin|Hout].
    - destruct (scan_loop_by_batches reader to_block fuel from_block ∅ w)
        as (addrs & w' & Hasked & Hloop); [unfold fuel; lia | lia |].
      destruct (ask_batches_run reader logs Hlogs (batches fuel from_block to_block) ∅ w)
        as (addrs2 & w2 & Hasked2 & Hseen).
      rewrite Hasked in Hasked2. injection Hasked2 as <- <-.
      exists (to_block + 1), addrs, w'. split; [exact Hloop|].
      intros x. rewrite Hseen, elem_of_empty. tauto.
    - destruct (scan_loop_outside
                  (fun a b => ContractReader.get_transfer_events reader a (Some b))
                  fuel to_block from_block ∅ w Hout) as [Hnone Hloop].
      exists from_block, ∅, w. split; [exact Hloop|].
      intros x. rewrite Hnone. cbn. rewrite elem_of_empty. tauto. }
  destruct Hscan as (cursor & addrs & w' & Hloop & Hseen).
  exists (omap (kept balance_of) (elements addrs)), w'.
  split.
  - assert (Hinit : ContractReader.__init__ (client self) token_address w
                    = (inr reader, w)).
    { unfold ContractReader.__init__, bind, lift. now rewrite Hchecksum. }
    assert (Hcollect : collect_balances reader addrs w'
                       = (inr (omap (kept balance_of) (elements addrs)), w')).
    { unfold collect_balances.
      rewrite (collect_on_stable_reads reader balance_of w' Hread (elements addrs) []);
        [reflexivity | apply NoDup_elements |].
      intros a Ha. cbn in Ha. apply elem_of_nil in Ha. contradiction. }
    unfold get_all_holders. rewrite Hcache.
    rewrite (bind_run (ret None) _ w w None eq_refl).
    rewrite (bind_run _ _ _ _ _ Hinit).
    rewrite (bind_run (ret to_block) _ w w to_block eq_refl).
    fold fuel. rewrite (bind_run _ _ _ _ _ Hloop).
    rewrite (bind_run _ _ _ _ _ Hcollect).
    reflexivity.
  - split; [apply omap_kept_nodup, NoDup_elements|].
    intros a b. rewrite omap_kept_elem, elem_of_elements, Hseen. tauto.
Qed.

End HoldersMore.

(** ** holder_analysis.py: the report *)

Section ReportMore.
Import HolderAnalyzer.
Context {W : Type}.
Local Open Scope py_scope.

(** The report for a non-empty mapping with positive balances. *)
Lemma concentration_report_run (self : HolderAnalyzer.t W)
    (token_address : string) (from_block : Z) (to_block : option Z)
    (w w' : W) (holders : Holders) :
  get_all_holders self token_address from_block to_block w = (inr holders, w') ->
  holders <> [] ->
  (forall addr balance, (addr, balance) ∈ holders -> 0 < balance) ->
  let total := sum (values holders) in
  let top10 := firstn 10 (sorted_desc holders) in
  let share := (inject_Z (sum (values top10)) / inject_Z total * 100)%Q in
  analyze_holder_concentration self token_address from_block to_block w
  = (inr {| total_holders := Z.of_nat (length holders);
            total_supply := total;
            top10_holders := map (listed total) top10;
            top10_percentage := share;
            score := _calculate_score share;
            risk_level := _determine_risk_level share;
            error := None |}, w').
Proof.
  intros Hget Hne Hpos total top10 share.
  pose proof (sum_values_pos holders Hne Hpos) as Htotal. fold total in Htotal.
  unfold analyze_holder_concentration.
  rewrite (bind_run _ _ _ _ _ Hget).
  destruct (Nat.eqb_spec (length holders) 0) as [Hlen|_].
  { destruct holders; [contradiction | discriminate Hlen]. }
  fold total. fold top10.
  destruct (Z.gtb_spec total 0) as [_|?]; [|lia].
  rewrite (bind_run _ _ w' w' share); cycle 1.
  { unfold bind, lift, truediv.
    destruct (Z.eqb_spec total 0) as [E|_]; [lia | reflexivity]. }
  unfold bind at 1. rewrite format_top10_run by lia. cbn [app].
  assert (Hlisted :
    map (fun '(addr, balance) =>
           (addr, balance, (inject_Z balance / inject_Z total * 100)%Q)) top10
    = map (listed total) top10) by (apply map_ext; now intros [a b]).
  rewrite Hlisted. reflexivity.
Qed.

Lemma sum_values_app (xs ys : list (address * Z)) :
  sum (values (xs ++ ys)) = sum (values xs) + sum (values ys).
Proof. unfold sum, values. induction xs as [|x xs IH]; cbn; lia. Qed.

Lemma sum_values_at_least (c : Z) (xs : list (address * Z)) :
  Forall (fun x => c <= snd x) xs -> Z.of_nat (length xs) * c <= sum (values xs).
Proof. unfold sum, values. induction 1; cbn [length map foldr]; lia. Qed.

Lemma sum_values_at_most (c : Z) (xs : list (address * Z)) :
  Forall (fun x => snd x <= c) xs -> sum (values xs) <= Z.of_nat (length xs) * c.
Proof. unfold sum, values. induction 1; cbn [length map foldr]; lia. Qed.

(** The first [k] entries of a descending list weigh at least [k] times
    the average. *)
Lemma first_k_beat_the_average (items : list (address * Z)) (k : nat) :
  descending items -> (k <= length items)%nat ->
  Z.of_nat k * sum (values items)
  <= Z.of_nat (length items) * sum (values (firstn k items)).
Proof.
  intros Hsorted Hk. unfold descending in Hsorted.
  rewrite <- (take_drop k items) in Hsorted.
  pose proof (take_drop k items) as Hsplit.
  assert (Hlen : length (firstn k items) = k) by (rewrite length_take; lia).
  rewrite <- Hsplit at 1 2. rewrite sum_values_app, length_app, Hlen.
  destruct (drop k items) as [|y rest] eqn:Hdrop.
  - cbn [length]. change (sum (values [])) with 0. lia.
  - set (c := snd y).
    assert (Htop : Forall (fun x => c <= snd x) (firstn k items)).
    { apply Forall_forall. intros x Hx.
      apply (StronglySorted_app_1_elem_of _ _ _ x y Hsorted Hx).
      apply list_elem_of_here. }
    assert (Hrest : Forall (fun x => snd x <= c) (y :: rest)).
    { apply StronglySorted_app_1_r in Hsorted.
      apply StronglySorted_inv in Hsorted as [_ Hall].
      constructor; [unfold c; lia | exact Hall]. }
    apply sum_values_at_least in Htop. apply sum_values_at_most in Hrest.
    rewrite Hlen in Htop.
    set (top := sum (values (firstn k items))) in *.
    set (low := sum (values (y :: rest))) in *.
    set (m := Z.of_nat (length (y :: rest))) in *.
    assert (0 <= m) by (unfold m; lia).
    assert (0 <= Z.of_nat k) by lia.
    rewrite Nat2Z.inj_add. fold m. nia.
Qed.

Lemma share_as_ratio (top total : Z) :
  0 < total ->
  exists ratio : Q,
    (inject_Z top / inject_Z total * 100 == ratio * 100)%Q /\
    (ratio * inject_Z total == inject_Z top)%Q.
Proof.
  intros Htotal. exists (inject_Z top / inject_Z total)%Q. split; [reflexivity|].
  field. intros H. unfold Qeq in H. cbn in H. lia.
Qed.

(** X10. For a non-empty mapping with positive balances the top-10 share
    lies in (0, 100]; it is 100 with at most 10 holders, and at least
    1000 / n with n >= 10 holders.  So a token with at most 12 holders
    always gets score 0 and the extreme tier, and the full score 30 takes
    at least 50 holders. *)
Theorem few_holders_cannot_score (self : HolderAnalyzer.t W)
    (token_address : string) (from_block : Z) (to_block : option Z)
    (w w' : W) (holders : Holders) :
  get_all_holders self token_address from_block to_block w = (inr holders, w') ->
  holders <> [] ->
  (forall addr balance, (addr, balance) ∈ holders -> 0 < balance) ->
  exists report,
    analyze_holder_concentration self token_address from_block to_block w
      = (inr report, w') /\
    total_holders report = Z.of_nat (length holders) /\
    (0 < top10_percentage report <= 100)%Q /\
    (total_holders report <= 10 -> (top10_percentage report == 100)%Q) /\
    (10 <= total_holders report ->
     (1000 <= inject_Z (total_holders report) * top10_percentage report)%Q) /\
    (total_holders report <= 12 ->
     (score report == 0)%Q /\ risk_level report = "extreme_risk") /\
    ((score report == 30)%Q -> 50 <= total_holders report).
Proof.
  intros Hget Hne Hpos.
  rewrite (concentration_report_run self token_address from_block to_block
             w w' holders Hget Hne Hpos).
  eexists. split; [reflexivity|].
  cbn [total_holders top10_percentage score risk_level].
  split; [reflexivity|].
  pose proof (sum_values_pos holders Hne Hpos) as Htotal.
  pose proof (sorted_desc_perm holders) as Hperm.
  pose proof (sorted_desc_descending holders) as Hsorted.
  set (ranked := sorted_desc holders) in *.
  set (n := Z.of_nat (length holders)).
  set (total := sum (values holders)) in *.
  set (top := sum (values (firstn 10 ranked))).
  assert (Hnonneg : Forall (fun x : address * Z => 0 <= snd x) ranked).
  { apply Forall_forall. intros [a b] Hin. cbn.
    apply Z.lt_le_incl, (Hpos a). now rewrite <- Hperm. }
  assert (Hsplit : total = top + sum (values (drop 10 ranked))).
  { unfold total, top. rewrite <- (sum_values_perm _ _ Hperm).
    now rewrite <- sum_values_app, take_drop. }
  assert (Hrest : 0 <= sum (values (drop 10 ranked))).
  { apply sum_values_nonneg, Forall_drop, Hnonneg. }
  assert (Hlen : length ranked = length holders) by now apply Permutation_length.
  assert (Htop_pos : 0 < top).
  { unfold top. destruct ranked as [|[a b] rest] eqn:E.
    - destruct holders; [contradiction | discriminate Hlen].
    - cbn [firstn]. change (0 < b + sum (values (firstn 9 rest))).
      assert (0 < b) by (apply (Hpos a); rewrite <- Hperm; apply list_elem_of_here).
      assert (0 <= sum (values (firstn 9 rest))).
      { apply sum_values_nonneg, Forall_take.
        now apply Forall_cons in Hnonneg as [_ Hn]. }
      lia. }
  assert (Hsmall : n <= 10 -> top = total).
  { intros Hn. unfold top. rewrite firstn_all2 by (unfold n in Hn; lia).
    unfold total. now apply sum_values_perm. }
  assert (Hlarge : 10 <= n -> 10 * total <= n * top).
  { intros Hn.
    pose proof (first_k_beat_the_average ranked 10 Hsorted) as Havg.
    rewrite Hlen in Havg. fold top in Havg. fold n in Havg.
    rewrite (sum_values_perm _ _ Hperm) in Havg. fold total in Havg.
    apply Havg. unfold n in Hn. lia. }
  destruct (share_as_ratio top total Htotal) as (ratio & Hshare & Hratio).
  set (share := (inject_Z top / inject_Z total * 100)%Q) in *.
  assert (Qtotal : (0 < inject_Z total)%Q)
    by (change 0%Q with (inject_Z 0); now rewrite <- Zlt_Qlt).
  assert (Qtop : (0 < inject_Z top)%Q)
    by (change 0%Q with (inject_Z 0); now rewrite <- Zlt_Qlt).
  assert (Qle1 : (inject_Z top <= inject_Z total)%Q) by (rewrite <- Zle_Qle; lia).
  assert (Hr0 : (0 < ratio)%Q).
  { destruct (Qlt_le_dec 0 ratio) as [?|Hneg]; [assumption|exfalso].
    assert (ratio * inject_Z total <= 0)%Q; [|lra].
    rewrite <- (Qmult_0_l (inject_Z total)).
    apply Qmult_le_compat_r; lra. }
  assert (Hr1 : (ratio <= 1)%Q).
  { destruct (Qlt_le_dec 1 ratio) as [Hbig|?]; [exfalso|assumption].
    assert (1 * inject_Z total < ratio * inject_Z total)%Q; [|lra].
    apply Qmult_lt_compat_r; assumption. }
  assert (Hn_small : n <= 10 -> (ratio == 1)%Q).
  { intros Hn. apply Hsmall in Hn. rewrite Hn in Hratio.
    apply (Qmult_inj_r _ _ (inject_Z total)); [lra|]. lra. }
  assert (Hn_large : 10 <= n -> (10 <= inject_Z n * ratio)%Q).
  { intros Hn. apply Hlarge in Hn. rewrite Zle_Qle in Hn.
    rewrite !inject_Z_mult in Hn. rewrite <- Hratio in Hn.
    apply (Qmult_le_r _ _ (inject_Z total)); [assumption|].
    change (inject_Z 10) with 10%Q in Hn. lra. }
  assert (Hshare_small : n <= 12 -> (80 <= share)%Q).
  { intros Hn. rewrite Hshare.
    destruct (Z_le_gt_dec n 10) as [Hs|Hb]; [rewrite (Hn_small Hs); lra|].
    assert (Hcase : n = 11 \/ n = 12) by lia.
    pose proof (Hn_large ltac:(lia)) as Hl.
    destruct Hcase as [E|E]; rewrite E in Hl;
      [change (inject_Z 11) with 11%Q in Hl | change (inject_Z 12) with 12%Q in Hl];
      lra. }
  split; [split; rewrite Hshare; lra|].
  split; [intros Hn; rewrite Hshare, (Hn_small Hn); reflexivity|].
  split; [intros Hn; rewrite Hshare; pose proof (Hn_large Hn); lra|].
  split.
  - intros Hn. apply Hshare_small in Hn. split.
    + unfold _calculate_score. decide_tests; lra.
    + unfold _determine_risk_level. decide_tests; first [reflexivity | lra].
  - intros Hscore.
    assert (Hp : (share <= 20)%Q).
    { revert Hscore. unfold _calculate_score. decide_tests; intros; lra. }
    destruct (Z_le_gt_dec 50 n) as [?|Hfew]; [assumption|exfalso].
    rewrite Hshare in Hp.
    destruct (Z_le_gt_dec n 10) as [Hs|Hb]; [rewrite (Hn_small Hs) in Hp; lra|].
    pose proof (Hn_large ltac:(lia)) as Hl.
    assert (Hn49 : (inject_Z n <= 49)%Q)
      by (change 49%Q with (inject_Z 49); rewrite <- Zle_Qle; lia).
    assert (Hprod : (inject_Z n * ratio <= 49 * ratio)%Q)
      by (apply Qmult_le_compat_r; lra).
    lra.
Qed.

Lemma listed_shares_add_up (total : Z) (entries : list (address * Z)) :
  (qsum (map snd (map (listed total) entries))
   == inject_Z (sum (values entries)) / inject_Z total * 100)%Q.
Proof.
  unfold qsum, sum, values.
  induction entries as [|[a b] rest IH]; cbn [map foldr snd listed fst].
  - unfold Qdiv. now rewrite Qmult_0_l, Qmult_0_l.
  - rewrite IH, inject_Z_plus. unfold Qdiv. ring.
Qed.

(** X11. The [top10_holders] list of the report holds the first 10
    holders (all of them when there are fewer) in descending order of
    balance, each with its address, its balance and its share
    [balance / total * 100] of the observed supply; the shares add up to
    [top10_percentage]. *)
Theorem top10_list_matches_the_share (self : HolderAnalyzer.t W)
    (token_address : string) (from_block : Z) (to_block : option Z)
    (w w' : W) (holders : Holders) :
  get_all_holders self token_address from_block to_block w = (inr holders, w') ->
  holders <> [] ->
  (forall addr balance, (addr, balance) ∈ holders -> 0 < balance) ->
  exists report,
    analyze_holder_concentration self token_address from_block to_block w
      = (inr report, w') /\
    length (top10_holders report) = Nat.min 10 (length holders) /\
    descending (map fst (top10_holders report)) /\
    (forall addr balance share,
        (addr, balance, share) ∈ top10_holders report ->
        (addr, balance) ∈ holders /\
        share = (inject_Z balance / inject_Z (total_supply report) * 100)%Q) /\
    (qsum (map snd (top10_holders report)) == top10_percentage report)%Q.
Proof.
  intros Hget Hne Hpos.
  rewrite (concentration_report_run self token_address from_block to_block
             w w' holders Hget Hne Hpos).
  eexists. split; [reflexivity|].
  cbn [top10_holders top10_percentage total_supply].
  pose proof (sorted_desc_perm holders) as Hperm.
  assert (Hfst : map fst (map (listed (sum (values holders)))
                              (firstn 10 (sorted_desc holders)))
                 = firstn 10 (sorted_desc holders)).
  { rewrite map_map. rewrite <- (map_id (firstn 10 (sorted_desc holders))) at 2.
    apply map_ext. now intros [a b]. }
  split; [|split; [|split]].
  - rewrite length_map, length_take. now rewrite (Permutation_length Hperm).
  - rewrite Hfst. unfold descending.
    pose proof (sorted_desc_descending holders) as Hsorted.
    unfold descending in Hsorted.
    rewrite <- (take_drop 10 (sorted_desc holders)) in Hsorted.
    now apply StronglySorted_app_1_l in Hsorted.
  - intros addr balance share Hin.
    apply list_elem_of_fmap in Hin as ([a b] & Heq & Hin).
    unfold listed in Heq. cbn [fst snd] in Heq. injection Heq as -> -> ->.
    split; [|reflexivity].
    rewrite <- Hperm. eapply elem_of_sublist; [exact Hin | apply sublist_take].
  - apply listed_shares_add_up.
Qed.

End ReportMore.

Section TablesTogether.
Import HolderAnalyzer.
Local Open Scope Q_scope.

(** X12. The score table and the risk tiers of the holder analysis never
    disagree: the tier is low exactly when the score is 30, medium gives a
    score in [15, 30), high a score in [7.5, 15) and extreme a score in
    [0, 7.5). *)
Theorem score_and_risk_tier_agree (p : Q) :
  (_determine_risk_level p = "low_risk" <-> _calculate_score p == 30) /\
  (_determine_risk_level p = "medium_risk" -> 15 <= _calculate_score p < 30) /\
  (_determine_risk_level p = "high_risk" -> 7.5 <= _calculate_score p < 15) /\
  (_determine_risk_level p = "extreme_risk" -> 0 <= _calculate_score p < 7.5).
Proof.
  unfold _determine_risk_level, _calculate_score.
  decide_tests; repeat split; intros; try discriminate; try reflexivity; lra.
Qed.

End TablesTogether.

(** ** unique_eoa.py: the classifier and the score *)

Section ClassifierMore.
Import UniqueEOAAnalyzer.
Context {W : Type}.
Local Open Scope py_scope.


End ClassifierMore.

Section ActivityScoreMore.
Import UniqueEOAAnalyzer.
Local Open Scope Q_scope.

(** X14. The activity score depends on the EOA count and the window only
    through their ratio: [k] times the EOAs in [k] times the hours give
    the same score and the same risk level. *)
Theorem activity_score_is_scale_invariant (e h k : Z) :
  (h <> 0)%Z -> (k <> 0)%Z ->
  _calculate_score (k * e) (k * h) = _calculate_score e h.
Proof.
  intros Hh Hk.
  rewrite !calculate_score_unfold by lia.
  assert (Hn : inject_Z (k * e) / inject_Z (k * h) == inject_Z e / inject_Z h).
  { rewrite !inject_Z_mult. field. split; intros H; unfold Qeq in H; cbn in H; lia. }
  now rewrite (nearest_comp _ _ Hn).
Qed.

End ActivityScoreMore.

Section ActivityBoundaries.
Import UniqueEOAAnalyzer.
Local Open Scope Q_scope.

(** The float of a quotient below 50, or 300, is below it as well, for
    divisors up to [2 ^ 40] of either sign. *)
Lemma computed_below_abs (e h : Z) :
  (h <> 0)%Z -> (Z.abs h <= 2 ^ 40)%Z ->
  (inject_Z e / inject_Z h < 300 -> nearest (inject_Z e / inject_Z h) < 300) /\
  (inject_Z e / inject_Z h < 50 -> nearest (inject_Z e / inject_Z h) < 50).
Proof.
  intros Hh Hmax.
  destruct (Z.lt_trichotomy h 0) as [Hneg|[Hz|Hpos]]; [|contradiction|].
  - assert (Hn : inject_Z e / inject_Z h == inject_Z (- e) / inject_Z (- h)).
    { rewrite !inject_Z_opp. field. intros H; unfold Qeq in H; cbn in H; lia. }
    rewrite (nearest_comp _ _ Hn), Hn. apply computed_below. lia.
  - apply computed_below. lia.
Qed.

(** X15. The top of a score band is reached before the risk level
    changes: for a window of up to [2 ^ 40] hours, a normalized count in
    [299.94, 300) gets the score 40 with "medium_risk", and one in
    [49.99, 50) the score 20 with "high_risk".  The score alone does not
    tell the risk level. *)
Theorem top_score_does_not_tell_the_risk_level (e h : Z) :
  (h <> 0)%Z -> (Z.abs h <= 2 ^ 40)%Z ->
  (299.94 <= inject_Z e / inject_Z h < 300 ->
   exists s, _calculate_score e h = inr (s, "medium_risk") /\ s == 40) /\
  (49.99 <= inject_Z e / inject_Z h < 50 ->
   exists s, _calculate_score e h = inr (s, "high_risk") /\ s == 20).
Proof.
  intros Hh Hmax. rewrite calculate_score_unfold by exact Hh.
  destruct (computed_below_abs e h Hh Hmax) as [H300 H50].
  set (q := inject_Z e / inject_Z h) in *. set (n := nearest q) in *.
  split; intros [Hlo Hhi].
  - specialize (H300 Hhi).
    assert (Hn : nearest 299.94 <= n) by (now apply nearest_mono).
    assert (Hfloat : 299 < nearest 299.94) by (vm_compute; reflexivity).
    unfold score_table. decide_tests; cbn [fst snd]; try lra.
    eexists. split; [reflexivity|].
    pose proof (medium_mono _ _ Hn) as Hm.
    destruct (medium_range n ltac:(lra)) as [_ Hm40].
    assert (Hbase : 39.995 < (20 + (nearest 299.94 - 50) / 250 * 20)%f64)
      by (vm_compute; reflexivity).
    rewrite (round2_to _ 4000); [vm_compute; reflexivity|].
    change (inject_Z 4000) with 4000. lra.
  - specialize (H50 Hhi).
    assert (Hn : nearest 49.99 <= n) by (now apply nearest_mono).
    unfold score_table. decide_tests; cbn [fst snd]; try lra.
    eexists. split; [reflexivity|].
    pose proof (high_mono _ _ Hn) as Hm.
    pose proof (high_upper n ltac:(lra)) as Hm20.
    assert (Hbase : 19.995 < (nearest 49.99 / 50 * 20)%f64)
      by (vm_compute; reflexivity).
    rewrite (round2_to _ 2000); [vm_compute; reflexivity|].
    change (inject_Z 2000) with 2000. lra.
Qed.

(** Beyond such windows the float of a quotient below 300 can be 300
    itself, and the method then answers the low tier. *)
Example a_quotient_below_300_held_as_300 :
  inject_Z (300 * 2 ^ 60 - 1) / inject_Z (2 ^ 60) < 300 /\
  _calculate_score (300 * 2 ^ 60 - 1) (2 ^ 60) = inr (40, "low_risk").
Proof. split; vm_compute; reflexivity. Qed.

End ActivityBoundaries.

(** ** unique_eoa.py: the analysis of the events *)

Section AnalysisMore.
Import UniqueEOAAnalyzer.
Context {W : Type}.
Local Open Scope py_scope.

(** The sets of a non-empty list of events under a classifier that is a
    function of the address. *)
Lemma classify_events_run (self : UniqueEOAAnalyzer.t W) (f : address -> bool)
    (events : list TransferEvent) (w : W) :
  classifies_by self f ->
  exists sets w',
    classify_events self events w = (inr sets, w') /\
    split_by f sets /\
    all_addresses sets = participants events.
Proof.
  intros Hf.
  destruct (classify_events_from self f events Hf
              {| all_addresses := ∅; eoa_addresses := ∅; contract_addresses_set := ∅ |} w)
    as (sets & w' & Hrun & Hsplit & Hall).
  { split; intros a; cbn; rewrite elem_of_empty; tauto. }
  cbn [all_addresses] in Hall. rewrite union_empty_l_L in Hall.
  now exists sets, w'.
Qed.

Lemma participants_size (events : list TransferEvent) :
  (size (participants events) <= 2 * length events)%nat.
Proof.
  induction events as [|event events IH]; cbn [participants foldr length].
  - rewrite size_empty. lia.
  - fold (participants events).
    pose proof (size_union_alt ({[from event]} ∪ {[to event]}) (participants events)) as H1.
    pose proof (size_union_alt ({[from event]} : gset address) {[to event]}) as H2.
    pose proof (subseteq_size (participants events ∖ ({[from event]} ∪ {[to event]}))
                  (participants events)) as H3.
    pose proof (subseteq_size (({[to event]} : gset address) ∖ {[from event]})
                  {[to event]}) as H4.
    rewrite !size_singleton in *.
    assert (participants events ∖ ({[from event]} ∪ {[to event]}) ⊆ participants events)
      by (intros x Hx; now apply elem_of_difference in Hx as [? _]).
    assert (({[to event]} : gset address) ∖ {[from event]} ⊆ {[to event]})
      by (intros x Hx; now apply elem_of_difference in Hx as [? _]).
    specialize (H3 ltac:(assumption)). specialize (H4 ltac:(assumption)).
    lia.
Qed.

Lemma eoa_subset_all (f : address -> bool) (sets : Sets) :
  split_by f sets -> eoa_addresses sets ⊆ all_addresses sets.
Proof. intros [Heoa _] a Ha. now apply Heoa in Ha as [? _]. Qed.

(** The analysis of a non-empty list of events, up to the score. *)
Lemma analysis_run (self : UniqueEOAAnalyzer.t W) (f : address -> bool)
    (token_address : string) (from_block : Z) (to_block : option Z) (hours : Z)
    (reader : ContractReader.t W) (events : list TransferEvent) (w0 w1 w : W) :
  events <> [] ->
  classifies_by self f ->
  ContractReader.__init__ (client self) token_address w0 = (inr reader, w1) ->
  ContractReader.get_transfer_events reader from_block to_block w1 = (inr events, w) ->
  exists sets w',
    split_by f sets /\
    all_addresses sets = participants events /\
    size (all_addresses sets) <> 0%nat /\
    analyze_transfer_events self token_address from_block to_block hours w0
    = match _calculate_score (len (eoa_addresses sets)) hours with
      | inl e => (inl e, w')
      | inr (score, risk_level) =>
          (inr {| unique_eoa_count := len (eoa_addresses sets);
                  unique_eoa_list := elements (eoa_addresses sets);
                  total_addresses := len (all_addresses sets);
                  contract_addresses := len (contract_addresses_set sets);
                  eoa_percentage :=
                    Some (inject_Z (len (eoa_addresses sets))
                          / inject_Z (len (all_addresses sets)) * 100)%Q;
                  score := score;
                  risk_level := risk_level;
                  message := None;
                  time_window_hours := Some hours;
                  events_count := Some (Z.of_nat (length events)) |}, w')
      end.
Proof.
  intros Hne Hf Hinit Hget.
  destruct (classify_events_run self f events w Hf) as (sets & w' & Hrun & Hsplit & Hall).
  assert (Hnonzero : size (all_addresses sets) <> 0%nat)
    by (rewrite Hall; now apply participants_nonempty).
  exists sets, w'. split; [exact Hsplit|]. split; [exact Hall|]. split; [exact Hnonzero|].
  unfold analyze_transfer_events.
  rewrite (bind_run _ _ _ _ _ Hinit), (bind_run _ _ _ _ _ Hget).
  destruct (Nat.eqb_spec (length events) 0) as [Hlen|_].
  { destruct events; [contradiction | discriminate Hlen]. }
  rewrite (bind_run _ _ _ _ _ Hrun).
  unfold bind at 1, lift at 1.
  destruct (_calculate_score (len (eoa_addresses sets)) hours) as [e|[score risk]];
    [reflexivity|].
  destruct (Nat.eqb_spec (size (all_addresses sets)) 0) as [?|_]; [contradiction|].
  unfold bind, lift, truediv, len.
  destruct (Z.eqb_spec (Z.of_nat (size (all_addresses sets))) 0) as [?|_]; [lia|].
  reflexivity.
Qed.

(** X16. The time window is not validated.  With transfer events and a
    window of 0 hours, [analyze_transfer_events] raises the division by
    zero of [_calculate_score], after the events have been fetched and
    classified; with a negative window it returns a score at most 0 and
    the high-risk level. *)
Theorem window_is_not_validated (self : UniqueEOAAnalyzer.t W) (f : address -> bool)
    (token_address : string) (from_block : Z) (to_block : option Z)
    (reader : ContractReader.t W) (events : list TransferEvent) (w0 w1 w : W) :
  events <> [] ->
  classifies_by self f ->
  ContractReader.__init__ (client self) token_address w0 = (inr reader, w1) ->
  ContractReader.get_transfer_events reader from_block to_block w1 = (inr events, w) ->
  (exists w',
      analyze_transfer_events self token_address from_block to_block 0 w0
      = (inl "division by zero", w')) /\
  (forall hours,
      hours < 0 ->
      exists result w',
        analyze_transfer_events self token_address from_block to_block hours w0
          = (inr result, w') /\
        (score result <= 0)%Q /\ risk_level result = "high_risk").
Proof.
  intros Hne Hf Hinit Hget. split.
  - destruct (analysis_run self f token_address from_block to_block 0
                reader events w0 w1 w Hne Hf Hinit Hget)
      as (sets & w' & _ & _ & _ & Hrun).
    exists w'. rewrite Hrun. reflexivity.
  - intros hours Hneg.
    destruct (analysis_run self f token_address from_block to_block hours
                reader events w0 w1 w Hne Hf Hinit Hget)
      as (sets & w' & _ & _ & _ & Hrun).
    rewrite calculate_score_unfold in Hrun by lia.
    eexists _, w'. split; [exact Hrun|]. cbn [score risk_level].
    set (count := len (eoa_addresses sets)).
    assert (Hn : (inject_Z count / inject_Z hours <= 0)%Q).
    { assert (E : (inject_Z count / inject_Z hours
                   == - (inject_Z count / inject_Z (- hours)))%Q).
      { rewrite inject_Z_opp. field. intros H. unfold Qeq in H. cbn in H. lia. }
      rewrite E.
      pose proof (normalized_nonneg count (- hours)) as Hpos.
      assert (0 <= inject_Z count / inject_Z (- hours))%Q
        by (apply Hpos; unfold count, len; lia).
      lra. }
    assert (Hfloat : (nearest (inject_Z count / inject_Z hours) <= 0)%Q)
      by (apply nearest_upper; [vm_compute; reflexivity | exact Hn]).
    unfold score_table. decide_tests; cbn [fst snd]; try lra.
    split; [|reflexivity].
    apply Qle_trans with (round 0 2); [|vm_compute; discriminate].
    apply round2_mono. now apply high_nonpos.
Qed.

(** X17. For a non-empty list of events, a classifier that is a function
    of the address and a non-zero window, the counts of the result fit
    together: the EOAs listed are exactly the participants classified as
    EOA, each once; their number is between 0 and [total_addresses],
    which is at most twice [events_count]; and [eoa_percentage] is
    [unique_eoa_count / total_addresses * 100], between 0 and 100. *)
Theorem activity_counts_fit_together (self : UniqueEOAAnalyzer.t W) (f : address -> bool)
    (token_address : string) (from_block : Z) (to_block : option Z) (hours : Z)
    (reader : ContractReader.t W) (events : list TransferEvent) (w0 w1 w : W) :
  events <> [] ->
  classifies_by self f ->
  hours <> 0 ->
  ContractReader.__init__ (client self) token_address w0 = (inr reader, w1) ->
  ContractReader.get_transfer_events reader from_block to_block w1 = (inr events, w) ->
  exists result w' share,
    analyze_transfer_events self token_address from_block to_block hours w0
      = (inr result, w') /\
    NoDup (unique_eoa_list result) /\
    (forall a, a ∈ unique_eoa_list result <-> a ∈ participants events /\ f a = true) /\
    unique_eoa_count result = Z.of_nat (length (unique_eoa_list result)) /\
    0 <= unique_eoa_count result <= total_addresses result /\
    0 < total_addresses result <= 2 * Z.of_nat (length events) /\
    events_count result = Some (Z.of_nat (length events)) /\
    eoa_percentage result = Some share /\
    (share == inject_Z (unique_eoa_count result)
              / inject_Z (total_addresses result) * 100)%Q /\
    (0 <= share <= 100)%Q.
Proof.
  intros Hne Hf Hh Hinit Hget.
  destruct (analysis_run self f token_address from_block to_block hours
              reader events w0 w1 w Hne Hf Hinit Hget)
    as (sets & w' & Hsplit & Hall & Hnonzero & Hrun).
  rewrite calculate_score_unfold in Hrun by exact Hh.
  eexists _, w', _. split; [exact Hrun|].
  cbn [unique_eoa_list unique_eoa_count total_addresses events_count eoa_percentage].
  pose proof (subseteq_size _ _ (eoa_subset_all f sets Hsplit)) as Hsub.
  pose proof (participants_size events) as Hpart. rewrite <- Hall in Hpart.
  unfold len.
  split; [apply NoDup_elements|].
  split.
  { intros a. rewrite elem_of_elements. destruct Hsplit as [Heoa _].
    rewrite Heoa, Hall. reflexivity. }
  split; [reflexivity|].
  split; [lia|]. split; [lia|]. split; [reflexivity|]. split; [reflexivity|].
  split; [reflexivity|].
  set (u := Z.of_nat (size (eoa_addresses sets))).
  set (t := Z.of_nat (size (all_addresses sets))).
  assert (Ht : (0 < inject_Z t)%Q)
    by (change 0%Q with (inject_Z 0); rewrite <- Zlt_Qlt; unfold t; lia).
  assert (Hu0 : (0 <= inject_Z u)%Q)
    by (change 0%Q with (inject_Z 0); rewrite <- Zle_Qle; unfold u; lia).
  assert (Hut : (inject_Z u <= inject_Z t)%Q)
    by (rewrite <- Zle_Qle; unfold u, t; lia).
  assert (Hr0 : (0 <= inject_Z u / inject_Z t)%Q).
  { apply Qle_shift_div_l; [exact Ht | lra]. }
  assert (Hr1 : (inject_Z u / inject_Z t <= 1)%Q).
  { apply Qle_shift_div_r; [exact Ht | lra]. }
  lra.
Qed.

End AnalysisMore.

(** ** unique_eoa.py: the per-EOA statistics *)

Section StatsMore.
Import UniqueEOAAnalyzer.
Context {W : Type}.
Local Open Scope py_scope.

(** [sum(eoa_tx_count.values())] *)
Local Abbreviation total_of counts := (foldr Z.add 0 (tx_counts counts)).

Lemma total_of_perm (xs ys : list (address * Z)) :
  xs ≡ₚ ys -> foldr Z.add 0 (map snd xs) = foldr Z.add 0 (map snd ys).
Proof. apply sum_values_perm. Qed.

Lemma bump_total (counts : gmap address Z) (addr : address) :
  total_of (bump counts addr) = total_of counts + 1.
Proof.
  unfold bump, tx_counts. destruct (counts !! addr) as [v|] eqn:E; cbn [default].
  - rewrite <- insert_delete_eq.
    rewrite (total_of_perm _ _ (map_to_list_insert (delete addr counts) addr (v + 1)
                                  (lookup_delete_eq counts addr))).
    rewrite <- (total_of_perm _ _ (map_to_list_delete counts addr v E)).
    cbn [map foldr snd]. lia.
  - rewrite (total_of_perm _ _ (map_to_list_insert counts addr (0 + 1) E)).
    cbn [map foldr snd]. lia.
Qed.

Lemma bump_dom (counts : gmap address Z) (addr : address) :
  dom (bump counts addr) = {[ addr ]} ∪ dom counts.
Proof. unfold bump. apply dom_insert_L. Qed.

Lemma bump_positive (counts : gmap address Z) (addr : address) :
  map_Forall (fun _ v => 1 <= v) counts ->
  map_Forall (fun _ v => 1 <= v) (bump counts addr).
Proof.
  intros Hall. unfold bump. apply map_Forall_insert_2; [|exact Hall].
  destruct (counts !! addr) as [v|] eqn:E; cbn [default]; unfold id; cbn beta; [|lia].
  specialize (Hall addr v E). cbn beta in Hall. lia.
Qed.

Lemma count_events_from (self : UniqueEOAAnalyzer.t W) (f : address -> bool)
    (events : list TransferEvent) :
  classifies_by self f ->
  forall (counts : gmap address Z) (w : W),
    map_Forall (fun _ v => 1 <= v) counts ->
    exists counts' w',
      for_each events (count_event self) counts w = (inr counts', w') /\
      map_Forall (fun _ v => 1 <= v) counts' /\
      dom counts' = dom counts ∪ eoa_participants f events /\
      total_of counts' = total_of counts + eoa_ends f events.
Proof.
  intros Hf. induction events as [|event events IH]; intros counts w Hall.
  - exists counts, w. cbn. split; [reflexivity|]. split; [exact Hall|]. split; [|lia].
    unfold eoa_participants. cbn. apply set_eq. intros x.
    rewrite elem_of_union, elem_of_filter, elem_of_empty. tauto.
  - destruct (Hf (from event) w) as (w1 & Hfrom).
    destruct (Hf (to event) w1) as (w2 & Hto).
    set (c1 := if f (from event) then bump counts (from event) else counts).
    set (c2 := if f (to event) then bump c1 (to event) else c1).
    assert (Hstep : count_event self counts event w = (inr c2, w2)).
    { unfold count_event. rewrite (bind_run _ _ _ _ _ Hfrom), (bind_run _ _ _ _ _ Hto).
      reflexivity. }
    assert (Hall2 : map_Forall (fun _ v => 1 <= v) c2).
    { unfold c2, c1. destruct (f (from event)), (f (to event));
        repeat apply bump_positive; exact Hall. }
    destruct (IH c2 w2 Hall2) as (counts' & w' & Hrest & Hall' & Hdom & Htotal).
    exists counts', w'. cbn [for_each]. rewrite (bind_run _ _ _ _ _ Hstep).
    split; [exact Hrest|]. split; [exact Hall'|]. split.
    + rewrite Hdom. unfold c2, c1, eoa_participants. cbn [participants foldr].
      fold (participants events).
      apply set_eq. intros x.
      destruct (f (from event)) eqn:E1, (f (to event)) eqn:E2;
        rewrite ?bump_dom, ?elem_of_union, ?elem_of_filter, ?elem_of_union,
          ?elem_of_singleton;
        split; intros; destruct_and?; destruct_or?; subst;
        try congruence; intuition congruence.
    + rewrite Htotal. unfold c2, c1. cbn [eoa_ends foldr].
      fold (eoa_ends f events).
      destruct (f (from event)), (f (to event)); rewrite ?bump_total; lia.
Qed.

Lemma count_where_disjoint (p q : Z -> bool) (values : list Z) :
  (forall v, p v = true -> q v = true -> False) ->
  0 <= count_where p values /\ 0 <= count_where q values /\
  count_where p values + count_where q values <= Z.of_nat (length values).
Proof.
  intros Hpq. unfold count_where.
  induction values as [|v values IH]; cbn [List.filter length]; [lia|].
  specialize (Hpq v).
  destruct (p v), (q v); cbn [length]; first [lia | exfalso; now apply Hpq].
Qed.

Lemma counts_at_least_one (counts : gmap address Z) :
  map_Forall (fun _ v => 1 <= v) counts -> Z.of_nat (size counts) <= total_of counts.
Proof.
  intros Hall. unfold tx_counts. rewrite <- length_map_to_list.
  apply map_Forall_to_list in Hall.
  pose proof (sum_values_at_least 1 (map_to_list counts)) as H.
  unfold HolderAnalyzer.sum, HolderAnalyzer.values in H.
  rewrite Z.mul_1_r in H. apply H.
  eapply Forall_impl; [exact Hall|]. intros [a v]. cbn. lia.
Qed.

Lemma eoa_ends_bounds (f : address -> bool) (events : list TransferEvent) :
  0 <= eoa_ends f events <= 2 * Z.of_nat (length events).
Proof.
  induction events as [|event events IH]; cbn [eoa_ends foldr length]; [lia|].
  fold (eoa_ends f events). destruct (f (from event)), (f (to event)); lia.
Qed.

Lemma share_rounds_within (part total : Z) :
  0 <= part <= total -> 0 < total ->
  (0 <= round (float_mul (nearest (inject_Z part / inject_Z total)) 100) 2 <= 100)%Q.
Proof.
  intros Hpart Htotal.
  assert (Ht : (0 < inject_Z total)%Q).
  { change 0%Q with (inject_Z 0). rewrite <- Zlt_Qlt. exact Htotal. }
  assert (Hlo : (0 <= inject_Z part / inject_Z total)%Q).
  { apply Qle_shift_div_l; [exact Ht|]. rewrite Qmult_0_l.
    change 0%Q with (inject_Z 0). rewrite <- Zle_Qle. lia. }
  assert (Hhi : (inject_Z part / inject_Z total <= 1)%Q).
  { apply Qle_shift_div_r; [exact Ht|]. rewrite Qmult_1_l.
    rewrite <- Zle_Qle. lia. }
  set (q := (inject_Z part / inject_Z total)%Q) in *.
  assert (Ha : (0 <= nearest q <= 1)%Q).
  { split; [apply nearest_lower | apply nearest_upper];
      [vm_compute; reflexivity | exact Hlo | vm_compute; reflexivity | exact Hhi]. }
  assert (Hb : (0 <= float_mul (nearest q) 100 <= 100)%Q).
  { unfold float_mul.
    split; [apply nearest_lower | apply nearest_upper];
      [vm_compute; reflexivity | lra | vm_compute; reflexivity | lra]. }
  split.
  - apply Qle_trans with (round 0 2); [vm_compute; discriminate|].
    apply round2_mono. apply Hb.
  - apply Qle_trans with (round 100 2); [|vm_compute; discriminate].
    apply round2_mono. apply Hb.
Qed.

Lemma stats_run (self : UniqueEOAAnalyzer.t W) (f : address -> bool)
    (token_address : string) (from_block : Z) (to_block : option Z)
    (reader : ContractReader.t W) (events : list TransferEvent) (w0 w1 w : W) :
  classifies_by self f ->
  ContractReader.__init__ (client self) token_address w0 = (inr reader, w1) ->
  ContractReader.get_transfer_events reader from_block to_block w1 = (inr events, w) ->
  exists counts w',
    map_Forall (fun _ v => 1 <= v) counts /\
    dom counts = eoa_participants f events /\
    total_of counts = eoa_ends f events /\
    get_eoa_activity_stats self token_address from_block to_block w0
    = if (size counts =? 0)%nat then
        (inr {| total_eoa := 0; avg_tx_per_eoa := 0;
                high_frequency_eoa := 0; single_tx_eoa := 0;
                high_freq_percentage := None; single_tx_percentage := None |}, w')
      else
        let total := Z.of_nat (size counts) in
        let high_freq := count_where (fun count => count >? 10)%Z (tx_counts counts) in
        let single_tx := count_where (fun count => count =? 1)%Z (tx_counts counts) in
        (inr {| total_eoa := total;
                avg_tx_per_eoa :=
                  round (nearest (inject_Z (total_of counts) / inject_Z total)) 2;
                high_frequency_eoa := high_freq;
                single_tx_eoa := single_tx;
                high_freq_percentage :=
                  Some (round (float_mul (nearest (inject_Z high_freq / inject_Z total))
                                         100%Q) 2);
                single_tx_percentage :=
                  Some (round (float_mul (nearest (inject_Z single_tx / inject_Z total))
                                         100%Q) 2) |}, w').
Proof.
  intros Hf Hinit Hget.
  destruct (count_events_from self f events Hf ∅ w (map_Forall_empty _))
    as (counts & w' & Hrun & Hall & Hdom & Htotal).
  exists counts, w'. split; [exact Hall|].
  split; [rewrite Hdom, dom_empty_L; apply union_empty_l_L|].
  split.
  { rewrite Htotal. unfold tx_counts. rewrite map_to_list_empty. cbn. lia. }
  unfold get_eoa_activity_stats.
  rewrite (bind_run _ _ _ _ _ Hinit), (bind_run _ _ _ _ _ Hget), (bind_run _ _ _ _ _ Hrun).
  destruct (Nat.eqb_spec (size counts) 0) as [Hz|Hnz]; [reflexivity|].
  unfold bind, lift, float_truediv.
  destruct (Z.eqb_spec (Z.of_nat (size counts)) 0) as [Hz|_]; [lia|].
  reflexivity.
Qed.

(** X18. With a classifier that is a function of the address,
    [get_eoa_activity_stats] returns, and [total_eoa] is the number of
    participants classified as EOA.  The EOAs with more than ten
    transfers and those with exactly one are disjoint parts of them.
    The empty result has average 0 and no percentages; otherwise the
    average is [round(avg_tx, 2)] for the float [avg_tx] of the number of
    EOA ends of the events over [total_eoa], it is at least 1, and both
    percentages lie in [0, 100]. *)
Theorem stats_count_the_eoa_participants (self : UniqueEOAAnalyzer.t W)
    (f : address -> bool) (token_address : string) (from_block : Z) (to_block : option Z)
    (reader : ContractReader.t W) (events : list TransferEvent) (w0 w1 w : W) :
  classifies_by self f ->
  ContractReader.__init__ (client self) token_address w0 = (inr reader, w1) ->
  ContractReader.get_transfer_events reader from_block to_block w1 = (inr events, w) ->
  exists stats w',
    get_eoa_activity_stats self token_address from_block to_block w0 = (inr stats, w') /\
    total_eoa stats = Z.of_nat (size (eoa_participants f events)) /\
    0 <= high_frequency_eoa stats /\
    0 <= single_tx_eoa stats /\
    high_frequency_eoa stats + single_tx_eoa stats <= total_eoa stats /\
    (total_eoa stats = 0 ->
       avg_tx_per_eoa stats = 0%Q /\
       high_freq_percentage stats = None /\ single_tx_percentage stats = None) /\
    (0 < total_eoa stats ->
       total_eoa stats <= eoa_ends f events <= 2 * Z.of_nat (length events) /\
       (exists avg_tx,
           float_truediv (eoa_ends f events) (total_eoa stats) = inr avg_tx /\
           avg_tx_per_eoa stats = round avg_tx 2) /\
       (1 <= avg_tx_per_eoa stats)%Q /\
       exists high single,
         high_freq_percentage stats = Some high /\
         single_tx_percentage stats = Some single /\
         (0 <= high <= 100)%Q /\ (0 <= single <= 100)%Q).
Proof.
  intros Hf Hinit Hget.
  destruct (stats_run self f token_address from_block to_block reader events w0 w1 w
              Hf Hinit Hget) as (counts & w' & Hall & Hdom & Htotal & Hrun).
  pose proof (size_dom counts) as Hsize. rewrite Hdom in Hsize.
  pose proof (counts_at_least_one counts Hall) as Hone. rewrite Htotal in Hone.
  pose proof (eoa_ends_bounds f events) as Hends.
  destruct (count_where_disjoint (fun count => count >? 10)%Z (fun count => count =? 1)%Z
              (tx_counts counts)) as (Hhigh & Hsingle & Hboth).
  { intros v H10 H1. apply Z.gtb_lt in H10. apply Z.eqb_eq in H1. lia. }
  unfold tx_counts at 3 in Hboth. rewrite length_map, length_map_to_list in Hboth.
  destruct (Nat.eqb_spec (size counts) 0) as [Hz|Hnz].
  - eexists _, w'. split; [exact Hrun|].
    cbn [total_eoa avg_tx_per_eoa high_frequency_eoa single_tx_eoa
         high_freq_percentage single_tx_percentage].
    rewrite Hsize, Hz. repeat (split; [try reflexivity; lia|]).
    split; [intros _; repeat split|intros H; cbn in H; lia].
  - cbv zeta in Hrun. eexists _, w'. split; [exact Hrun|].
    cbn [total_eoa avg_tx_per_eoa high_frequency_eoa single_tx_eoa
         high_freq_percentage single_tx_percentage].
    split; [now rewrite Hsize|].
    split; [exact Hhigh|]. split; [exact Hsingle|]. split; [exact Hboth|].
    split; [intros H; lia|]. intros Hpos.
    split; [lia|]. split.
    { eexists. split; [|rewrite Htotal; reflexivity].
      unfold float_truediv.
      destruct (Z.eqb_spec (Z.of_nat (size counts)) 0) as [?|_]; [lia | reflexivity]. }
    split.
    + apply Qle_trans with (round 1 2); [vm_compute; discriminate|]. apply round2_mono.
      apply nearest_lower; [vm_compute; reflexivity|].
      apply Qle_shift_div_l.
      * change 0%Q with (inject_Z 0). rewrite <- Zlt_Qlt. exact Hpos.
      * rewrite Qmult_1_l, <- Zle_Qle, Htotal. exact Hone.
    + eexists _, _. split; [reflexivity|]. split; [reflexivity|].
      split; apply share_rounds_within; lia.
Qed.

(** X19. On the same events and with the same classifier, the two
    methods of the analyzer agree on the number of EOAs: [total_eoa] of
    [get_eoa_activity_stats] is [unique_eoa_count] of
    [analyze_transfer_events], and it is 0 exactly when the statistics
    are the empty ones, without either percentage. *)
Theorem stats_and_analysis_agree (self : UniqueEOAAnalyzer.t W)
    (f : address -> bool) (token_address : string) (from_block : Z) (to_block : option Z)
    (hours : Z) (reader : ContractReader.t W) (events : list TransferEvent) (w0 w1 w : W) :
  events <> [] ->
  classifies_by self f ->
  hours <> 0 ->
  ContractReader.__init__ (client self) token_address w0 = (inr reader, w1) ->
  ContractReader.get_transfer_events reader from_block to_block w1 = (inr events, w) ->
  exists stats result w' w'',
    get_eoa_activity_stats self token_address from_block to_block w0 = (inr stats, w') /\
    analyze_transfer_events self token_address from_block to_block hours w0
      = (inr result, w'') /\
    total_eoa stats = unique_eoa_count result /\
    (unique_eoa_count result = 0 <-> high_freq_percentage stats = None) /\
    (unique_eoa_count result = 0 <-> single_tx_percentage stats = None).
Proof.
  intros Hne Hf Hh Hinit Hget.
  destruct (stats_run self f token_address from_block to_block reader events w0 w1 w
              Hf Hinit Hget) as (counts & w' & _ & Hdom & _ & Hstats).
  destruct (analysis_run self f token_address from_block to_block hours
              reader events w0 w1 w Hne Hf Hinit Hget)
    as (sets & w'' & Hsplit & Hall & _ & Hrun).
  rewrite calculate_score_unfold in Hrun by exact Hh.
  assert (Hsame : eoa_addresses sets = dom counts).
  { rewrite Hdom. apply set_eq. intros a. destruct Hsplit as [Heoa _].
    rewrite Heoa, Hall. unfold eoa_participants. now rewrite elem_of_filter, (comm and). }
  pose proof (size_dom counts) as Hsize. rewrite <- Hsame in Hsize.
  destruct (Nat.eqb_spec (size counts) 0) as [Hz|Hnz]; cbv zeta in Hstats;
    eexists _, _, w', w''; (split; [exact Hstats|]); (split; [exact Hrun|]);
    cbn [unique_eoa_count total_eoa high_freq_percentage single_tx_percentage];
    unfold len; rewrite Hsize.
  - rewrite Hz. split; [reflexivity|]. split; split; reflexivity.
  - split; [reflexivity|]. split; (split; [lia|discriminate]).
Qed.

End StatsMore.

(** ** Runs of the further properties on the small chain *)

Section FurtherRuns.
Import Fixtures Deployment.



Lemma chain_classifier : classifies_by (eoa_analyzer 2000) not_the_pool.
Proof. intros addr w. exists w. reflexivity. Defined.

Lemma chain_reader :
  ContractReader.__init__ (UniqueEOAAnalyzer.client (eoa_analyzer 2000)) token genesis
  = (inr (reader 2000), genesis).
Proof. reflexivity. Defined.

Lemma chain_events :
  ContractReader.get_transfer_events (reader 2000) 0 (Some 1000) genesis
  = (inr decoded, record_query 0 1000 genesis).
Proof. reflexivity. Defined.

Lemma twelve_positive : forall addr balance, (addr, balance) ∈ twelve -> 0 < balance.
Proof.
  assert (Hall : Forall (fun entry => 0 < snd entry) twelve)
    by (repeat (constructor; [reflexivity|]); constructor).
  intros addr balance Hin.
  exact (proj1 (Forall_forall _ _) Hall (addr, balance) Hin).
Defined.

Lemma twelve_cached :
  HolderAnalyzer.get_all_holders (holder_analyzer 2000) token 0 None cached_twelve
  = (inr twelve, cached_twelve).
Proof. vm_compute. reflexivity. Defined.

(** X1 on the five logs of the chain, one of which does not decode. *)
Lemma transfer_events_are_the_decodable_logs_witness :
  eth_get_logs (provider 2000) token 0 1000 genesis
    = (inr (logs_between 0 1000), record_query 0 1000 genesis) /\
  exists events,
    ContractReader.get_transfer_events (reader 2000) 0 (Some 1000) genesis
      = (inr events, record_query 0 1000 genesis) /\
    map inr events = List.filter decodes (logs_between 0 1000) /\
    (length events <= length (logs_between 0 1000))%nat.
Proof.
  assert (Hlogs : eth_get_logs (provider 2000) token 0 1000 genesis
                  = (inr (logs_between 0 1000), record_query 0 1000 genesis))
    by reflexivity.
  split; [exact Hlogs|].
  destruct (transfer_events_are_the_decodable_logs
              (reader 2000) 0 1000 genesis (record_query 0 1000 genesis)
              (logs_between 0 1000) Hlogs)
    as (events & Hrun & Hmap & Hlen & _).
  exists events. split; [exact Hrun|]. split; [exact Hmap | exact Hlen].
Defined.

(** X3 with a sender filter on alice and an empty recipient filter. *)
Lemma address_filters_do_not_filter_witness :
  well_formed_filter (provider 2000) (Some alice) /\
  well_formed_filter (provider 2000) (Some EmptyString) /\
  ContractReader.get_transfer_events_with_filters
    (reader 2000) 0 (Some 1000) (Some alice) (Some EmptyString) genesis
  = ContractReader.get_transfer_events (reader 2000) 0 (Some 1000) genesis.
Proof.
  assert (Hfrom : well_formed_filter (provider 2000) (Some alice))
    by (exists alice; reflexivity).
  assert (Hto : well_formed_filter (provider 2000) (Some EmptyString)) by exact I.
  split; [exact Hfrom|]. split; [exact Hto|].
  exact (address_filters_do_not_filter
           (reader 2000) 0 (Some 1000) (Some alice) (Some EmptyString) genesis Hfrom Hto).
Defined.

(** A malformed sender filter raises before any request is made. *)
Example malformed_filter_raises :
  ContractReader.get_transfer_events_with_filters
    (reader 2000) 0 (Some 1000) (Some "xyz") None genesis
  = (inl "invalid address", genesis).
Proof. reflexivity. Qed.

(** X5 on the described token: 95 000 000 units at 6 decimals, no
    symbol. *)
Lemma token_info_on_a_stable_chain_witness :
  answers (call_name (described 2000) token) (inr "Test Token") /\
  answers (call_symbol (described 2000) token) (inl "execution reverted") /\
  answers (call_decimals (described 2000) token) (inr 6) /\
  answers (call_totalSupply (described 2000) token) (inr 95000000) /\
  exists info,
    ContractReader.get_token_info (described_reader 2000) genesis = (inr info, genesis) /\
    ContractReader.info_name info = "Test Token" /\
    ContractReader.info_symbol info = "UNKNOWN" /\
    ContractReader.info_decimals info = 6 /\
    (ContractReader.info_total_supply_human info == 95)%Q.
Proof.
  assert (Hn : answers (call_name (described 2000) token) (inr "Test Token"))
    by (intros w; reflexivity).
  assert (Hs : answers (call_symbol (described 2000) token) (inl "execution reverted"))
    by (intros w; reflexivity).
  assert (Hd : answers (call_decimals (described 2000) token) (inr 6))
    by (intros w; reflexivity).
  assert (Ht : answers (call_totalSupply (described 2000) token) (inr 95000000))
    by (intros w; reflexivity).
  split; [exact Hn|]. split; [exact Hs|]. split; [exact Hd|]. split; [exact Ht|].
  eexists. split.
  - exact (token_info_on_a_stable_chain (described_reader 2000) _ _ _ _ genesis
             Hn Hs Hd Ht).
  - split; [reflexivity|]. split; [reflexivity|]. split; reflexivity.
Defined.

(** X7 on the blocks 0 to 2500: three requests. *)
Lemma scan_asks_consecutive_batches_witness :
  0 <= 2500 /\
  tiles 0 2500 (batches (Z.to_nat (2500 + 1 - 0)) 0 2500) /\
  exists addrs w',
    HolderAnalyzer.scan_loop
      (Z.to_nat (2500 + 1 - 0))
      (fun a b => ContractReader.get_transfer_events (reader 2000) a (Some b))
      2500 (0, ∅) genesis
    = (inr (Some (2500 + 1, addrs)), w').
Proof.
  split; [lia|].
  pose proof (scan_asks_consecutive_batches (reader 2000) 0 2500 ∅ genesis ltac:(lia))
    as H.
  cbv zeta in H. destruct H as (Htiles & addrs & w' & _ & Hscan).
  split; [exact Htiles|]. exists addrs, w'. exact Hscan.
Defined.


Lemma chain_balance_reads :
  forall a, answers (ContractReader.get_balance (reader 2000) a) (balance_read a).
Proof.
  intros a w.
  unfold ContractReader.get_balance, balance_read, bind, lift, try_except.
  cbn. destruct (String.length a =? 42)%nat; [|reflexivity].
  cbn. destruct (String.eqb a bob); reflexivity.
Defined.

(** X9 on the three participants of the chain. *)
Lemma balance_pass_keeps_the_positive_balances_witness :
  (forall a, answers (ContractReader.get_balance (reader 2000) a) (balance_read a)) /\
  exists holders,
    HolderAnalyzer.collect_balances (reader 2000) {[ alice; bob; pool ]} genesis
      = (inr holders, genesis) /\
    NoDup (map fst holders) /\
    (forall a b, (a, b) ∈ holders <->
                 a ∈ ({[ alice; bob; pool ]} : gset address) /\
                 balance_read a = inr b /\ 0 < b).
Proof.
  split; [exact chain_balance_reads|].
  destruct (balance_pass_keeps_the_positive_balances
              (reader 2000) balance_read {[ alice; bob; pool ]} genesis
              chain_balance_reads)
    as (holders & Hrun & _ & Hnodup & Hin).
  exists holders. split; [exact Hrun|]. split; [exact Hnodup | exact Hin].
Defined.

Lemma chain_log_answers :
  forall a b w, exists w',
    eth_get_logs (provider 2000) token a b w = (log_answer 2000 a b, w').
Proof.
  intros a b w. unfold log_answer. cbn.
  destruct (2000 <? b - a)%Z; eexists; reflexivity.
Defined.

(** X20 on the chain, scanned without the cache. *)
Lemma holders_are_the_funded_participants_witness :
  HolderAnalyzer.use_cache (uncached_analyzer 2000) = false /\
  to_checksum_address (provider 2000) token = inr token /\
  (forall a b w, exists w',
      eth_get_logs (provider 2000) token a b w = (log_answer 2000 a b, w')) /\
  (forall a, answers (ContractReader.get_balance (reader 2000) a) (balance_read a)) /\
  exists holders w',
    HolderAnalyzer.get_all_holders (uncached_analyzer 2000) token 0 (Some 1000) genesis
      = (inr holders, w') /\
    NoDup (map fst holders) /\
    forall a b,
      (a, b) ∈ holders
      <-> a ∈ seen_in (log_answer 2000) (batches (Z.to_nat (1000 + 1 - 0)) 0 1000) /\
          a <> HolderAnalyzer.ZERO_ADDRESS /\ balance_read a = inr b /\ 0 < b.
Proof.
  split; [reflexivity|]. split; [reflexivity|].
  split; [exact chain_log_answers|]. split; [exact chain_balance_reads|].
  exact (holders_are_the_funded_participants
           (uncached_analyzer 2000) token token 0 1000 (log_answer 2000) balance_read
           genesis eq_refl eq_refl chain_log_answers chain_balance_reads).
Defined.

(** The same scan, run: the request is recorded, nothing is cached. *)
Example uncached_holders_of_the_chain :
  HolderAnalyzer.get_all_holders (uncached_analyzer 2000) token 0 (Some 1000) genesis
  = (inr [(pool, 30); (alice, 65)], {| queries := [(0, 1000)]; store := [] |}).
Proof. vm_compute. reflexivity. Qed.

(** X10 on the twelve holders. *)
Lemma few_holders_cannot_score_witness :
  HolderAnalyzer.get_all_holders (holder_analyzer 2000) token 0 None cached_twelve
    = (inr twelve, cached_twelve) /\
  twelve <> [] /\
  (forall addr balance, (addr, balance) ∈ twelve -> 0 < balance) /\
  exists report,
    HolderAnalyzer.analyze_holder_concentration
      (holder_analyzer 2000) token 0 None cached_twelve
    = (inr report, cached_twelve) /\
    (HolderAnalyzer.score report == 0)%Q /\
    HolderAnalyzer.risk_level report = "extreme_risk".
Proof.
  split; [exact twelve_cached|]. split; [discriminate|]. split; [exact twelve_positive|].
  destruct (few_holders_cannot_score
              (holder_analyzer 2000) token 0 None cached_twelve cached_twelve twelve
              twelve_cached ltac:(discriminate) twelve_positive)
    as (report & Hreport & Htotal & _ & _ & _ & Hfew & _).
  exists report. split; [exact Hreport|].
  apply Hfew. rewrite Htotal. cbn. lia.
Defined.

(** X11 on the twelve holders. *)
Lemma top10_list_matches_the_share_witness :
  HolderAnalyzer.get_all_holders (holder_analyzer 2000) token 0 None cached_twelve
    = (inr twelve, cached_twelve) /\
  twelve <> [] /\
  (forall addr balance, (addr, balance) ∈ twelve -> 0 < balance) /\
  exists report,
    HolderAnalyzer.analyze_holder_concentration
      (holder_analyzer 2000) token 0 None cached_twelve
    = (inr report, cached_twelve) /\
    length (HolderAnalyzer.top10_holders report) = 10%nat /\
    (qsum (map snd (HolderAnalyzer.top10_holders report))
     == HolderAnalyzer.top10_percentage report)%Q.
Proof.
  split; [exact twelve_cached|]. split; [discriminate|]. split; [exact twelve_positive|].
  destruct (top10_list_matches_the_share
              (holder_analyzer 2000) token 0 None cached_twelve cached_twelve twelve
              twelve_cached ltac:(discriminate) twelve_positive)
    as (report & Hreport & Hlen & _ & _ & Hsum).
  exists report. split; [exact Hreport|]. split; [exact Hlen | exact Hsum].
Defined.


(** X14: 21 EOAs in 6 hours score as 7 EOAs in 2 hours. *)
Lemma activity_score_is_scale_invariant_witness :
  2 <> 0 /\ 3 <> 0 /\
  UniqueEOAAnalyzer._calculate_score (3 * 7) (3 * 2)
  = UniqueEOAAnalyzer._calculate_score 7 2.
Proof.
  split; [lia|]. split; [lia|].
  exact (activity_score_is_scale_invariant 7 2 3 ltac:(lia) ltac:(lia)).
Defined.

(** X15: 29999 EOAs in 100 hours get the full 40 points and
    "medium_risk". *)
Lemma top_score_does_not_tell_the_risk_level_witness :
  100 <> 0 /\
  Z.abs 100 <= 2 ^ 40 /\
  (299.94 <= inject_Z 29999 / inject_Z 100 < 300)%Q /\
  exists s,
    UniqueEOAAnalyzer._calculate_score 29999 100 = inr (s, "medium_risk") /\
    (s == 40)%Q.
Proof.
  assert (Hn : (299.94 <= inject_Z 29999 / inject_Z 100 < 300)%Q)
    by (split; [discriminate | reflexivity]).
  assert (Hmax : Z.abs 100 <= 2 ^ 40) by (vm_compute; discriminate).
  split; [lia|]. split; [exact Hmax|]. split; [exact Hn|].
  exact (proj1 (top_score_does_not_tell_the_risk_level 29999 100 ltac:(lia) Hmax) Hn).
Defined.

(** X16 on the chain: a window of 0 hours. *)
Lemma window_is_not_validated_witness :
  decoded <> [] /\
  classifies_by (eoa_analyzer 2000) not_the_pool /\
  exists w',
    UniqueEOAAnalyzer.analyze_transfer_events (eoa_analyzer 2000) token 0 (Some 1000) 0 genesis
    = (inl "division by zero", w').
Proof.
  split; [discriminate|]. split; [exact chain_classifier|].
  exact (proj1 (window_is_not_validated
                  (eoa_analyzer 2000) not_the_pool token 0 (Some 1000) (reader 2000)
                  decoded genesis genesis (record_query 0 1000 genesis)
                  ltac:(discriminate) chain_classifier chain_reader chain_events)).
Defined.

(** X17 on the chain, over 24 hours. *)
Lemma activity_counts_fit_together_witness :
  decoded <> [] /\
  classifies_by (eoa_analyzer 2000) not_the_pool /\
  24 <> 0 /\
  exists result w',
    UniqueEOAAnalyzer.analyze_transfer_events (eoa_analyzer 2000) token 0 (Some 1000) 24 genesis
      = (inr result, w') /\
    0 <= UniqueEOAAnalyzer.unique_eoa_count result
      <= UniqueEOAAnalyzer.total_addresses result /\
    0 < UniqueEOAAnalyzer.total_addresses result <= 2 * Z.of_nat (length decoded).
Proof.
  split; [discriminate|]. split; [exact chain_classifier|]. split; [lia|].
  destruct (activity_counts_fit_together
              (eoa_analyzer 2000) not_the_pool token 0 (Some 1000) 24 (reader 2000)
              decoded genesis genesis (record_query 0 1000 genesis)
              ltac:(discriminate) chain_classifier ltac:(lia) chain_reader chain_events)
    as (result & w' & share & Hrun & _ & _ & _ & Hcount & Htotal & _).
  exists result, w'. split; [exact Hrun|]. split; [exact Hcount | exact Htotal].
Defined.

(** X18 on the chain. *)
Lemma stats_count_the_eoa_participants_witness :
  classifies_by (eoa_analyzer 2000) not_the_pool /\
  exists stats w',
    UniqueEOAAnalyzer.get_eoa_activity_stats (eoa_analyzer 2000) token 0 (Some 1000) genesis
      = (inr stats, w') /\
    UniqueEOAAnalyzer.total_eoa stats
      = Z.of_nat (size (eoa_participants not_the_pool decoded)) /\
    UniqueEOAAnalyzer.high_frequency_eoa stats + UniqueEOAAnalyzer.single_tx_eoa stats
      <= UniqueEOAAnalyzer.total_eoa stats.
Proof.
  split; [exact chain_classifier|].
  destruct (stats_count_the_eoa_participants
              (eoa_analyzer 2000) not_the_pool token 0 (Some 1000) (reader 2000)
              decoded genesis genesis (record_query 0 1000 genesis)
              chain_classifier chain_reader chain_events)
    as (stats & w' & Hrun & Htotal & _ & _ & Hboth & _).
  exists stats, w'. split; [exact Hrun|]. split; [exact Htotal | exact Hboth].
Defined.

(** X19 on the chain, over 24 hours. *)
Lemma stats_and_analysis_agree_witness :
  decoded <> [] /\
  classifies_by (eoa_analyzer 2000) not_the_pool /\
  24 <> 0 /\
  exists stats result w' w'',
    UniqueEOAAnalyzer.get_eoa_activity_stats (eoa_analyzer 2000) token 0 (Some 1000) genesis
      = (inr stats, w') /\
    UniqueEOAAnalyzer.analyze_transfer_events (eoa_analyzer 2000) token 0 (Some 1000) 24 genesis
      = (inr result, w'') /\
    UniqueEOAAnalyzer.total_eoa stats = UniqueEOAAnalyzer.unique_eoa_count result.
Proof.
  split; [discriminate|]. split; [exact chain_classifier|]. split; [lia|].
  destruct (stats_and_analysis_agree
              (eoa_analyzer 2000) not_the_pool token 0 (Some 1000) 24 (reader 2000)
              decoded genesis genesis (record_query 0 1000 genesis)
              ltac:(discriminate) chain_classifier ltac:(lia) chain_reader chain_events)
    as (stats & result & w' & w'' & Hstats & Hrun & Hsame & _).
  exists stats, result, w', w''. split; [exact Hstats|]. split; [exact Hrun | exact Hsame].
Defined.

(** The statistics of the chain: alice sends twice and receives once,
    bob and the zero address have two transfers each. *)
Example stats_of_the_chain :
  UniqueEOAAnalyzer.get_eoa_activity_stats (eoa_analyzer 2000) token 0 (Some 1000) genesis
  = (inr {| UniqueEOAAnalyzer.total_eoa := 3;
            UniqueEOAAnalyzer.avg_tx_per_eoa := nearest 2.33%Q;
            UniqueEOAAnalyzer.high_frequency_eoa := 0;
            UniqueEOAAnalyzer.single_tx_eoa := 0;
            UniqueEOAAnalyzer.high_freq_percentage := Some 0%Q;
            UniqueEOAAnalyzer.single_tx_percentage := Some 0%Q |},
     record_query 0 1000 genesis).
Proof. vm_compute. reflexivity. Qed.

End FurtherRuns.
